(** * Tribler configuration upgrade: [config_converter.py]

    A shallow embedding of
    [src/tribler-core/tribler_core/upgrade/config_converter.py]:
    the two legacy-settings merges ([add_tribler_config],
    [add_libtribler_config]) and the three stage drivers
    ([convert_config_to_tribler71], [convert_config_to_tribler74],
    [convert_config_to_tribler75]).

    Python exceptions are values of [exn]; code that touches the state
    directory or calls a collaborator whose invocation matters runs in the
    monad [M], a state-and-exception monad over [world] (the files of the
    state directory plus the journal of observable calls).  Side effects
    survive an exception, as they do in Python.

    Everything the module imports but does not define (the settings object,
    the parsers, the codecs) is a field of the record [Env]; the theorems
    quantify over it. *)

From Stdlib Require Import String List ZArith Bool Ascii Lia DecimalString.
Import ListNotations.
Local Open Scope string_scope.
Local Open Scope list_scope.
Set Warnings "-register-all".

(** ** Exceptions and results *)

Inductive exn : Type :=
| MissingSectionHeaderError
| NoSectionError
| DuplicateSectionError
| InvalidConfigException
| ValueError
| SyntaxError
| TypeError
| IndexError
| KeyError
| FileNotFoundError
| OtherError (name : string).

Inductive result (A : Type) : Type :=
| Ok (a : A)
| Raise (e : exn).

Arguments Ok {A} a.
Arguments Raise {A} e.

(** ** Python values, as [ast.literal_eval] produces them *)

Inductive pyval : Type :=
| PNone
| PBool (b : bool)
| PInt (z : Z)
| PStr (s : string)
| PBytes (s : string)
| PList (items : list pyval)
| PTuple (items : list pyval)
| PDict (entries : list (pyval * pyval)).

(** Python truthiness ([bool(v)]), used by [not x] and [x or y]. *)
Definition truthy (v : pyval) : bool :=
  match v with
  | PNone => false
  | PBool b => b
  | PInt z => negb (z =? 0)%Z
  | PStr s | PBytes s => negb (s =? "")
  | PList [] | PTuple [] | PDict [] => false
  | PList _ | PTuple _ | PDict _ => true
  end.

(** [isinstance(value, list)] and [isinstance(value, tuple)]. *)
Definition is_list (v : pyval) : bool :=
  match v with PList _ => true | _ => false end.

Definition is_tuple (v : pyval) : bool :=
  match v with PTuple _ => true | _ => false end.

(** [value[i]] on a tuple or a list: [IndexError] out of range; [TypeError]
    on a value that cannot be subscripted by an integer. *)
Definition subscript (v : pyval) (i : nat) : result pyval :=
  match v with
  | PTuple items | PList items =>
      match nth_error items i with
      | Some x => Ok x
      | None => Raise IndexError
      end
  | _ => Raise TypeError
  end.

(** ** Ordered dictionaries with string keys

    [RawConfigParser] and [ConfigObj] both keep sections and keys in file
    order, so a dictionary is an association list. *)

Section Dict.
Context {V : Type}.

Fixpoint lookup (k : string) (d : list (string * V)) : option V :=
  match d with
  | [] => None
  | (k', v) :: rest => if k' =? k then Some v else lookup k rest
  end.

(** [d[k] = v]: the value is replaced where the key stands, a new key goes
    last. *)
Fixpoint assign (k : string) (v : V) (d : list (string * V)) : list (string * V) :=
  match d with
  | [] => [(k, v)]
  | (k', v') :: rest =>
      if k' =? k then (k, v) :: rest else (k', v') :: assign k v rest
  end.

(** [del d[k]] (a missing key is left to the caller). *)
Fixpoint discard (k : string) (d : list (string * V)) : list (string * V) :=
  match d with
  | [] => []
  | (k', v') :: rest =>
      if k' =? k then discard k rest else (k', v') :: discard k rest
  end.

(** [d.update(other)]: each pair of [other] assigned in turn. *)
Definition update (d other : list (string * V)) : list (string * V) :=
  fold_left (fun acc (kv : string * V) => assign (fst kv) (snd kv) acc) other d.

(** [k in d]. *)
Definition contains (k : string) (d : list (string * V)) : bool :=
  match lookup k d with Some _ => true | None => false end.

End Dict.

(** Sections of raw strings, in file order: what [RawConfigParser] holds
    besides its [[DEFAULT]] options, and also what it lists, [sections()]
    with the pairs of [items(section)] for each. *)
Definition ini : Type := list (string * list (string * string)).

(** A [RawConfigParser] (or [CallbackConfigParser]): the options of
    [[DEFAULT]], which every section inherits, and the sections with the
    options of their own. *)
Record parser : Type := Parser {
  defaults : list (string * string);
  sections : ini
}.

(** A [ConfigObj]: sections of Python values.  The settings object
    ([TriblerConfig]) and a download checkpoint ([DownloadConfig]) both wrap
    one in their [config] attribute. *)
Definition configobj : Type := list (string * list (string * pyval)).

Definition settings : Type := configobj.

(** [c[sec][key] = v] on a [ConfigObj]: [KeyError] when the section is
    missing. *)
Definition setitem2 (sec key : string) (v : pyval) (c : configobj) : result configobj :=
  match lookup sec c with
  | Some items => Ok (assign sec (assign key v items) c)
  | None => Raise KeyError
  end.

(** ** The state directory *)

(** A file of the state directory: directly under it, or under its
    checkpoint sub-directory ([STATEDIR_CHECKPOINT_DIR]). *)
Inductive path : Type :=
| Root (name : string)
| Checkpoint (name : string).

Definition path_eqb (p q : path) : bool :=
  match p, q with
  | Root a, Root b => a =? b
  | Checkpoint a, Checkpoint b => a =? b
  | _, _ => false
  end.

(** What an observer of a run can see besides the files. *)
Inductive event : Type :=
| Evaluated (text : string)          (* ast.literal_eval(text) was called *)
| Validated (candidate : settings)   (* candidate.validate() was called *)
| Log_debug (msg : string)
| Log_error (msg : string) (file : path)
| Removed (file : path)              (* os.remove(file) succeeded *)
| Written (file : path) (text : string).

Record world : Type := World {
  files : list (path * string);
  journal : list event
}.

(** ** The monad *)

Definition M (A : Type) : Type := world -> result A * world.

Definition ret {A} (a : A) : M A := fun w => (Ok a, w).

Definition raise {A} (e : exn) : M A := fun w => (Raise e, w).

Definition bind {A B} (m : M A) (k : A -> M B) : M B :=
  fun w =>
    match m w with
    | (Ok a, w') => k a w'
    | (Raise e, w') => (Raise e, w')
    end.

(** [try: m except <those e with handler e = Some h>: h]. *)
Definition try_except {A} (m : M A) (handler : exn -> option (M A)) : M A :=
  fun w =>
    match m w with
    | (Ok a, w') => (Ok a, w')
    | (Raise e, w') =>
        match handler e with
        | Some h => h w'
        | None => (Raise e, w')
        end
    end.

Definition lift {A} (r : result A) : M A := fun w => (r, w).

Definition emit (ev : event) : M unit :=
  fun w => (Ok tt, World (files w) (journal w ++ [ev])).

Declare Scope conv_scope.
Delimit Scope conv_scope with conv.
Notation "x <- m ;; k" := (bind m (fun x => k))
  (at level 100, m at next level, right associativity) : conv_scope.
Notation "m ;;; k" := (bind m (fun _ => k))
  (at level 100, right associativity) : conv_scope.
Local Open Scope conv_scope.

(** [for x in xs: s = body(s, x)], the loop variable threaded as [s]. *)
Fixpoint foldM {A S} (body : S -> A -> M S) (xs : list A) (s : S) : M S :=
  match xs with
  | [] => ret s
  | x :: rest => s' <- body s x ;; foldM body rest s'
  end.

(** [for x in xs: body(x)]. *)
Fixpoint for_each {A} (body : A -> M unit) (xs : list A) : M unit :=
  match xs with
  | [] => ret tt
  | x :: rest => body x ;;; for_each body rest
  end.

(** ** File operations *)

Fixpoint find_file (p : path) (fs : list (path * string)) : option string :=
  match fs with
  | [] => None
  | (q, text) :: rest => if path_eqb q p then Some text else find_file p rest
  end.

Fixpoint delete_file (p : path) (fs : list (path * string)) : list (path * string) :=
  match fs with
  | [] => []
  | (q, text) :: rest =>
      if path_eqb q p then delete_file p rest else (q, text) :: delete_file p rest
  end.

Fixpoint store_file (p : path) (text : string) (fs : list (path * string))
  : list (path * string) :=
  match fs with
  | [] => [(p, text)]
  | (q, old) :: rest =>
      if path_eqb q p then (p, text) :: rest else (q, old) :: store_file p text rest
  end.

(** [p.exists()]. *)
Definition exists_file (p : path) : M bool :=
  fun w => (Ok (match find_file p (files w) with Some _ => true | None => false end), w).

(** [open(p).read()]. *)
Definition read_file (p : path) : M string :=
  fun w =>
    match find_file p (files w) with
    | Some text => (Ok text, w)
    | None => (Raise FileNotFoundError, w)
    end.

(** [os.remove(p)]. *)
Definition os_remove (p : path) : M unit :=
  fun w =>
    match find_file p (files w) with
    | Some _ => (Ok tt, World (delete_file p (files w)) (journal w ++ [Removed p]))
    | None => (Raise FileNotFoundError, w)
    end.

(** [open(p, "w").write(text)]. *)
Definition write_file (p : path) (text : string) : M unit :=
  fun w => (Ok tt, World (store_file p text (files w)) (journal w ++ [Written p text])).

(** [name.endswith(suffix)]. *)
Definition ends_with (suffix name : string) : bool :=
  substring (String.length name - String.length suffix) (String.length suffix) name
  =? suffix.

(** [(state_dir / STATEDIR_CHECKPOINT_DIR).glob('*' + ext)]: the directory is
    listed once, in listing order. *)
Definition glob (ext : string) : M (list path) :=
  fun w =>
    (Ok (filter (fun p => match p with
                          | Checkpoint name => ends_with ext name
                          | Root _ => false
                          end) (map fst (files w))), w).

(** ** Collaborators

    What [config_converter.py] imports and calls.  Nothing below depends on
    how these behave beyond their signatures. *)

Record Env : Type := {
  (* ast.literal_eval: raises ValueError or SyntaxError on text that is not
     a literal *)
  literal_eval : string -> result pyval;
  (* str(v) *)
  py_str : pyval -> string;
  (* TriblerConfig: a typed setter, by method name, and validate(), false
     when it raises InvalidConfigException *)
  setter : string -> pyval -> settings -> settings;
  validate : settings -> bool;
  (* RawConfigParser: read/read_file on a file's text, and write *)
  raw_parse : string -> result parser;
  raw_write : parser -> string;
  (* CallbackConfigParser: read_file; what get(section, option,
     literal_eval=False) does when the option is missing (None: it returns
     Python's None; Some e: it raises e); the value get(section, key)
     returns for a stored string *)
  callback_read : string -> result parser;
  get_missing : option exn;
  get_decoded : string -> pyval;
  (* lib2to3's RefactoringTool.refactor_string(text, name) *)
  refactor_string : string -> string -> result string;
  (* tribler_core.utilities.unicode.recursive_ungarble_metainfo *)
  recursive_ungarble_metainfo : pyval -> pyval;
  (* lt.bencode and base64.b64encode(...).decode('utf-8') *)
  bencode : pyval -> result string;
  b64encode : string -> string;
  (* ConfigObj(infile=path) on the file's text (None: no such file) and
     ConfigObj.write *)
  configobj_read : option string -> result configobj;
  configobj_write : configobj -> string;
  (* DownloadConfig.load, get_metainfo, write; the key of download_defaults
     that set_selected_files assigns *)
  download_load : string -> result configobj;
  get_metainfo : configobj -> pyval;
  download_write : configobj -> string;
  selected_key : string;
  (* TorrentDef.load_from_dict followed by the file table of the torrent;
     what get_index_of_file_in_files does with a name that is not in it *)
  file_table : pyval -> result (list string);
  unresolved : result pyval
}.

(** Modelled from the spec: [TriblerConfig.copy] (not under src/) returns a
    settings object with the same values that shares nothing with the
    original, so a later assignment to the copy leaves the original as it
    was.  Values are immutable here, so the copy is the value itself. *)
Definition copy (c : settings) : settings := c.

Section Merge.
Variable E : Env.

(** Lines 86-90 and 130-134: [ast.literal_eval], the raw string when it
    fails. *)
Definition decode (string_value : string) : M pyval :=
  try_except
    (emit (Evaluated string_value) ;;; lift (literal_eval E string_value))
    (fun e => match e with
              | ValueError | SyntaxError => Some (ret (PStr string_value))
              | _ => None
              end).

Definition at_field (section name s n : string) : bool :=
  (section =? s) && (name =? n).

(** Lines 93-106 of [add_tribler_config]: seven independent [if]s on the
    copy. *)
Definition tribler_mutations (section name : string) (value : pyval)
    (temp_config : settings) : result settings :=
  let t1 := if at_field section name "Tribler" "default_anonymity_enabled"
            then Ok (setter E "set_default_anonymity_enabled" value temp_config)
            else Ok temp_config in
  match t1 with Raise e => Raise e | Ok t1 =>
  let t2 := if at_field section name "Tribler" "default_number_hops"
            then Ok (setter E "set_default_number_hops" value t1)
            else Ok t1 in
  match t2 with Raise e => Raise e | Ok t2 =>
  let t3 := if at_field section name "downloadconfig" "saveas"
            then setitem2 "download_defaults" "saveas" value t2
            else Ok t2 in
  match t3 with Raise e => Raise e | Ok t3 =>
  let t4 := if at_field section name "downloadconfig" "seeding_mode"
            then setitem2 "download_defaults" "seeding_mode" value t3
            else Ok t3 in
  match t4 with Raise e => Raise e | Ok t4 =>
  let t5 := if at_field section name "downloadconfig" "seeding_ratio"
            then setitem2 "download_defaults" "seeding_ratio" value t4
            else Ok t4 in
  match t5 with Raise e => Raise e | Ok t5 =>
  let t6 := if at_field section name "downloadconfig" "seeding_time"
            then setitem2 "download_defaults" "seeding_time" value t5
            else Ok t5 in
  match t6 with Raise e => Raise e | Ok t6 =>
  if at_field section name "downloadconfig" "version"
  then setitem2 "download_defaults" "version" value t6
  else Ok t6
  end end end end end end.

(** Lines 170-173: the [anon_proxyserver] branch. *)
Definition set_anon_proxyserver (value : pyval) (temp_config : settings)
  : result settings :=
  if is_tuple value then
    match subscript value 1 with
    | Raise e => Raise e
    | Ok second =>
        match second with
        | PList ports =>
            match subscript value 0 with
            | Raise e => Raise e
            | Ok first =>
                match setitem2 "libtorrent" "anon_proxy_server_ip" first temp_config with
                | Raise e => Raise e
                | Ok t =>
                    setitem2 "libtorrent" "anon_proxy_server_ports"
                      (PList (map (fun port => PStr (py_str E port)) ports)) t
                end
            end
        | _ => Ok temp_config
        end
    end
  else Ok temp_config.

(** Lines 137-191 of [add_libtribler_config]: one [if]/[elif] chain on the
    copy. *)
Definition libtribler_mutations (section name : string) (value : pyval)
    (temp_config : settings) : result settings :=
  let on := at_field section name in
  if on "general" "state_dir" then
    Ok (setter E "set_root_state_dir" value temp_config)
  else if on "general" "log_dir" then
    Ok (setter E "set_log_dir" value temp_config)
  else if on "tunnel_community" "enabled" then
    Ok (setter E "set_tunnel_community_enabled" value temp_config)
  else if on "tunnel_community" "socks5_listen_ports" then
    if is_list value
    then Ok (setter E "set_tunnel_community_socks5_listen_ports" value temp_config)
    else Ok temp_config
  else if on "tunnel_community" "exitnode_enabled" then
    Ok (setter E "set_tunnel_community_exitnode_enabled" value temp_config)
  else if on "general" "ec_keypair_filename_multichain" then
    Ok (setter E "set_trustchain_keypair_filename" value temp_config)
  else if on "torrent_checking" "enabled" then
    Ok (setter E "set_torrent_checking_enabled" value temp_config)
  else if on "libtorrent" "lt_proxytype" then
    setitem2 "libtorrent" "proxy_type" value temp_config
  else if on "libtorrent" "lt_proxyserver" then
    setitem2 "libtorrent" "proxy_server" value temp_config
  else if on "libtorrent" "lt_proxyauth" then
    setitem2 "libtorrent" "proxy_auth" value temp_config
  else if on "libtorrent" "max_connections_download" then
    Ok (setter E "set_libtorrent_max_conn_download" value temp_config)
  else if on "libtorrent" "max_download_rate" then
    Ok (setter E "set_libtorrent_max_download_rate" value temp_config)
  else if on "libtorrent" "max_upload_rate" then
    Ok (setter E "set_libtorrent_max_upload_rate" value temp_config)
  else if on "libtorrent" "utp" then
    Ok (setter E "set_libtorrent_utp" value temp_config)
  else if on "libtorrent" "anon_listen_port" then
    Ok (setter E "set_anon_listen_port" value temp_config)
  else if on "libtorrent" "anon_proxytype" then
    setitem2 "libtorrent" "anon_proxy_type" value temp_config
  else if on "libtorrent" "anon_proxyserver" then
    set_anon_proxyserver value temp_config
  else if on "libtorrent" "anon_proxyauth" then
    setitem2 "libtorrent" "anon_proxy_auth" value temp_config
  else if on "video" "enabled" then
    Ok (setter E "set_video_server_enabled" value temp_config)
  else if on "video" "port" then
    Ok (setter E "set_video_server_port" value temp_config)
  else if on "watch_folder" "enabled" then
    Ok (setter E "set_watch_folder_enabled" value temp_config)
  else if on "watch_folder" "watch_folder_dir" then
    Ok (setter E "set_watch_folder_path" value temp_config)
  else if on "http_api" "enabled" then
    Ok (setter E "set_http_api_enabled" value temp_config)
  else if on "http_api" "port" then
    Ok (setter E "set_http_api_port" value temp_config)
  else if on "credit_mining" "enabled" then
    Ok (setter E "set_credit_mining_enabled" value temp_config)
  else if on "credit_mining" "sources" then
    Ok (setter E "set_credit_mining_sources" value temp_config)
  else Ok temp_config.

(** The dispatch of either merge: what to do to the copy for a field. *)
Definition dispatch : Type := string -> string -> pyval -> settings -> result settings.

(** Lines 86-106 and 130-191: decode the raw string, copy the baseline,
    mutate the copy. *)
Definition candidate (mutations : dispatch) (section name string_value : string)
    (config : settings) : M settings :=
  value <- decode string_value ;;
  lift (mutations section name value (copy config)).

(** Lines 108-112 and 193-197: adopt the copy unless [validate] raises. *)
Definition adopt (label : string) (temp_config config : settings) : M settings :=
  try_except
    (emit (Validated temp_config) ;;;
     if validate E temp_config then ret temp_config else raise InvalidConfigException)
    (fun e => match e with
              | InvalidConfigException => Some (emit (Log_debug label) ;;; ret config)
              | _ => None
              end).

(** One turn of the inner loop (lines 82-112, 126-197). *)
Definition merge_field (mutations : dispatch) (label section : string)
    (config : settings) (item : string * string) : M settings :=
  let (name, string_value) := item in
  if string_value =? "None" then ret config
  else
    temp_config <- candidate mutations section name string_value config ;;
    adopt label temp_config config.

(** One turn of the outer loop: [for (name, string_value) in
    old_config.items(section)]. *)
Definition merge_section (mutations : dispatch) (label : string)
    (config : settings) (sec : string * list (string * string)) : M settings :=
  foldM (merge_field mutations label (fst sec)) (snd sec) config.

(** The outer loop, [for section in old_config.sections()].  The parser is
    given as the loops go through it: its sections, each with the pairs of
    [items(section)]. *)
Definition merge (mutations : dispatch) (label : string)
    (new_config : settings) (old_config : ini) : M settings :=
  foldM (merge_section mutations label) old_config (copy new_config).

Definition tribler_label : string :=
  "The following field in the old tribler.conf was wrong".

Definition libtribler_label : string :=
  "The following field in the old libtribler.conf was wrong".

Definition add_tribler_config (new_config : settings) (old_config : ini) : M settings :=
  merge tribler_mutations tribler_label new_config old_config.

Definition add_libtribler_config (new_config : settings) (old_config : ini) : M settings :=
  merge libtribler_mutations libtribler_label new_config old_config.

End Merge.

(** ** [RawConfigParser] operations

    The methods of the standard library's [configparser] that the module
    calls, on a section other than [[DEFAULT]] itself: the section names the
    module passes are ["downloadconfig"], ["download_defaults"], ["state"]
    and the names that [sections()] returns.  Option names are held as
    [optionxform] leaves them; the module passes lower-case constants and
    names that [items()] returned, which [optionxform] does not change. *)

(** A parser that has read nothing. *)
Definition empty_parser : parser := Parser [] [].

(** [cfg.sections()]: [[DEFAULT]] is not among them. *)
Definition rc_sections (cfg : parser) : list string := map fst (sections cfg).

(** [cfg.items(section)]: [d = defaults.copy(); d.update(own)], so the
    options of [[DEFAULT]] come first, with the section's value where it has
    the option too, and the other options of the section follow. *)
Definition rc_items (section : string) (cfg : parser) : result (list (string * string)) :=
  match lookup section (sections cfg) with
  | Some own => Ok (update (defaults cfg) own)
  | None => Raise NoSectionError
  end.

(** [cfg.add_section(section)]. *)
Definition rc_add_section (section : string) (cfg : parser) : result parser :=
  match lookup section (sections cfg) with
  | Some _ => Raise DuplicateSectionError
  | None => Ok (Parser (defaults cfg) (sections cfg ++ [(section, [])]))
  end.

(** [cfg.set(section, option, value)]: the option becomes one of the
    section's own. *)
Definition rc_set (section option value : string) (cfg : parser) : result parser :=
  match lookup section (sections cfg) with
  | Some own =>
      Ok (Parser (defaults cfg) (assign section (assign option value own) (sections cfg)))
  | None => Raise NoSectionError
  end.

(** [cfg.remove_section(section)]. *)
Definition rc_remove_section (section : string) (cfg : parser) : parser :=
  Parser (defaults cfg) (discard section (sections cfg)).

(** [cfg.has_option(section, option)]: false when there is no such section,
    and an option of [[DEFAULT]] is an option of every section. *)
Definition rc_has_option (section option : string) (cfg : parser) : bool :=
  match lookup section (sections cfg) with
  | Some own => contains option own || contains option (defaults cfg)
  | None => false
  end.

(** [cfg.remove_option(section, option)]: the option is deleted from the
    section's own; [[DEFAULT]] is left as it is. *)
Definition rc_remove_option (section option : string) (cfg : parser) : result parser :=
  match lookup section (sections cfg) with
  | Some own =>
      Ok (Parser (defaults cfg) (assign section (discard option own) (sections cfg)))
  | None => Raise NoSectionError
  end.

(** [if cfg.has_option(section, option): cfg.remove_option(section, option)]. *)
Definition rc_drop_option (section option : string) (cfg : parser) : result parser :=
  if rc_has_option section option cfg then rc_remove_option section option cfg
  else Ok cfg.

(** [[(section, cfg.items(section)) for section in cfg.sections()]]: what a
    loop over the sections and their items goes through ([items] does not
    raise on a name that [sections()] returned). *)
Definition rc_listing (cfg : parser) : ini :=
  map (fun section =>
         (section,
          update (defaults cfg)
            (match lookup section (sections cfg) with
             | Some own => own
             | None => []
             end)))
      (rc_sections cfg).

(** [RawConfigParser().read(path)] on the file's text, as the merges read
    the parser: they call [sections()] and [items(section)] only. *)
Definition raw_read (E : Env) (text : string) : result ini :=
  match raw_parse E text with
  | Ok cfg => Ok (rc_listing cfg)
  | Raise e => Raise e
  end.

(** [if section not in c: c[section] = {}] then [c[section][key] = v]. *)
Definition put2 (section key : string) (v : pyval) (c : configobj) : configobj :=
  assign section
    (assign key v (match lookup section c with Some items => items | None => [] end)) c.

(** [c[section]]. *)
Definition getitem (section : string) (c : configobj) : result (list (string * pyval)) :=
  match lookup section c with
  | Some items => Ok items
  | None => Raise KeyError
  end.

Definition newline : string := String (ascii_of_nat 10) "".

(** [value + '\n']: only a string can be added to a string. *)
Definition add_newline (value : pyval) : result string :=
  match value with
  | PStr text => Ok (text ++ newline)%string
  | _ => Raise TypeError
  end.

(** [for x in v]: the items a Python value iterates over. *)
Definition py_iter (v : pyval) : result (list pyval) :=
  match v with
  | PList items | PTuple items => Ok items
  | PDict entries => Ok (map fst entries)
  | PStr text => Ok (map (fun c => PStr (String c "")) (list_ascii_of_string text))
  | PBytes text => Ok (map (fun c => PInt (Z.of_nat (nat_of_ascii c))) (list_ascii_of_string text))
  | PNone | PBool _ | PInt _ => Raise TypeError
  end.

(** [[f(x) for x in xs]]: the first exception ends the comprehension. *)
Fixpoint map_result {A B} (f : A -> result B) (xs : list A) : result (list B) :=
  match xs with
  | [] => Ok []
  | x :: rest =>
      match f x with
      | Raise e => Raise e
      | Ok y =>
          match map_result f rest with
          | Raise e => Raise e
          | Ok ys => Ok (y :: ys)
          end
      end
  end.

(** Position of the first exact match. *)
Fixpoint index_of (name : string) (table : list string) : option nat :=
  match table with
  | [] => None
  | entry :: rest =>
      if entry =? name then Some 0
      else match index_of name rest with
           | Some i => Some (S i)
           | None => None
           end
  end.

(** [str(filename)[:-6] + '.conf']. *)
Definition conf_name (name : string) : string :=
  (substring 0 (String.length name - 6) name ++ ".conf")%string.

Definition conf_path (filename : path) : path :=
  match filename with
  | Root name => Root (conf_name name)
  | Checkpoint name => Checkpoint (conf_name name)
  end.

Definition corrupt_msg : string :=
  "Removing download state file %s since it appears to be corrupt".

Definition unconvertible_msg : string :=
  "Removing download state file %s since it could not be converted".

Section Stages.
Variable E : Env.

(** [ast.literal_eval(text)], journalled. *)
Definition eval_literal (text : string) : M pyval :=
  emit (Evaluated text) ;;; lift (literal_eval E text).

(** *** [convert_config_to_tribler71] *)

(** Lines 32-37 and 39-44: a legacy settings file, when it exists, is read,
    merged and removed. *)
Definition absorb_legacy (loc : path) (add : settings -> ini -> M settings)
    (current_config : settings) : M settings :=
  present <- exists_file loc ;;
  if present : bool then
    text <- read_file loc ;;
    cfg <- lift (raw_read E text) ;;
    merged <- add current_config cfg ;;
    os_remove loc ;;;
    ret merged
  else ret current_config.

(** Lines 49-67: the body of the loop over the [.state] files. *)
Definition rename_downloadconfig (filename : path) : M unit :=
  download_cfg <-
    try_except
      (text <- read_file filename ;; lift (raw_parse E text))
      (fun e => match e with
                | MissingSectionHeaderError =>
                    Some (emit (Log_error corrupt_msg filename) ;;;
                          os_remove filename ;;;
                          ret empty_parser)
                | _ => None
                end) ;;
  try_except
    (download_items <- lift (rc_items "downloadconfig" download_cfg) ;;
     added <- lift (rc_add_section "download_defaults" download_cfg) ;;
     filled <- foldM (fun cfg (download_item : string * string) =>
                        lift (rc_set "download_defaults" (fst download_item)
                                (snd download_item) cfg))
                     download_items added ;;
     write_file filename (raw_write E (rc_remove_section "downloadconfig" filled)))
    (fun e => match e with
              | NoSectionError | DuplicateSectionError => Some (ret tt)
              | _ => None
              end).

Definition convert_config_to_tribler71 (current_config : settings) : M settings :=
  c1 <- absorb_legacy (Root "libtribler.conf") (add_libtribler_config E) current_config ;;
  c2 <- absorb_legacy (Root "tribler.conf") (add_tribler_config E) c1 ;;
  state_files <- glob ".state" ;;
  for_each rename_downloadconfig state_files ;;;
  ret c2.

(** *** [convert_config_to_tribler74] *)

(** [old_config.get(section, option, literal_eval=False)]: the section's
    own value, else the value of [[DEFAULT]]; the option is missing when
    neither has it or there is no such section. *)
Definition get_raw (section option : string) (old_config : parser) : result pyval :=
  let missing := match get_missing E with None => Ok PNone | Some e => Raise e end in
  match lookup section (sections old_config) with
  | Some own =>
      match lookup option own with
      | Some text => Ok (PStr text)
      | None =>
          match lookup option (defaults old_config) with
          | Some text => Ok (PStr text)
          | None => missing
          end
      end
  | None => missing
  end.

(** Lines 224-225: the value that is re-encoded, and its stored text. *)
Definition reencode (ungarbled_dict : pyval) (text : string) : M string :=
  value <- (if truthy ungarbled_dict then ret ungarbled_dict else eval_literal text) ;;
  encoded <- lift (bencode E value) ;;
  ret (b64encode E encoded).

(** Lines 220-229: one turn of the loop over the two payload fields. *)
Definition upgrade_option (filename : path) (old_config : parser)
    (field : string * string) : M parser :=
  let (section, option) := field in
  value <- lift (get_raw section option old_config) ;;
  source <- lift (add_newline value) ;;
  text <- lift (refactor_string E source (option ++ "_2to3")%string) ;;
  literal <- eval_literal text ;;
  let ungarbled_dict := recursive_ungarble_metainfo E literal in
  try_except
    (stored <- reencode ungarbled_dict text ;;
     lift (rc_set section option stored old_config))
    (fun e => match e with
              | ValueError | SyntaxError =>
                  Some (emit (Log_error unconvertible_msg filename) ;;;
                        os_remove filename ;;;
                        ret old_config)
              | _ => None
              end).

(** Lines 237-241: every key of [items(section)] goes into the [ConfigObj],
    with the value that [get(section, key)] returns for it. *)
Definition copy_section (new_config : configobj)
    (sec : string * list (string * string)) : configobj :=
  fold_left (fun c (kv : string * string) =>
               put2 (fst sec) (fst kv) (get_decoded E (snd kv)) c)
            (snd sec) new_config.

(** Lines 236-241: the loop over [sections()]. *)
Definition copy_sections (old_config : parser) (new_config : configobj) : configobj :=
  fold_left copy_section (rc_listing old_config) new_config.

(** Lines 211-243: the body of the loop over the [.state] files. *)
Definition convert_state_file (filename : path) : M unit :=
  old_config <-
    try_except
      (text <- read_file filename ;; lift (callback_read E text))
      (fun e => match e with
                | MissingSectionHeaderError =>
                    Some (emit (Log_error corrupt_msg filename) ;;;
                          os_remove filename ;;;
                          ret empty_parser)
                | _ => None
                end) ;;
  upgraded <- foldM (upgrade_option filename)
                    [("state", "metainfo"); ("state", "engineresumedata")] old_config ;;
  trimmed <- lift (rc_drop_option "state" "dlstate" upgraded) ;;
  existing <- (fun w => (Ok (find_file (conf_path filename) (files w)), w)) ;;
  new_config <- lift (configobj_read E existing) ;;
  write_file (conf_path filename) (configobj_write E (copy_sections trimmed new_config)) ;;;
  os_remove filename.

Definition convert_config_to_tribler74 : M unit :=
  state_files <- glob ".state" ;;
  for_each convert_state_file state_files.

(** *** [convert_config_to_tribler75] *)

(** Modelled from the spec: [TorrentDef.get_index_of_file_in_files] (not
    under src/) resolves a path to its index in the torrent's file table by
    exact match.  What it does with a name that is not in the table is the
    collaborator's [unresolved]. *)
Definition get_index_of_file_in_files (table : list string) (fn : pyval) : result pyval :=
  match fn with
  | PStr name =>
      match index_of name table with
      | Some i => Ok (PInt (Z.of_nat i))
      | None => unresolved E
      end
  | _ => unresolved E
  end.

(** Modelled from the spec: [DownloadConfig.set_selected_files] (not under
    src/) stores the index list in [download_defaults], under the key
    [selected_key]. *)
Definition set_selected_files (indexes : list pyval) (config : configobj) : configobj :=
  put2 "download_defaults" (selected_key E) (PList indexes) config.

(** [config.config['download_defaults'].get('selected_files')]. *)
Definition selected_files_of (download_defaults : list (string * pyval)) : pyval :=
  match lookup "selected_files" download_defaults with
  | Some v => v
  | None => PNone
  end.

(** Lines 252-259: the body of the loop over the [.conf] files. *)
Definition migrate_selected_files (filename : path) : M unit :=
  text <- read_file filename ;;
  config <- lift (download_load E text) ;;
  let metainfo := get_metainfo E config in
  download_defaults <- lift (getitem "download_defaults" config) ;;
  let selected := selected_files_of download_defaults in
  if negb (truthy selected) || negb (truthy metainfo) then ret tt
  else
    table <- lift (file_table E metainfo) ;;
    let popped := assign "download_defaults"
                    (discard "selected_files" download_defaults) config in
    names <- lift (py_iter selected) ;;
    indexes <- lift (map_result (get_index_of_file_in_files table) names) ;;
    write_file filename (download_write E (set_selected_files indexes popped)).

Definition convert_config_to_tribler75 : M unit :=
  conf_files <- glob ".conf" ;;
  for_each migrate_selected_files conf_files.

(** The three stages in the order the upgrade runs them. *)
Definition full_pipeline (current_config : settings) : M settings :=
  c <- convert_config_to_tribler71 current_config ;;
  convert_config_to_tribler74 ;;;
  convert_config_to_tribler75 ;;;
  ret c.

End Stages.

(** ** A concrete environment

    Small executable stand-ins for the collaborators, used to run the
    converter on concrete state directories.  Each agrees with the real
    collaborator on the inputs it is run on below; none is used by the
    general theorems. *)

Module Demo.
Local Open Scope string_scope.

(** [repr(v)] for the values used here. *)
Fixpoint show (v : pyval) : string :=
  let fix items (vs : list pyval) : string :=
    match vs with
    | [] => ""
    | [x] => show x
    | x :: rest => show x ++ ", " ++ items rest
    end in
  let fix entries (es : list (pyval * pyval)) : string :=
    match es with
    | [] => ""
    | [(k, x)] => show k ++ ": " ++ show x
    | (k, x) :: rest => show k ++ ": " ++ show x ++ ", " ++ entries rest
    end in
  match v with
  | PNone => "None"
  | PBool true => "True"
  | PBool false => "False"
  | PInt z => NilZero.string_of_int (Z.to_int z)
  | PStr s => "'" ++ s ++ "'"
  | PBytes s => "b'" ++ s ++ "'"
  | PList vs => "[" ++ items vs ++ "]"
  | PTuple [x] => "(" ++ show x ++ ",)"
  | PTuple vs => "(" ++ items vs ++ ")"
  | PDict es => "{" ++ entries es ++ "}"
  end%string.

Definition py_str (v : pyval) : string :=
  match v with
  | PStr s => s
  | _ => show v
  end.

Definition decimal (n : nat) : string := NilZero.string_of_uint (Nat.to_uint n).

(** Bencoding of integers (a boolean is an integer), strings, lists and
    dictionaries; [None] has no bencoded form and is encoded as an empty
    string is. *)
Fixpoint bencode (v : pyval) : result string :=
  let fix items (vs : list pyval) : result string :=
    match vs with
    | [] => Ok ""
    | x :: rest =>
        match bencode x, items rest with
        | Ok a, Ok b => Ok (a ++ b)
        | Raise e, _ | _, Raise e => Raise e
        end
    end in
  let fix entries (es : list (pyval * pyval)) : result string :=
    match es with
    | [] => Ok ""
    | (k, x) :: rest =>
        match bencode k, bencode x, entries rest with
        | Ok a, Ok b, Ok c => Ok (a ++ b ++ c)
        | Raise e, _, _ | _, Raise e, _ | _, _, Raise e => Raise e
        end
    end in
  match v with
  | PInt z => Ok ("i" ++ show (PInt z) ++ "e")
  | PStr s | PBytes s => Ok (decimal (String.length s) ++ ":" ++ s)
  | PList vs | PTuple vs =>
      match items vs with Ok body => Ok ("l" ++ body ++ "e") | Raise e => Raise e end
  | PDict es =>
      match entries es with Ok body => Ok ("d" ++ body ++ "e") | Raise e => Raise e end
  | PBool true => Ok "i1e"
  | PBool false => Ok "i0e"
  | PNone => Ok "0:"
  end%string.

(** A stand-in for base64: the payload, tagged. *)
Definition b64encode (payload : string) : string := ("base64:" ++ payload)%string.

(** A lookup table as a parser: the first entry whose text is the input. *)
Fixpoint table {A} (rows : list (string * A)) (otherwise : A) (text : string) : A :=
  match rows with
  | [] => otherwise
  | (key, a) :: rest => if key =? text then a else table rest otherwise text
  end.

Definition files_abc : pyval := PList [PStr "a.txt"; PStr "b.txt"; PStr "c.txt"].

Definition metainfo_abc : pyval :=
  PDict [(PStr "info", PDict [(PStr "name", PStr "t"); (PStr "files", files_abc)])].

(** [ast.literal_eval] on the literals of the examples; a cut-off literal is
    a [SyntaxError], and anything else here holds a bare name, a
    [ValueError]. *)
Definition literal_eval : string -> result pyval :=
  table
    [ ("3", Ok (PInt 3));
      ("9", Ok (PInt 9));
      ("True", Ok (PBool true));
      ("[1080, 1081]", Ok (PList [PInt 1080; PInt 1081]));
      ("(1,)", Ok (PTuple [PInt 1]));
      ("('127.0.0.1', [1080, 1081])",
       Ok (PTuple [PStr "127.0.0.1"; PList [PInt 1080; PInt 1081]]));
      ("{'a': 1}" ++ newline, Ok (PDict [(PStr "a", PInt 1)]));
      ("{}" ++ newline, Ok (PDict []));
      ("{'info': {'name': 't'}}" ++ newline,
       Ok (PDict [(PStr "info", PDict [(PStr "name", PStr "t")])]));
      ("[1080,", Raise SyntaxError) ]%string
    (Raise ValueError).

(** [CallbackConfigParser.get(section, key)]: the literal when the text is
    one, the text otherwise (the table above has the dictionaries with the
    newline the payload upgrade appends). *)
Definition get_decoded (text : string) : pyval :=
  match literal_eval (text ++ newline) with
  | Ok v => v
  | Raise _ => match literal_eval text with Ok v => v | Raise _ => PStr text end
  end.

(** The typed setters, each recorded in a section of its own under the
    method's name. *)
Definition setter (method : string) (value : pyval) (c : settings) : settings :=
  put2 "typed" method value c.

(** A settings object is valid when [libtorrent.proxy_type], if set, is an
    integer from 0 to 5. *)
Definition validate (c : settings) : bool :=
  match lookup "libtorrent" c with
  | Some items =>
      match lookup "proxy_type" items with
      | Some (PInt z) => (0 <=? z)%Z && (z <=? 5)%Z
      | Some _ => false
      | None => true
      end
  | None => true
  end.

(** Legacy settings files and [.state] checkpoints. *)
Definition libtribler_text : string :=
  "[libtorrent]
lt_proxytype = 3
lt_proxyauth = None
lt_proxyserver = 9
".

Definition libtribler_ini : ini :=
  [("libtorrent", [("lt_proxytype", "3"); ("lt_proxyauth", "None"); ("lt_proxyserver", "9")])].

Definition rejected_text : string :=
  "[libtorrent]
lt_proxytype = 9
".

Definition rejected_ini : ini := [("libtorrent", [("lt_proxytype", "9")])].

Definition tribler_text : string :=
  "[Tribler]
default_number_hops = 3
".

Definition tribler_ini : ini := [("Tribler", [("default_number_hops", "3")])].

Definition short_tuple_text : string :=
  "[libtorrent]
anon_proxyserver = (1,)
".

Definition short_tuple_ini : ini := [("libtorrent", [("anon_proxyserver", "(1,)")])].

Definition good_state_text : string :=
  "[state]
metainfo = {'info': {'name': 't'}}
engineresumedata = {}
dlstate = 3
".

Definition good_state_ini : ini :=
  [("state", [("metainfo", "{'info': {'name': 't'}}"); ("engineresumedata", "{}");
              ("dlstate", "3")])].

Definition headerless_text : string :=
  "metainfo = {'info': {'name': 't'}}
".

Definition bad_metainfo_text : string :=
  "[state]
metainfo = {'info': broken}
engineresumedata = {}
".

Definition bad_metainfo_ini : ini :=
  [("state", [("metainfo", "{'info': broken}"); ("engineresumedata", "{}")])].

(** None of these files has a [[DEFAULT]] section. *)
Definition raw_parse : string -> result parser :=
  table
    [ (libtribler_text, Ok (Parser [] libtribler_ini));
      (rejected_text, Ok (Parser [] rejected_ini));
      (tribler_text, Ok (Parser [] tribler_ini));
      (short_tuple_text, Ok (Parser [] short_tuple_ini));
      (good_state_text, Ok (Parser [] good_state_ini));
      (bad_metainfo_text, Ok (Parser [] bad_metainfo_ini));
      (headerless_text, Raise MissingSectionHeaderError) ]
    (Raise (OtherError "ParsingError")).

(** Sections and keys, one per line, values as [repr] prints them. *)
Definition render (c : configobj) : string :=
  String.concat ""
    (map (fun sec : string * list (string * pyval) =>
            "[" ++ fst sec ++ "]" ++ newline ++
            String.concat "" (map (fun kv : string * pyval =>
                              fst kv ++ " = " ++ show (snd kv) ++ newline) (snd sec)))
         c)%string.

(** [RawConfigParser.write]: [[DEFAULT]] first when it has options, then
    the sections with the options of their own. *)
Definition render_parser (c : parser) : string :=
  render (map (fun sec : string * list (string * string) =>
                 (fst sec, map (fun kv : string * string => (fst kv, PStr (snd kv))) (snd sec)))
              (match defaults c with
               | [] => sections c
               | options => ("DEFAULT", options) :: sections c
               end)).

(** Structured checkpoints: a torrent of three files with two of them
    selected by path, the same with the selection already as indices, and
    one with no selection. *)
Definition blob_abc : string := "base64:metainfo-of-a-b-c".

Definition conf_paths : configobj :=
  [("download_defaults", [("hops", PInt 0);
                          ("selected_files", PList [PStr "a.txt"; PStr "c.txt"])]);
   ("state", [("metainfo", PStr blob_abc)])].

Definition conf_indices : configobj :=
  [("download_defaults", [("hops", PInt 0);
                          ("selected_files", PList [PInt 0; PInt 2])]);
   ("state", [("metainfo", PStr blob_abc)])].

Definition conf_plain : configobj :=
  [("download_defaults", [("hops", PInt 0)]);
   ("state", [("metainfo", PStr blob_abc)])].

Definition download_load : string -> result configobj :=
  table
    [ (render conf_paths, Ok conf_paths);
      (render conf_indices, Ok conf_indices);
      (render conf_plain, Ok conf_plain) ]
    (Raise (OtherError "ParseError")).

Definition get_metainfo (c : configobj) : pyval :=
  match lookup "state" c with
  | Some items =>
      match lookup "metainfo" items with
      | Some (PStr blob) => if blob =? blob_abc then metainfo_abc else PNone
      | _ => PNone
      end
  | None => PNone
  end.

Fixpoint dict_get (key : string) (entries : list (pyval * pyval)) : option pyval :=
  match entries with
  | [] => None
  | (PStr k, v) :: rest => if k =? key then Some v else dict_get key rest
  | _ :: rest => dict_get key rest
  end.

Fixpoint strings_of (vs : list pyval) : list string :=
  match vs with
  | [] => []
  | PStr s :: rest => s :: strings_of rest
  | _ :: rest => strings_of rest
  end.

Definition file_table (metainfo : pyval) : result (list string) :=
  match metainfo with
  | PDict top =>
      match dict_get "info" top with
      | Some (PDict info) =>
          match dict_get "files" info with
          | Some (PList names) => Ok (strings_of names)
          | _ => Raise ValueError
          end
      | _ => Raise ValueError
      end
  | _ => Raise ValueError
  end.

Definition configobj_read (existing : option string) : result configobj :=
  match existing with
  | None => Ok []
  | Some text => download_load text
  end.

(** The source modernizer leaves a literal of the examples as it is. *)
Definition refactor_string (source name : string) : result string := Ok source.

(** The environment: the key [set_selected_files] assigns and what the
    index lookup does with an unknown name stay open. *)
Definition env (key : string) (unknown : result pyval) : Env :=
  Build_Env literal_eval py_str setter validate
    raw_parse render_parser
    raw_parse None get_decoded
    refactor_string (fun v => v)
    bencode b64encode
    configobj_read render
    download_load get_metainfo render key
    file_table unknown.

(** [set_selected_files] assigning [selected_file_indexes], the lookup
    raising [ValueError] on an unknown name. *)
Definition default : Env := env "selected_file_indexes" (Raise ValueError).

Definition baseline : settings :=
  [("libtorrent", [("proxy_type", PInt 0); ("proxy_server", PStr "")]);
   ("download_defaults", [("saveas", PStr "/tmp")])].

(** Settings that were never validated: the proxy type is out of range. *)
Definition unchecked : settings :=
  [("libtorrent", [("proxy_type", PInt 7)]); ("download_defaults", [])].

Definition dir (entries : list (path * string)) : world := World entries [].

End Demo.

(** ** Notions used to state the properties *)

(** A legacy file with its ["None"] fields left out. *)
Definition without_none (old_config : ini) : ini :=
  map (fun sec : string * list (string * string) =>
         (fst sec, filter (fun kv : string * string => negb (snd kv =? "None")) (snd sec)))
      old_config.

(** A merge up to a field: the sections before its section, then the fields
    before it in its section. *)
Definition merge_upto (E : Env) (mutations : dispatch) (label : string)
    (new_config : settings) (before : ini) (section : string)
    (earlier : list (string * string)) : M settings :=
  c <- merge E mutations label new_config before ;;
  foldM (merge_field E mutations label section) earlier c.

(** A merge from a field on: the fields after it in its section, then the
    sections after its section. *)
Definition merge_rest (E : Env) (mutations : dispatch) (label : string)
    (section : string) (later : list (string * string)) (after : ini)
    (config : settings) : M settings :=
  c <- foldM (merge_field E mutations label section) later config ;;
  foldM (merge_section E mutations label) after c.

(** A dispatch leaves an observation of the settings alone on the fields of
    one section. *)
Definition leaves {X : Type} (mutations : dispatch) (obs : settings -> X)
    (sec : string * list (string * string)) : Prop :=
  forall name string_value value c c',
    In (name, string_value) (snd sec) ->
    mutations (fst sec) name value c = Ok c' ->
    obs c' = obs c.

(** [section] has [key] in a [ConfigObj]. *)
Definition has_key (section key : string) (c : configobj) : Prop :=
  exists items v, lookup section c = Some items /\ lookup key items = Some v.

Definition is_evaluated (ev : event) : Prop :=
  match ev with Evaluated _ => True | _ => False end.

(** What rejecting a field means for a merge with a given dispatch: the
    turn of the loop returns the baseline it started from, and the run goes
    on from that baseline. *)
Definition keeps_baseline_on_rejection (E : Env) (mutations : dispatch)
    (label : string) : Prop :=
  forall section name string_value config temp_config w w1,
    (string_value =? "None") = false ->
    candidate E mutations section name string_value config w = (Ok temp_config, w1) ->
    validate E temp_config = false ->
    let w2 := World (files w1) (journal w1 ++ [Validated temp_config; Log_debug label]) in
    merge_field E mutations label section config (name, string_value) w = (Ok config, w2)
    /\ forall new_config before earlier later after w0,
         merge_upto E mutations label new_config before section earlier w0
         = (Ok config, w) ->
         merge E mutations label new_config
           (before ++ (section, earlier ++ (name, string_value) :: later) :: after) w0
         = merge_rest E mutations label section later after config w2.

(** The fields of [add_libtribler_config] that go through a typed setter
    with no guard: section, field, method. *)
Definition libtribler_typed : list (string * string * string) :=
  [ ("general", "state_dir", "set_root_state_dir");
    ("general", "log_dir", "set_log_dir");
    ("tunnel_community", "enabled", "set_tunnel_community_enabled");
    ("tunnel_community", "exitnode_enabled", "set_tunnel_community_exitnode_enabled");
    ("general", "ec_keypair_filename_multichain", "set_trustchain_keypair_filename");
    ("torrent_checking", "enabled", "set_torrent_checking_enabled");
    ("libtorrent", "max_connections_download", "set_libtorrent_max_conn_download");
    ("libtorrent", "max_download_rate", "set_libtorrent_max_download_rate");
    ("libtorrent", "max_upload_rate", "set_libtorrent_max_upload_rate");
    ("libtorrent", "utp", "set_libtorrent_utp");
    ("libtorrent", "anon_listen_port", "set_anon_listen_port");
    ("video", "enabled", "set_video_server_enabled");
    ("video", "port", "set_video_server_port");
    ("watch_folder", "enabled", "set_watch_folder_enabled");
    ("watch_folder", "watch_folder_dir", "set_watch_folder_path");
    ("http_api", "enabled", "set_http_api_enabled");
    ("http_api", "port", "set_http_api_port");
    ("credit_mining", "enabled", "set_credit_mining_enabled");
    ("credit_mining", "sources", "set_credit_mining_sources") ].

(** The fields of section [libtorrent] that are assigned directly: field,
    key of the [libtorrent] section of the settings. *)
Definition libtribler_direct : list (string * string) :=
  [ ("lt_proxytype", "proxy_type");
    ("lt_proxyserver", "proxy_server");
    ("lt_proxyauth", "proxy_auth");
    ("anon_proxytype", "anon_proxy_type");
    ("anon_proxyauth", "anon_proxy_auth") ].

(** The journal only grows from [w] to [w']. *)
Definition grows (w w' : world) : Prop :=
  exists later, journal w' = journal w ++ later.

(** A file that is absent in [w] is absent in [w']. *)
Definition stays_absent (p : path) (w w' : world) : Prop :=
  find_file p (files w) = None -> find_file p (files w') = None.

(** The files are the same in [w] and [w']. *)
Definition same_files (w w' : world) : Prop := files w' = files w.

(** Every run of a computation relates the world it starts in to the world
    it ends in, whether it returns or raises. *)
Definition respects {A} (R : world -> world -> Prop) (m : M A) : Prop :=
  forall w, R w (snd (m w)).

(** From [w] to [w'] the journal grows and the file [p], once gone, stays
    gone. *)
Definition after_removal (p : path) (w w' : world) : Prop :=
  grows w w' /\ stays_absent p w w'.

(** From [w] to [w'] the files are the same and the journal has gained
    nothing but calls of [ast.literal_eval]. *)
Definition only_evaluates (w w' : world) : Prop :=
  files w' = files w
  /\ exists evaluations,
       journal w' = journal w ++ evaluations /\ Forall is_evaluated evaluations.

Definition is_checkpoint (p : path) : Prop :=
  match p with Checkpoint _ => True | Root _ => False end.

(** A structured checkpoint that [convert_config_to_tribler75] has nothing to
    do for: it loads, and it has no selection or no metainfo. *)
Definition conf_is_settled (E : Env) (text : string) : bool :=
  match download_load E text with
  | Ok config =>
      match getitem "download_defaults" config with
      | Ok download_defaults =>
          negb (truthy (selected_files_of download_defaults))
          || negb (truthy (get_metainfo E config))
      | Raise _ => false
      end
  | Raise _ => false
  end.

(** A non-empty list of integers. *)
Definition is_index_list (v : pyval) : bool :=
  match v with
  | PList (first :: others) =>
      forallb (fun x => match x with PInt _ => true | _ => false end) (first :: others)
  | _ => false
  end.

(** A structured checkpoint whose [selected_files] holds indices already. *)
Definition conf_holds_indices (E : Env) (text : string) : bool :=
  match download_load E text with
  | Ok config =>
      match getitem "download_defaults" config with
      | Ok download_defaults => is_index_list (selected_files_of download_defaults)
      | Raise _ => false
      end
  | Raise _ => false
  end.

(** A state directory with no legacy settings file and no [.state]
    checkpoint, whose [.conf] checkpoints all pass [settled]. *)
Definition migrated_with (settled : string -> bool) (w : world) : bool :=
  match find_file (Root "libtribler.conf") (files w),
        find_file (Root "tribler.conf") (files w) with
  | None, None =>
      forallb (fun p =>
                 match p with
                 | Checkpoint name =>
                     negb (ends_with ".state" name)
                     && (if ends_with ".conf" name
                         then match find_file p (files w) with
                              | Some text => settled text
                              | None => false
                              end
                         else true)
                 | Root _ => true
                 end)
              (map fst (files w))
  | _, _ => false
  end.

(** Fully migrated, as the code sees it. *)
Definition fully_migrated (E : Env) (w : world) : bool :=
  migrated_with (conf_is_settled E) w.

(** Fully migrated, when a [selected_files] that already holds indices
    counts as migrated too. *)
Definition migrated_or_indexed (E : Env) (w : world) : bool :=
  migrated_with (fun text => conf_is_settled E text || conf_holds_indices E text) w.

(** ** Further notions and examples *)

(** The pairs (section, field) that the chain of [add_libtribler_config]
    tests, in its order. *)
Definition libtribler_fields : list (string * string) :=
  [ ("general", "state_dir"); ("general", "log_dir");
    ("tunnel_community", "enabled"); ("tunnel_community", "socks5_listen_ports");
    ("tunnel_community", "exitnode_enabled");
    ("general", "ec_keypair_filename_multichain");
    ("torrent_checking", "enabled");
    ("libtorrent", "lt_proxytype"); ("libtorrent", "lt_proxyserver");
    ("libtorrent", "lt_proxyauth"); ("libtorrent", "max_connections_download");
    ("libtorrent", "max_download_rate"); ("libtorrent", "max_upload_rate");
    ("libtorrent", "utp"); ("libtorrent", "anon_listen_port");
    ("libtorrent", "anon_proxytype"); ("libtorrent", "anon_proxyserver");
    ("libtorrent", "anon_proxyauth"); ("video", "enabled"); ("video", "port");
    ("watch_folder", "enabled"); ("watch_folder", "watch_folder_dir");
    ("http_api", "enabled"); ("http_api", "port");
    ("credit_mining", "enabled"); ("credit_mining", "sources") ].

(** The fields of section [downloadconfig] that [add_tribler_config] assigns
    to [download_defaults] under the same name. *)
Definition tribler_direct : list string :=
  [ "saveas"; "seeding_mode"; "seeding_ratio"; "seeding_time"; "version" ].

(** The pairs (section, field) that the [if]s of [add_tribler_config] test. *)
Definition tribler_fields : list (string * string) :=
  [ ("Tribler", "default_anonymity_enabled"); ("Tribler", "default_number_hops");
    ("downloadconfig", "saveas"); ("downloadconfig", "seeding_mode");
    ("downloadconfig", "seeding_ratio"); ("downloadconfig", "seeding_time");
    ("downloadconfig", "version") ].

(** What a merge journals: calls of [ast.literal_eval] and of [validate], and
    debug lines. *)
Definition is_merge_event (ev : event) : Prop :=
  match ev with
  | Evaluated _ | Validated _ | Log_debug _ => True
  | Log_error _ _ | Removed _ | Written _ _ => False
  end.

(** From [w] to [w'] the files are the same and the journal has gained
    merge events only. *)
Definition only_merges (w w' : world) : Prop :=
  files w' = files w
  /\ exists events, journal w' = journal w ++ events /\ Forall is_merge_event events.

(** The file [p] is the same, or as absent, in [w'] as in [w]. *)
Definition keeps_file (p : path) (w w' : world) : Prop :=
  find_file p (files w') = find_file p (files w).

(** A file that is there in [w] is there in [w']. *)
Definition stays_present (p : path) (w w' : world) : Prop :=
  (exists text, find_file p (files w) = Some text) ->
  exists text', find_file p (files w') = Some text'.

(** A [.state] checkpoint, a [.conf] checkpoint. *)
Definition is_state_file (p : path) : bool :=
  match p with Checkpoint name => ends_with ".state" name | Root _ => false end.

Definition is_conf_file (p : path) : bool :=
  match p with Checkpoint name => ends_with ".conf" name | Root _ => false end.

(** [c[section][key]], [None] when the section or the key is missing. *)
Definition lookup2 (section key : string) (c : configobj) : option pyval :=
  match lookup section c with
  | Some items => lookup key items
  | None => None
  end.

(** More stand-ins, for the examples of the further properties. *)
Module Samples.
Local Open Scope string_scope.

Definition legacy_state_text : string :=
  "[downloadconfig]
saveas = /tmp
hops = 1
[state]
version = 1
".

Definition legacy_state_ini : ini :=
  [("downloadconfig", [("saveas", "/tmp"); ("hops", "1")]); ("state", [("version", "1")])].

Definition half_renamed_text : string :=
  "[downloadconfig]
saveas = /tmp
[download_defaults]
hops = 1
".

Definition half_renamed_ini : ini :=
  [("downloadconfig", [("saveas", "/tmp")]); ("download_defaults", [("hops", "1")])].

(** A checkpoint of the oldest format with a [[DEFAULT]] section. *)
Definition inherited_text : string :=
  "[DEFAULT]
hops = 1
saveas = /home
[downloadconfig]
saveas = /tmp
[state]
version = 1
".

Definition inherited_parser : parser :=
  Parser [("hops", "1"); ("saveas", "/home")]
         [("downloadconfig", [("saveas", "/tmp")]); ("state", [("version", "1")])].

(** A [.state] checkpoint whose [dlstate] stands in [[DEFAULT]]. *)
Definition default_dlstate_text : string :=
  "[DEFAULT]
dlstate = 3
[state]
metainfo = {'info': {'name': 't'}}
engineresumedata = {}
".

Definition default_dlstate_parser : parser :=
  Parser [("dlstate", "3")]
         [("state", [("metainfo", "{'info': {'name': 't'}}"); ("engineresumedata", "{}")])].

Definition raw_parse (text : string) : result parser :=
  Demo.table
    [ (legacy_state_text, Ok (Parser [] legacy_state_ini));
      (half_renamed_text, Ok (Parser [] half_renamed_ini));
      (inherited_text, Ok inherited_parser);
      (default_dlstate_text, Ok default_dlstate_parser) ]
    (Demo.raw_parse text) text.

(** A checkpoint that selects a file its torrent does not have. *)
Definition conf_stray : configobj :=
  [("download_defaults", [("selected_files", PList [PStr "a.txt"; PStr "z.txt"])]);
   ("state", [("metainfo", PStr Demo.blob_abc)])].

(** [Demo.conf_paths] after its conversion. *)
Definition conf_converted : configobj :=
  [("download_defaults", [("hops", PInt 0);
                          ("selected_file_indexes", PList [PInt 0; PInt 2])]);
   ("state", [("metainfo", PStr Demo.blob_abc)])].

(** A structured checkpoint left by an earlier run, with a key of its own. *)
Definition conf_older : configobj := [("download_defaults", [("hops", PInt 2)])].

Definition download_load (text : string) : result configobj :=
  Demo.table
    [ (Demo.render conf_stray, Ok conf_stray);
      (Demo.render conf_converted, Ok conf_converted);
      (Demo.render conf_older, Ok conf_older) ]
    (Demo.download_load text) text.

Definition configobj_read (existing : option string) : result configobj :=
  match existing with
  | None => Ok []
  | Some text => download_load text
  end.

Definition env : Env :=
  Build_Env Demo.literal_eval Demo.py_str Demo.setter Demo.validate
    raw_parse Demo.render_parser
    raw_parse None Demo.get_decoded
    Demo.refactor_string (fun v => v)
    Demo.bencode Demo.b64encode
    configobj_read Demo.render
    download_load Demo.get_metainfo Demo.render "selected_file_indexes"
    Demo.file_table (Raise ValueError).

End Samples.

(** ** Dictionaries *)

Lemma lookup_assign_same {V} (k : string) (v : V) (d : list (string * V)) :
  lookup k (assign k v d) = Some v.
Proof.
  induction d as [|[k' v'] d IH]; simpl.
  - now rewrite String.eqb_refl.
  - destruct (k' =? k) eqn:Hk; simpl.
    + now rewrite String.eqb_refl.
    + now rewrite Hk.
Qed.

Lemma lookup_assign_other {V} (k k' : string) (v : V) (d : list (string * V)) :
  (k =? k') = false -> lookup k' (assign k v d) = lookup k' d.
Proof.
  intros Hne. induction d as [|[k0 v0] d IH]; simpl.
  - now rewrite Hne.
  - destruct (k0 =? k) eqn:Hk; simpl.
    + apply String.eqb_eq in Hk. subst k0. now rewrite Hne.
    + now rewrite IH.
Qed.

Lemma lookup_discard_same {V} (k : string) (d : list (string * V)) :
  lookup k (discard k d) = None.
Proof.
  induction d as [|[k' v'] d IH]; simpl; [reflexivity|].
  destruct (k' =? k) eqn:Hk; simpl; [assumption|now rewrite Hk].
Qed.

Lemma lookup_in {V} (k : string) (v : V) (d : list (string * V)) :
  In (k, v) d -> exists v', lookup k d = Some v'.
Proof.
  induction d as [|[k' v'] d IH]; simpl; [tauto|].
  intros [Heq | Hin].
  - inversion Heq; subst. rewrite String.eqb_refl. now exists v.
  - destruct (k' =? k); [now exists v'|auto].
Qed.

Lemma lookup_app_last {V} (k k' : string) (v : V) (d : list (string * V)) :
  lookup k (d ++ [(k', v)])
  = match lookup k d with
    | Some x => Some x
    | None => if k' =? k then Some v else None
    end.
Proof.
  induction d as [|[k0 v0] d IH]; simpl; [reflexivity|].
  destruct (k0 =? k); [reflexivity|exact IH].
Qed.

Lemma lookup_discard_other {V} (k k' : string) (d : list (string * V)) :
  (k =? k') = false -> lookup k' (discard k d) = lookup k' d.
Proof.
  intros Hne. induction d as [|[k0 v0] d IH]; simpl; [reflexivity|].
  destruct (k0 =? k) eqn:Hk; simpl.
  - apply String.eqb_eq in Hk. subst k0. now rewrite Hne.
  - now rewrite IH.
Qed.

Lemma assign_fresh {V} (k : string) (v : V) (d : list (string * V)) :
  lookup k d = None -> assign k v d = d ++ [(k, v)].
Proof.
  induction d as [|[k0 v0] d IH]; simpl; [reflexivity|].
  destruct (k0 =? k); [discriminate|]. intros H. now rewrite IH.
Qed.

Lemma assign_same_value {V} (k : string) (v : V) (d : list (string * V)) :
  lookup k d = Some v -> assign k v d = d.
Proof.
  induction d as [|[k0 v0] d IH]; simpl; [discriminate|].
  destruct (k0 =? k) eqn:Hk.
  - apply String.eqb_eq in Hk. subst k0. intros H. now inversion H.
  - intros H. now rewrite IH.
Qed.

Lemma assign_assign {V} (k : string) (v v' : V) (d : list (string * V)) :
  assign k v (assign k v' d) = assign k v d.
Proof.
  induction d as [|[k0 v0] d IH]; simpl.
  - now rewrite String.eqb_refl.
  - destruct (k0 =? k) eqn:Hk; simpl.
    + now rewrite String.eqb_refl.
    + now rewrite Hk, IH.
Qed.

Lemma fold_assign_fresh {V} (items acc : list (string * V)) :
  NoDup (map fst items) ->
  (forall k, In k (map fst items) -> lookup k acc = None) ->
  fold_left (fun a (item : string * V) => assign (fst item) (snd item) a) items acc
  = acc ++ items.
Proof.
  revert acc. induction items as [|[k v] items IH]; intros acc Hnd Hfresh; simpl.
  - now rewrite app_nil_r.
  - inversion Hnd as [|? ? Hnotin Hnd']; subst.
    rewrite assign_fresh by (apply Hfresh; now left).
    rewrite IH; [now rewrite <- app_assoc|exact Hnd'|].
    intros k' Hin. rewrite lookup_app_last, (Hfresh k') by now right.
    destruct (k =? k') eqn:Hk; [|reflexivity].
    apply String.eqb_eq in Hk. subst k'. contradiction.
Qed.

Lemma lookup_some_in_keys {V} (k : string) (v : V) (d : list (string * V)) :
  lookup k d = Some v -> In k (map fst d).
Proof.
  induction d as [|[k0 v0] d IH]; simpl; [discriminate|].
  destruct (k0 =? k) eqn:Hk.
  - apply String.eqb_eq in Hk. now left.
  - intros H. right. now apply IH.
Qed.

Lemma in_keys_lookup {V} (k : string) (d : list (string * V)) :
  In k (map fst d) -> exists v, lookup k d = Some v.
Proof.
  intros H. apply in_map_iff in H. destruct H as ([k0 v] & Hk & Hin).
  simpl in Hk. subst k0. eapply lookup_in. exact Hin.
Qed.

Lemma in_keys_assign {V} (k : string) (v : V) (d : list (string * V)) (x : string) :
  In x (map fst (assign k v d)) <-> x = k \/ In x (map fst d).
Proof.
  induction d as [|[k0 v0] d IH]; simpl.
  - intuition.
  - destruct (k0 =? k) eqn:Hk; simpl.
    + apply String.eqb_eq in Hk. subst k0. intuition.
    + rewrite IH. intuition.
Qed.

Lemma nodup_assign {V} (k : string) (v : V) (d : list (string * V)) :
  NoDup (map fst d) -> NoDup (map fst (assign k v d)).
Proof.
  induction d as [|[k0 v0] d IH]; simpl; intros Hnd.
  - constructor; [intros []|constructor].
  - inversion Hnd as [|? ? Hnotin Hnd']; subst.
    destruct (k0 =? k) eqn:Hk; simpl.
    + apply String.eqb_eq in Hk. subst k0. now constructor.
    + constructor; [|now apply IH].
      rewrite in_keys_assign. intros [-> | Hin]; [|contradiction].
      now rewrite String.eqb_refl in Hk.
Qed.

Lemma in_keys_discard {V} (k : string) (d : list (string * V)) (x : string) :
  In x (map fst (discard k d)) <-> x <> k /\ In x (map fst d).
Proof.
  induction d as [|[k0 v0] d IH]; simpl.
  - intuition.
  - destruct (k0 =? k) eqn:Hk; simpl.
    + apply String.eqb_eq in Hk. subst k0. rewrite IH. intuition congruence.
    + apply String.eqb_neq in Hk. rewrite IH. intuition congruence.
Qed.

(** [d.update(other)]: the keys of both, without repetition when [d] has
    none, and the value of [d] for a key that [other] does not have. *)
Lemma in_keys_update {V} (d other : list (string * V)) (x : string) :
  In x (map fst (update d other)) <-> In x (map fst d) \/ In x (map fst other).
Proof.
  unfold update. revert d. induction other as [|[k v] other IH]; intros d; simpl.
  - tauto.
  - rewrite IH, in_keys_assign. intuition.
Qed.

Lemma nodup_update {V} (d other : list (string * V)) :
  NoDup (map fst d) -> NoDup (map fst (update d other)).
Proof.
  unfold update. revert d. induction other as [|[k v] other IH]; intros d Hnd; simpl.
  - exact Hnd.
  - apply IH. now apply nodup_assign.
Qed.

Lemma lookup_update_absent {V} (k : string) (d other : list (string * V)) :
  ~ In k (map fst other) -> lookup k (update d other) = lookup k d.
Proof.
  unfold update. revert d. induction other as [|[k0 v0] other IH]; intros d Hk; simpl.
  - reflexivity.
  - rewrite IH by (intros Hin; apply Hk; now right).
    apply lookup_assign_other. apply String.eqb_neq. intros ->. apply Hk. now left.
Qed.

Lemma update_nil_distinct {V} (items : list (string * V)) :
  NoDup (map fst items) -> update [] items = items.
Proof.
  intros Hnd. unfold update. rewrite fold_assign_fresh; [reflexivity|exact Hnd|].
  intros; reflexivity.
Qed.

(** ** [ConfigObj] records *)

Lemma put2_lookup2_same section key v c : lookup2 section key (put2 section key v c) = Some v.
Proof. unfold lookup2, put2. now rewrite !lookup_assign_same. Qed.

Lemma put2_lookup2_other section key section' key' v c :
  (section' =? section) && (key' =? key) = false ->
  lookup2 section key (put2 section' key' v c) = lookup2 section key c.
Proof.
  intros Hne. unfold lookup2, put2.
  destruct (section' =? section) eqn:Hs.
  - apply String.eqb_eq in Hs. subst section'. rewrite lookup_assign_same.
    simpl in Hne. rewrite lookup_assign_other by exact Hne.
    destruct (lookup section c); reflexivity.
  - now rewrite lookup_assign_other.
Qed.

Lemma has_key_lookup2 section key c :
  has_key section key c <-> exists v, lookup2 section key c = Some v.
Proof.
  unfold has_key, lookup2. split.
  - intros (items & v & Hs & Hk). exists v. now rewrite Hs.
  - intros (v & H). destruct (lookup section c) as [items|]; [|discriminate].
    now exists items, v.
Qed.

Lemma copy_section_other E section key sec c :
  (fst sec =? section) = false \/ ~ In key (map fst (snd sec)) ->
  lookup2 section key (copy_section E c sec) = lookup2 section key c.
Proof.
  unfold copy_section. destruct sec as [name items]. cbn [fst snd]. revert c.
  induction items as [|[k text] items IH]; intros c Hne; simpl; [reflexivity|].
  rewrite IH.
  - apply put2_lookup2_other. destruct Hne as [Hne | Hne].
    + now rewrite Hne.
    + destruct (k =? key) eqn:Hk; [|apply andb_false_r].
      apply String.eqb_eq in Hk. subst k. exfalso. apply Hne. now left.
  - destruct Hne as [Hne | Hne]; [now left|]. right. intros Hin. apply Hne. now right.
Qed.

Lemma put2_has_key_inv section key section' key' v c :
  has_key section key (put2 section' key' v c) ->
  has_key section key c \/ (section = section' /\ key = key').
Proof.
  intros H. apply has_key_lookup2 in H. destruct H as [x Hx].
  destruct ((section' =? section) && (key' =? key)) eqn:Hsame.
  - right. apply andb_true_iff in Hsame. destruct Hsame as [H1 H2].
    apply String.eqb_eq in H1, H2. now subst.
  - left. rewrite put2_lookup2_other in Hx by exact Hsame.
    apply has_key_lookup2. now exists x.
Qed.

Lemma copy_section_has_inv E section key sec c :
  has_key section key (copy_section E c sec) ->
  has_key section key c \/ (section = fst sec /\ In key (map fst (snd sec))).
Proof.
  unfold copy_section. destruct sec as [name items]. cbn [fst snd]. revert c.
  induction items as [|[k text] items IH]; intros c H; simpl in *; [now left|].
  destruct (IH _ H) as [Hc | [Hs Hk]].
  - destruct (put2_has_key_inv _ _ _ _ _ _ Hc) as [Hc' | [Hs Hk]]; [now left|].
    right. split; [exact Hs|]. now left.
  - right. split; [exact Hs|]. now right.
Qed.

(** ** Parsers *)

Lemma lookup_map_keys {V} (f : string -> V) (keys : list string) (k : string) :
  lookup k (map (fun s => (s, f s)) keys)
  = match lookup k (map (fun s => (s, tt)) keys) with
    | Some _ => Some (f k)
    | None => None
    end.
Proof.
  induction keys as [|k0 keys IH]; simpl; [reflexivity|].
  destruct (k0 =? k) eqn:Hk; [|exact IH].
  apply String.eqb_eq in Hk. now subst k0.
Qed.

Lemma lookup_keys_of {V} (d : list (string * V)) (k : string) :
  lookup k (map (fun s => (s, tt)) (map fst d))
  = match lookup k d with Some _ => Some tt | None => None end.
Proof.
  induction d as [|[k0 v0] d IH]; simpl; [reflexivity|].
  destruct (k0 =? k); [reflexivity|exact IH].
Qed.

(** The listing has what [items] returns, section by section. *)
Lemma lookup_listing (section : string) (cfg : parser) :
  lookup section (rc_listing cfg)
  = match rc_items section cfg with
    | Ok items => Some items
    | Raise _ => None
    end.
Proof.
  unfold rc_listing, rc_items, rc_sections.
  rewrite (lookup_map_keys
             (fun s => update (defaults cfg)
                         (match lookup s (sections cfg) with
                          | Some own => own
                          | None => []
                          end))).
  rewrite lookup_keys_of.
  destruct (lookup section (sections cfg)); reflexivity.
Qed.

Lemma in_listing (section : string) (items : list (string * string)) (cfg : parser) :
  In (section, items) (rc_listing cfg) <-> rc_items section cfg = Ok items.
Proof.
  unfold rc_listing, rc_items. rewrite in_map_iff. split.
  - intros (s & Heq & Hin). inversion Heq; subst.
    destruct (in_keys_lookup _ _ Hin) as [own Hown]. now rewrite Hown.
  - intros H. destruct (lookup section (sections cfg)) as [own|] eqn:Hown; [|discriminate].
    inversion H; subst. exists section. split; [now rewrite Hown|].
    eapply lookup_some_in_keys. exact Hown.
Qed.

(** A file parses for the merges when it parses. *)
Lemma raw_read_ok E text old :
  raw_read E text = Ok old <-> exists cfg, raw_parse E text = Ok cfg /\ old = rc_listing cfg.
Proof.
  unfold raw_read. destruct (raw_parse E text) as [cfg|e].
  - split.
    + intros H. inversion H. now exists cfg.
    + intros (cfg' & H & ->). now inversion H.
  - split; [discriminate|]. intros (cfg' & H & _). discriminate.
Qed.

Lemma raw_read_raise E text e :
  raw_read E text = Raise e <-> raw_parse E text = Raise e.
Proof.
  unfold raw_read. destruct (raw_parse E text) as [cfg|e'].
  - split; discriminate.
  - split; intros H; now inversion H.
Qed.

(** ** The monad *)

Lemma bind_ok {A B} (m : M A) (k : A -> M B) w a w' :
  m w = (Ok a, w') -> bind m k w = k a w'.
Proof. intros H. unfold bind. now rewrite H. Qed.

Lemma bind_raise {A B} (m : M A) (k : A -> M B) w e w' :
  m w = (Raise e, w') -> bind m k w = (Raise e, w').
Proof. intros H. unfold bind. now rewrite H. Qed.

Lemma bind_inv {A B} (m : M A) (k : A -> M B) w b w2 :
  bind m k w = (Ok b, w2) ->
  exists a w1, m w = (Ok a, w1) /\ k a w1 = (Ok b, w2).
Proof.
  unfold bind. destruct (m w) as [[a|e] w1]; intros H; [|discriminate].
  now exists a, w1.
Qed.

Lemma foldM_app {A S} (body : S -> A -> M S) (xs ys : list A) (s : S) w :
  foldM body (xs ++ ys) s w = bind (foldM body xs s) (foldM body ys) w.
Proof.
  revert s w. induction xs as [|x xs IH]; intros s w; simpl.
  - reflexivity.
  - unfold bind. destruct (body s x w) as [[s'|e] w1]; [|reflexivity].
    rewrite IH. reflexivity.
Qed.

Lemma foldM_cons {A S} (body : S -> A -> M S) (x : A) (rest : list A) (s : S) w :
  foldM body (x :: rest) s w = bind (body s x) (foldM body rest) w.
Proof. reflexivity. Qed.

Lemma for_each_raise {A} (body : A -> M unit) (x : A) (rest : list A) w e w' :
  body x w = (Raise e, w') -> for_each body (x :: rest) w = (Raise e, w').
Proof. intros H. simpl. now apply bind_raise. Qed.

Lemma for_each_idle {A} (body : A -> M unit) (xs : list A) w :
  (forall x, In x xs -> body x w = (Ok tt, w)) -> for_each body xs w = (Ok tt, w).
Proof.
  induction xs as [|x xs IH]; intros H; simpl; [reflexivity|].
  rewrite (bind_ok _ _ w tt w) by (apply H; now left).
  apply IH. intros y Hy. apply H. now right.
Qed.

(** ** The merges *)

Section MergeFacts.
Variable E : Env.
Variable mutations : dispatch.
Variable label : string.

Lemma merge_field_none section name config w :
  merge_field E mutations label section config (name, "None") w = (Ok config, w).
Proof. reflexivity. Qed.

Lemma adopt_valid temp_config config w :
  validate E temp_config = true ->
  adopt E label temp_config config w
  = (Ok temp_config, World (files w) (journal w ++ [Validated temp_config])).
Proof. intros Hv. unfold adopt, try_except, bind, emit, ret. now rewrite Hv. Qed.

Lemma adopt_invalid temp_config config w :
  validate E temp_config = false ->
  adopt E label temp_config config w
  = (Ok config,
     World (files w) ((journal w ++ [Validated temp_config]) ++ [Log_debug label])).
Proof. intros Hv. unfold adopt, try_except, bind, emit, ret, raise. now rewrite Hv. Qed.

Lemma merge_field_step section name string_value config w :
  (string_value =? "None") = false ->
  merge_field E mutations label section config (name, string_value) w
  = bind (candidate E mutations section name string_value config)
         (fun temp_config => adopt E label temp_config config) w.
Proof. intros Hn. unfold merge_field. now rewrite Hn. Qed.

(** What a turn of the loop can return: the baseline, or the dispatch's
    output on it. *)
Lemma merge_field_inv section config item w c' w' :
  merge_field E mutations label section config item w = (Ok c', w') ->
  c' = config \/ exists value, mutations section (fst item) value config = Ok c'.
Proof.
  destruct item as [name string_value]. unfold merge_field.
  destruct (string_value =? "None").
  - unfold ret. intros H. inversion H. now left.
  - intros H. apply bind_inv in H. destruct H as (temp & w1 & Hc & Ha).
    unfold candidate in Hc. apply bind_inv in Hc.
    destruct Hc as (value & w0 & _ & Hm). unfold lift in Hm.
    inversion Hm; subst; clear Hm.
    destruct (validate E temp) eqn:Hv.
    + rewrite adopt_valid in Ha by assumption. inversion Ha; subst.
      right. exists value. unfold copy in *. simpl. assumption.
    + rewrite adopt_invalid in Ha by assumption. inversion Ha. now left.
Qed.

Lemma merge_section_skips_none section items config w :
  foldM (merge_field E mutations label section) items config w
  = foldM (merge_field E mutations label section)
          (filter (fun kv : string * string => negb (snd kv =? "None")) items) config w.
Proof.
  revert config w. induction items as [|[name string_value] items IH]; intros config w.
  - reflexivity.
  - cbn [filter snd]. destruct (string_value =? "None") eqn:Hn; cbn [negb].
    + apply String.eqb_eq in Hn. subst string_value.
      rewrite foldM_cons.
      rewrite (bind_ok _ _ w config w) by apply (merge_field_none section name).
      apply IH.
    + rewrite !foldM_cons. unfold bind.
      destruct (merge_field E mutations label section config (name, string_value) w)
        as [[c|e] w1]; [apply IH|reflexivity].
Qed.

Lemma merge_skips_none new_config old_config w :
  merge E mutations label new_config old_config w
  = merge E mutations label new_config (without_none old_config) w.
Proof.
  unfold merge. generalize (copy new_config). revert w.
  induction old_config as [|[section items] rest IH]; intros w config.
  - reflexivity.
  - cbn [without_none map fst snd]. rewrite !foldM_cons. unfold bind.
    unfold merge_section at 1 3. cbn [fst snd].
    rewrite merge_section_skips_none.
    destruct (foldM _ _ config w) as [[c|e] w1]; [apply IH|reflexivity].
Qed.

Lemma merge_split new_config before section earlier item later after w :
  merge E mutations label new_config
    (before ++ (section, earlier ++ item :: later) :: after) w
  = bind (merge_upto E mutations label new_config before section earlier)
      (fun c => bind (merge_field E mutations label section c item)
                  (merge_rest E mutations label section later after)) w.
Proof.
  unfold merge at 1. rewrite foldM_app. unfold merge_upto, merge, bind.
  destruct (foldM (merge_section E mutations label) before (copy new_config) w)
    as [[c0|e] w0]; [|reflexivity].
  rewrite foldM_cons. unfold bind, merge_section at 1. cbn [fst snd].
  rewrite foldM_app. unfold bind.
  destruct (foldM (merge_field E mutations label section) earlier c0 w0)
    as [[c1|e] w1]; [|reflexivity].
  rewrite foldM_cons. unfold bind.
  destruct (merge_field E mutations label section c1 item w1) as [[c2|e] w2];
    [|reflexivity].
  unfold merge_rest, bind. reflexivity.
Qed.

Lemma fields_keep {X} (obs : settings -> X) section items config w final w' :
  leaves mutations obs (section, items) ->
  foldM (merge_field E mutations label section) items config w = (Ok final, w') ->
  obs final = obs config.
Proof.
  revert config w. induction items as [|item items IH]; intros config w Hl H.
  - simpl in H. unfold ret in H. now inversion H.
  - simpl in H. apply bind_inv in H. destruct H as (c1 & w1 & Hstep & Hrest).
    assert (Hl' : leaves mutations obs (section, items)).
    { intros n sv v c c' Hin. apply (Hl n sv v c c'). now right. }
    rewrite (IH c1 w1 Hl' Hrest).
    destruct (merge_field_inv _ _ _ _ _ _ Hstep) as [-> | [value Hm]]; [reflexivity|].
    destruct item as [n sv]. apply (Hl n sv value config c1); [now left|exact Hm].
Qed.

Lemma sections_keep {X} (obs : settings -> X) secs config w final w' :
  Forall (leaves mutations obs) secs ->
  foldM (merge_section E mutations label) secs config w = (Ok final, w') ->
  obs final = obs config.
Proof.
  revert config w. induction secs as [|[section items] secs IH]; intros config w Hl H.
  - simpl in H. unfold ret in H. now inversion H.
  - simpl in H. apply bind_inv in H. destruct H as (c1 & w1 & Hstep & Hrest).
    inversion Hl as [|? ? Hhead Htail]; subst.
    rewrite (IH c1 w1 Htail Hrest).
    unfold merge_section in Hstep. simpl in Hstep.
    eapply fields_keep; eassumption.
Qed.

Lemma rest_keeps {X} (obs : settings -> X) section later after config w final w' :
  leaves mutations obs (section, later) ->
  Forall (leaves mutations obs) after ->
  merge_rest E mutations label section later after config w = (Ok final, w') ->
  obs final = obs config.
Proof.
  intros Hl Ha H. unfold merge_rest in H. apply bind_inv in H.
  destruct H as (c1 & w1 & H1 & H2).
  rewrite (sections_keep obs _ _ _ _ _ Ha H2).
  eapply fields_keep; eassumption.
Qed.

End MergeFacts.

(** A direct assignment shows in the settings. *)
Lemma setitem2_reflects sec key v c c' :
  setitem2 sec key v c = Ok c' ->
  exists items, lookup sec c' = Some items /\ lookup key items = Some v.
Proof.
  unfold setitem2. destruct (lookup sec c) as [items|]; [|discriminate].
  intros H. inversion H; subst. exists (assign key v items). split.
  - apply lookup_assign_same.
  - apply lookup_assign_same.
Qed.

Lemma libtribler_typed_sound E section name method value c :
  In (section, name, method) libtribler_typed ->
  libtribler_mutations E section name value c = Ok (setter E method value c).
Proof.
  unfold libtribler_typed. intros Hin.
  repeat (destruct Hin as [Heq | Hin]; [inversion Heq; subst; reflexivity|]).
  destruct Hin.
Qed.

Lemma libtribler_direct_sound E name key value c :
  In (name, key) libtribler_direct ->
  libtribler_mutations E "libtorrent" name value c = setitem2 "libtorrent" key value c.
Proof.
  unfold libtribler_direct. intros Hin.
  repeat (destruct Hin as [Heq | Hin]; [inversion Heq; subst; reflexivity|]).
  destruct Hin.
Qed.

(** The guard of [socks5_listen_ports]: a list is handed to the setter, any
    other value changes nothing. *)
Lemma socks5_guard E value c :
  libtribler_mutations E "tunnel_community" "socks5_listen_ports" value c
  = Ok (if is_list value
        then setter E "set_tunnel_community_socks5_listen_ports" value c
        else c).
Proof. destruct value; reflexivity. Qed.

(** The guard of [anon_proxyserver] on a value that is not a tuple. *)
Lemma anon_guard_not_tuple E value c :
  is_tuple value = false ->
  libtribler_mutations E "libtorrent" "anon_proxyserver" value c = Ok c.
Proof. destruct value; intros H; try discriminate; reflexivity. Qed.

(** The guard on a tuple with a second element that is not a list. *)
Lemma anon_guard_not_list E first second others c :
  is_list second = false ->
  libtribler_mutations E "libtorrent" "anon_proxyserver"
    (PTuple (first :: second :: others)) c = Ok c.
Proof. destruct second; intros H; try discriminate; reflexivity. Qed.

(** The guard on a tuple with a list second: both settings are assigned. *)
Lemma anon_guard_applies E first ports others c items :
  lookup "libtorrent" c = Some items ->
  exists c' items',
    libtribler_mutations E "libtorrent" "anon_proxyserver"
      (PTuple (first :: PList ports :: others)) c = Ok c'
    /\ lookup "libtorrent" c' = Some items'
    /\ lookup "anon_proxy_server_ip" items' = Some first
    /\ lookup "anon_proxy_server_ports" items'
       = Some (PList (map (fun port => PStr (py_str E port)) ports)).
Proof.
  intros Hl.
  change (libtribler_mutations E "libtorrent" "anon_proxyserver"
            (PTuple (first :: PList ports :: others)) c)
    with (match setitem2 "libtorrent" "anon_proxy_server_ip" first c with
          | Raise e => Raise e
          | Ok t => setitem2 "libtorrent" "anon_proxy_server_ports"
                      (PList (map (fun port => PStr (py_str E port)) ports)) t
          end).
  unfold setitem2. rewrite Hl. rewrite lookup_assign_same.
  eexists. eexists. split; [reflexivity|]. split; [apply lookup_assign_same|].
  split.
  - rewrite lookup_assign_other by reflexivity. apply lookup_assign_same.
  - apply lookup_assign_same.
Qed.

(** C5: a legacy field whose raw value is the string "None" is skipped before
    anything is done with it.  The turn of the loop returns the baseline and
    leaves the world as it was, whatever the dispatch is: no call of
    [ast.literal_eval] or of [validate] is journalled, and the dispatch has no
    say.  Both merges return and journal exactly what they do on the legacy
    file with such fields left out. *)
Theorem none_field_is_skipped :
  forall E : Env,
    (forall (mutations : dispatch) label section name config w,
        merge_field E mutations label section config (name, "None") w = (Ok config, w))
    /\ (forall new_config old_config w,
          add_tribler_config E new_config old_config w
          = add_tribler_config E new_config (without_none old_config) w)
    /\ (forall new_config old_config w,
          add_libtribler_config E new_config old_config w
          = add_libtribler_config E new_config (without_none old_config) w).
Proof.
  intros E. split; [|split].
  - intros. apply merge_field_none.
  - intros. apply merge_skips_none.
  - intros. apply merge_skips_none.
Qed.

Lemma rejection_keeps_baseline E mutations label :
  keeps_baseline_on_rejection E mutations label.
Proof.
  intros section name string_value config temp w w1 Hn Hc Hv w2.
  assert (Hstep : merge_field E mutations label section config (name, string_value) w
                  = (Ok config, w2)).
  { rewrite merge_field_step by assumption.
    rewrite (bind_ok _ _ _ _ _ Hc). rewrite adopt_invalid by assumption.
    unfold w2. now rewrite <- app_assoc. }
  split; [exact Hstep|].
  intros new_config before earlier later after w0 Hup.
  rewrite merge_split. rewrite (bind_ok _ _ _ _ _ Hup).
  now rewrite (bind_ok _ _ _ _ _ Hstep).
Qed.

(** C3: in [add_tribler_config] and in [add_libtribler_config], a field whose
    candidate (the decoded value applied to a copy of the baseline) fails
    [validate] leaves the baseline exactly as it was: the turn of the loop
    returns the baseline it was given, after journalling the call of
    [validate] and the debug line, and the whole merge goes on from that
    same baseline with the fields that follow. *)
Theorem rejected_field_keeps_baseline :
  forall E : Env,
    keeps_baseline_on_rejection E (tribler_mutations E) tribler_label
    /\ keeps_baseline_on_rejection E (libtribler_mutations E) libtribler_label.
Proof. intros E. split; apply rejection_keeps_baseline. Qed.

Lemma rejected_field_keeps_baseline_witness :
  merge_field Demo.default (libtribler_mutations Demo.default) libtribler_label
    "libtorrent" Demo.baseline ("lt_proxytype", "9") (Demo.dir [])
  = (Ok Demo.baseline,
     World [] [Evaluated "9";
               Validated [("libtorrent", [("proxy_type", PInt 9); ("proxy_server", PStr "")]);
                          ("download_defaults", [("saveas", PStr "/tmp")])];
               Log_debug libtribler_label])
  /\ merge_field Demo.default (tribler_mutations Demo.default) tribler_label
       "downloadconfig" Demo.unchecked ("seeding_ratio", "3") (Demo.dir [])
     = (Ok Demo.unchecked,
        World [] [Evaluated "3";
                  Validated [("libtorrent", [("proxy_type", PInt 7)]);
                             ("download_defaults", [("seeding_ratio", PInt 3)])];
                  Log_debug tribler_label]).
Proof.
  split.
  - apply (proj1 (proj2 (rejected_field_keeps_baseline Demo.default)
                    "libtorrent" "lt_proxytype" "9" Demo.baseline
                    [("libtorrent", [("proxy_type", PInt 9); ("proxy_server", PStr "")]);
                     ("download_defaults", [("saveas", PStr "/tmp")])]
                    (Demo.dir []) (World [] [Evaluated "9"])
                    eq_refl eq_refl eq_refl)).
  - apply (proj1 (proj1 (rejected_field_keeps_baseline Demo.default)
                    "downloadconfig" "seeding_ratio" "3" Demo.unchecked
                    [("libtorrent", [("proxy_type", PInt 7)]);
                     ("download_defaults", [("seeding_ratio", PInt 3)])]
                    (Demo.dir []) (World [] [Evaluated "3"])
                    eq_refl eq_refl eq_refl)).
Defined.

(** A direct assignment leaves the other keys of the settings alone. *)
Lemma setitem2_other_key sec key key' v c c' :
  setitem2 sec key v c = Ok c' ->
  (key =? key') = false ->
  match lookup sec c' with Some items => lookup key' items | None => None end
  = match lookup sec c with Some items => lookup key' items | None => None end.
Proof.
  unfold setitem2. destruct (lookup sec c) as [items|] eqn:Hl; [|discriminate].
  intros H Hne. inversion H; subst. rewrite lookup_assign_same.
  now apply lookup_assign_other.
Qed.

(** C4: in [add_libtribler_config], a field that is not "None", whose decoded
    value the dispatch applies to the copy of the baseline without raising,
    and whose candidate passes [validate], is adopted: the turn of the loop
    returns the candidate.  The candidate holds the new value (for a field
    with a typed setter it is the setter's output on the decoded value, for
    a directly assigned field the key of the [libtorrent] section holds the
    decoded value, and the two guarded fields do the same on a value of the
    shape their guard asks for), the merge goes on from the candidate, and
    whatever the
    later fields' own mutations leave alone is, in the settings the merge
    returns, as it was in the candidate: processing later fields, accepted or
    rejected, reverts nothing. *)
Theorem accepted_field_is_kept :
  forall (E : Env) section name string_value value config temp_config w w1,
    (string_value =? "None") = false ->
    decode E string_value w = (Ok value, w1) ->
    libtribler_mutations E section name value (copy config) = Ok temp_config ->
    validate E temp_config = true ->
    let w2 := World (files w1) (journal w1 ++ [Validated temp_config]) in
    merge_field E (libtribler_mutations E) libtribler_label section config
      (name, string_value) w = (Ok temp_config, w2)
    /\ (forall method,
          In (section, name, method) libtribler_typed ->
          temp_config = setter E method value config)
    /\ (forall key,
          section = "libtorrent" ->
          In (name, key) libtribler_direct ->
          exists items,
            lookup "libtorrent" temp_config = Some items /\ lookup key items = Some value)
    /\ (section = "tunnel_community" ->
        name = "socks5_listen_ports" ->
        is_list value = true ->
        temp_config = setter E "set_tunnel_community_socks5_listen_ports" value config)
    /\ (forall first ports others,
          section = "libtorrent" ->
          name = "anon_proxyserver" ->
          value = PTuple (first :: PList ports :: others) ->
          exists items,
            lookup "libtorrent" temp_config = Some items
            /\ lookup "anon_proxy_server_ip" items = Some first
            /\ lookup "anon_proxy_server_ports" items
               = Some (PList (map (fun port => PStr (py_str E port)) ports)))
    /\ (forall new_config before earlier later after w0,
          merge_upto E (libtribler_mutations E) libtribler_label new_config before
            section earlier w0 = (Ok config, w) ->
          add_libtribler_config E new_config
            (before ++ (section, earlier ++ (name, string_value) :: later) :: after) w0
          = merge_rest E (libtribler_mutations E) libtribler_label section later after
              temp_config w2)
    /\ (forall (X : Type) (obs : settings -> X) later after final w3,
          leaves (libtribler_mutations E) obs (section, later) ->
          Forall (leaves (libtribler_mutations E) obs) after ->
          merge_rest E (libtribler_mutations E) libtribler_label section later after
            temp_config w2 = (Ok final, w3) ->
          obs final = obs temp_config).
Proof.
  intros E section name string_value value config temp w w1 Hn Hd Hm Hv w2.
  assert (Hstep : merge_field E (libtribler_mutations E) libtribler_label section config
                    (name, string_value) w = (Ok temp, w2)).
  { assert (Hc : candidate E (libtribler_mutations E) section name string_value config w
                 = (Ok temp, w1)).
    { unfold candidate. rewrite (bind_ok _ _ _ _ _ Hd). unfold lift. now rewrite Hm. }
    rewrite merge_field_step by assumption. rewrite (bind_ok _ _ _ _ _ Hc).
    now rewrite adopt_valid by assumption. }
  split; [exact Hstep|]. split; [|split; [|split; [|split; [|split]]]].
  - intros method Hin.
    rewrite (libtribler_typed_sound E _ _ _ value (copy config) Hin) in Hm.
    now inversion Hm.
  - intros key -> Hin.
    rewrite (libtribler_direct_sound E _ _ value (copy config) Hin) in Hm.
    eapply setitem2_reflects. exact Hm.
  - intros -> -> Hlist. rewrite socks5_guard, Hlist in Hm. now inversion Hm.
  - intros first ports others -> -> ->.
    destruct (lookup "libtorrent" (copy config)) as [items0|] eqn:Hl0.
    + destruct (anon_guard_applies E first ports others (copy config) items0 Hl0)
        as (c' & items' & Hc' & H1 & H2 & H3).
      rewrite Hc' in Hm. inversion Hm; subst c'. now exists items'.
    + exfalso.
      change (libtribler_mutations E "libtorrent" "anon_proxyserver"
                (PTuple (first :: PList ports :: others)) (copy config))
        with (match setitem2 "libtorrent" "anon_proxy_server_ip" first (copy config) with
              | Raise e => Raise e
              | Ok t => setitem2 "libtorrent" "anon_proxy_server_ports"
                          (PList (map (fun port => PStr (py_str E port)) ports)) t
              end) in Hm.
      unfold setitem2 in Hm. rewrite Hl0 in Hm. discriminate.
  - intros new_config before earlier later after w0 Hup.
    unfold add_libtribler_config. rewrite merge_split.
    rewrite (bind_ok _ _ _ _ _ Hup). now rewrite (bind_ok _ _ _ _ _ Hstep).
  - intros X obs later after final w3 Hl Ha Hrest.
    eapply rest_keeps; eassumption.
Qed.

(** In the example the later fields assign other keys than [proxy_type]. *)
Lemma later_fields_leave_proxy_type :
  leaves (libtribler_mutations Demo.default)
    (fun c => match lookup "libtorrent" c with
              | Some items => lookup "proxy_type" items
              | None => None
              end)
    ("libtorrent", [("lt_proxyauth", "None"); ("lt_proxyserver", "9")]).
Proof.
  intros name sv value c c' Hin Hm. cbn [fst snd] in *.
  destruct Hin as [Heq | [Heq | []]]; inversion Heq; subst.
  - rewrite (libtribler_direct_sound Demo.default "lt_proxyauth" "proxy_auth")
      in Hm by (cbn; tauto).
    apply (setitem2_other_key _ _ "proxy_type" _ _ _ Hm). reflexivity.
  - rewrite (libtribler_direct_sound Demo.default "lt_proxyserver" "proxy_server")
      in Hm by (cbn; tauto).
    apply (setitem2_other_key _ _ "proxy_type" _ _ _ Hm). reflexivity.
Qed.

Lemma accepted_field_is_kept_witness :
  merge_field Demo.default (libtribler_mutations Demo.default) libtribler_label
    "libtorrent" Demo.baseline ("lt_proxytype", "3") (Demo.dir [])
  = (Ok [("libtorrent", [("proxy_type", PInt 3); ("proxy_server", PStr "")]);
         ("download_defaults", [("saveas", PStr "/tmp")])],
     World [] [Evaluated "3";
               Validated [("libtorrent", [("proxy_type", PInt 3); ("proxy_server", PStr "")]);
                          ("download_defaults", [("saveas", PStr "/tmp")])]])
  /\ match lookup "libtorrent"
             [("libtorrent", [("proxy_type", PInt 3); ("proxy_server", PInt 9)]);
              ("download_defaults", [("saveas", PStr "/tmp")])] with
     | Some items => lookup "proxy_type" items
     | None => None
     end
     = match lookup "libtorrent"
               [("libtorrent", [("proxy_type", PInt 3); ("proxy_server", PStr "")]);
                ("download_defaults", [("saveas", PStr "/tmp")])] with
       | Some items => lookup "proxy_type" items
       | None => None
       end.
Proof.
  pose proof (accepted_field_is_kept Demo.default "libtorrent" "lt_proxytype" "3"
                (PInt 3) Demo.baseline
                [("libtorrent", [("proxy_type", PInt 3); ("proxy_server", PStr "")]);
                 ("download_defaults", [("saveas", PStr "/tmp")])]
                (Demo.dir []) (World [] [Evaluated "3"])
                eq_refl eq_refl eq_refl eq_refl) as (Hstep & _ & _ & _ & _ & _ & Hkeep).
  split; [exact Hstep|].
  refine (Hkeep _ (fun c => match lookup "libtorrent" c with
                            | Some items => lookup "proxy_type" items
                            | None => None
                            end)
            [("lt_proxyauth", "None"); ("lt_proxyserver", "9")] []
            [("libtorrent", [("proxy_type", PInt 3); ("proxy_server", PInt 9)]);
             ("download_defaults", [("saveas", PStr "/tmp")])]
            _ later_fields_leave_proxy_type (Forall_nil _) _).
  reflexivity.
Defined.

(** C10: the guard of [anon_proxyserver] lets a tuple with fewer than two
    elements through to [value[1]].  On such a value the dispatch raises
    [IndexError], and so does the whole merge: on the legacy file with
    [anon_proxyserver = (1,)] in section [libtorrent], [add_libtribler_config]
    raises right after decoding the field and returns no settings, and
    [convert_config_to_tribler71] raises with it, the legacy file still in
    place. *)
Theorem short_tuple_raises_index_error :
  (forall (E : Env) first temp_config,
      libtribler_mutations E "libtorrent" "anon_proxyserver" (PTuple [first]) temp_config
      = Raise IndexError)
  /\ (forall (E : Env) temp_config,
        libtribler_mutations E "libtorrent" "anon_proxyserver" (PTuple []) temp_config
        = Raise IndexError)
  /\ add_libtribler_config Demo.default Demo.baseline Demo.short_tuple_ini (Demo.dir [])
     = (Raise IndexError, World [] [Evaluated "(1,)"])
  /\ convert_config_to_tribler71 Demo.default Demo.baseline
       (Demo.dir [(Root "libtribler.conf", Demo.short_tuple_text)])
     = (Raise IndexError,
        World [(Root "libtribler.conf", Demo.short_tuple_text)] [Evaluated "(1,)"]).
Proof. repeat split. Qed.

(** ** Relating the world before and after a run *)

Section Respects.
Variable R : world -> world -> Prop.
Hypothesis R_refl : forall w, R w w.
Hypothesis R_trans : forall w1 w2 w3, R w1 w2 -> R w2 w3 -> R w1 w3.

Lemma respects_ret {A} (a : A) : respects R (ret a).
Proof. intros w. apply R_refl. Qed.

Lemma respects_raise {A} (e : exn) : respects R (@raise A e).
Proof. intros w. apply R_refl. Qed.

Lemma respects_lift {A} (r : result A) : respects R (lift r).
Proof. intros w. apply R_refl. Qed.

Lemma respects_bind {A B} (m : M A) (k : A -> M B) :
  respects R m -> (forall a, respects R (k a)) -> respects R (bind m k).
Proof.
  intros Hm Hk w. unfold bind. specialize (Hm w).
  destruct (m w) as [[a|e] w1]; simpl in *.
  - eapply R_trans; [exact Hm|apply Hk].
  - exact Hm.
Qed.

Lemma respects_try_except {A} (m : M A) (handler : exn -> option (M A)) :
  respects R m ->
  (forall e h, handler e = Some h -> respects R h) ->
  respects R (try_except m handler).
Proof.
  intros Hm Hh w. unfold try_except. specialize (Hm w).
  destruct (m w) as [[a|e] w1]; simpl in *; [exact Hm|].
  destruct (handler e) as [h|] eqn:He; simpl; [|exact Hm].
  eapply R_trans; [exact Hm|apply (Hh e h He)].
Qed.

Lemma respects_foldM {A S} (body : S -> A -> M S) (xs : list A) :
  (forall s x, In x xs -> respects R (body s x)) ->
  forall s, respects R (foldM body xs s).
Proof.
  induction xs as [|x xs IH]; intros Hb s.
  - apply respects_ret.
  - simpl. apply respects_bind.
    + apply Hb. now left.
    + intros s'. apply IH. intros s0 y Hy. apply Hb. now right.
Qed.

Lemma respects_for_each {A} (body : A -> M unit) (xs : list A) :
  (forall x, In x xs -> respects R (body x)) ->
  respects R (for_each body xs).
Proof.
  induction xs as [|x xs IH]; intros Hb.
  - apply respects_ret.
  - simpl. apply respects_bind.
    + apply Hb. now left.
    + intros _. apply IH. intros y Hy. apply Hb. now right.
Qed.

Hypothesis R_journal : forall fs j ev, R (World fs j) (World fs (j ++ [ev])).

Lemma respects_emit ev : respects R (emit ev).
Proof. intros [fs j]. apply R_journal. Qed.

Lemma respects_decode E text : respects R (decode E text).
Proof.
  unfold decode. apply respects_try_except.
  - apply respects_bind; [apply respects_emit|intros; apply respects_lift].
  - intros e h He. destruct e; inversion He; apply respects_ret.
Qed.

Lemma respects_eval_literal E text : respects R (eval_literal E text).
Proof.
  unfold eval_literal. apply respects_bind; [apply respects_emit|].
  intros; apply respects_lift.
Qed.

Lemma respects_merge_field E mutations label section config item :
  respects R (merge_field E mutations label section config item).
Proof.
  destruct item as [name string_value]. unfold merge_field.
  destruct (string_value =? "None"); [apply respects_ret|].
  apply respects_bind.
  - unfold candidate. apply respects_bind; [apply respects_decode|].
    intros; apply respects_lift.
  - intros temp. unfold adopt. apply respects_try_except.
    + apply respects_bind; [apply respects_emit|]. intros _.
      destruct (validate E temp); [apply respects_ret|apply respects_raise].
    + intros e h He. destruct e; inversion He.
      apply respects_bind; [apply respects_emit|intros; apply respects_ret].
Qed.

Lemma respects_merge E mutations label new_config old_config :
  respects R (merge E mutations label new_config old_config).
Proof.
  unfold merge. apply respects_foldM. intros c sec _.
  unfold merge_section. apply respects_foldM. intros c' item _.
  apply respects_merge_field.
Qed.

End Respects.

Lemma grows_refl w : grows w w.
Proof. exists []. now rewrite app_nil_r. Qed.

Lemma grows_trans w1 w2 w3 : grows w1 w2 -> grows w2 w3 -> grows w1 w3.
Proof.
  intros [l1 H1] [l2 H2]. exists (l1 ++ l2). rewrite H2, H1. now rewrite app_assoc.
Qed.

Lemma same_files_refl w : same_files w w.
Proof. reflexivity. Qed.

Lemma same_files_trans w1 w2 w3 : same_files w1 w2 -> same_files w2 w3 -> same_files w1 w3.
Proof. unfold same_files. intros H1 H2. now rewrite H2. Qed.

Lemma merge_same_files E mutations label new_config old_config w :
  files (snd (merge E mutations label new_config old_config w)) = files w.
Proof.
  apply (respects_merge same_files same_files_refl same_files_trans).
  intros fs j ev. reflexivity.
Qed.

(** ** Files *)

Lemma path_eqb_refl p : path_eqb p p = true.
Proof. destruct p; simpl; apply String.eqb_refl. Qed.

Lemma path_eqb_eq p q : path_eqb p q = true -> p = q.
Proof.
  destruct p, q; simpl; intros H; try discriminate;
    apply String.eqb_eq in H; now subst.
Qed.

Lemma find_delete_same p fs : find_file p (delete_file p fs) = None.
Proof.
  induction fs as [|[q text] fs IH]; simpl; [reflexivity|].
  destruct (path_eqb q p) eqn:Hq; simpl; [assumption|now rewrite Hq].
Qed.

Lemma find_delete_absent p q fs :
  find_file p fs = None -> find_file p (delete_file q fs) = None.
Proof.
  induction fs as [|[r text] fs IH]; simpl; [reflexivity|].
  destruct (path_eqb r p) eqn:Hr; [discriminate|]. intros H.
  destruct (path_eqb r q); simpl; [auto|]. rewrite Hr. auto.
Qed.

Lemma find_store_same p text fs : find_file p (store_file p text fs) = Some text.
Proof.
  induction fs as [|[q old] fs IH]; simpl.
  - now rewrite path_eqb_refl.
  - destruct (path_eqb q p) eqn:Hq; simpl.
    + now rewrite path_eqb_refl.
    + now rewrite Hq.
Qed.

Lemma find_store_other p q text fs :
  path_eqb q p = false -> find_file p (store_file q text fs) = find_file p fs.
Proof.
  intros Hne. induction fs as [|[r old] fs IH]; simpl.
  - now rewrite Hne.
  - destruct (path_eqb r q) eqn:Hr; simpl.
    + apply path_eqb_eq in Hr. subst r. now rewrite Hne.
    + now rewrite IH.
Qed.

Lemma glob_lists_checkpoints ext w :
  exists l, glob ext w = (Ok l, w) /\ Forall is_checkpoint l.
Proof.
  unfold glob. eexists. split; [reflexivity|].
  apply Forall_forall. intros p Hp. apply filter_In in Hp.
  destruct Hp as [_ Hp]. destruct p; [discriminate|exact I].
Qed.

(** ** [convert_config_to_tribler71] *)

Section AfterRemoval.
Variable p : path.

Lemma after_removal_refl w : after_removal p w w.
Proof. split; [apply grows_refl|intros H; exact H]. Qed.

Lemma after_removal_trans w1 w2 w3 :
  after_removal p w1 w2 -> after_removal p w2 w3 -> after_removal p w1 w3.
Proof.
  intros [G1 A1] [G2 A2]. split; [eapply grows_trans; eassumption|].
  intros H. apply A2, A1, H.
Qed.

Lemma after_removal_journal fs j ev : after_removal p (World fs j) (World fs (j ++ [ev])).
Proof. split; [now exists [ev]|intros H; exact H]. Qed.

Lemma respects_os_remove q : respects (after_removal p) (os_remove q).
Proof.
  intros w. unfold os_remove. destruct (find_file q (files w)); simpl.
  - split; [now exists [Removed q]|]. intros H. simpl. now apply find_delete_absent.
  - apply after_removal_refl.
Qed.

Lemma respects_write_file q text :
  path_eqb q p = false -> respects (after_removal p) (write_file q text).
Proof.
  intros Hne w. unfold write_file. simpl. split; [now exists [Written q text]|].
  intros H. simpl. now rewrite find_store_other.
Qed.

Lemma respects_read_file q : respects (after_removal p) (read_file q).
Proof.
  intros w. unfold read_file. destruct (find_file q (files w)); apply after_removal_refl.
Qed.

Lemma respects_glob {A} ext (k : list path -> M A) :
  (forall l, Forall is_checkpoint l -> respects (after_removal p) (k l)) ->
  respects (after_removal p) (bind (glob ext) k).
Proof.
  intros Hk w. destruct (glob_lists_checkpoints ext w) as (l & Hg & Hl).
  rewrite (bind_ok _ _ _ _ _ Hg). apply Hk, Hl.
Qed.

Ltac ar_bind := apply (respects_bind _ after_removal_trans).
Ltac ar_ret := apply (respects_ret _ after_removal_refl).
Ltac ar_lift := apply (respects_lift _ after_removal_refl).
Ltac ar_try := apply (respects_try_except _ after_removal_trans).
Ltac ar_emit := apply (respects_emit _ after_removal_journal).

Lemma respects_absorb_legacy E loc mutations label current_config :
  respects (after_removal p)
    (absorb_legacy E loc (merge E mutations label) current_config).
Proof.
  unfold absorb_legacy. ar_bind.
  - intros w. apply after_removal_refl.
  - intros [|]; [|ar_ret].
    ar_bind; [apply respects_read_file|]. intros text.
    ar_bind; [ar_lift|]. intros cfg.
    ar_bind.
    + apply respects_merge.
      * apply after_removal_refl.
      * apply after_removal_trans.
      * apply after_removal_journal.
    + intros merged. ar_bind; [apply respects_os_remove|].
      intros _. ar_ret.
Qed.

Lemma respects_rename_downloadconfig E name :
  (forall root, p <> Checkpoint root) ->
  respects (after_removal p) (rename_downloadconfig E (Checkpoint name)).
Proof.
  intros Hp.
  assert (Hne : path_eqb (Checkpoint name) p = false).
  { destruct p as [r|c] eqn:Hq; [reflexivity|]. exfalso. now apply (Hp c). }
  unfold rename_downloadconfig. ar_bind.
  - ar_try.
    + ar_bind; [apply respects_read_file|]. intros; ar_lift.
    + intros e h He. destruct e; inversion He.
      ar_bind; [ar_emit|]. intros _.
      ar_bind; [apply respects_os_remove|]. intros _. ar_ret.
  - intros cfg. ar_try.
    + ar_bind; [ar_lift|]. intros items.
      ar_bind; [ar_lift|]. intros added.
      ar_bind.
      * apply (respects_foldM _ after_removal_refl after_removal_trans).
        intros; ar_lift.
      * intros filled. now apply respects_write_file.
    + intros e h He. destruct e; inversion He; ar_ret.
Qed.

Lemma respects_rename_all E :
  (forall root, p <> Checkpoint root) ->
  respects (after_removal p)
    (state_files <- glob ".state" ;; for_each (rename_downloadconfig E) state_files).
Proof.
  intros Hp. apply respects_glob. intros l Hl.
  apply (respects_for_each _ after_removal_refl after_removal_trans).
  intros q Hq. rewrite Forall_forall in Hl. specialize (Hl q Hq).
  destruct q as [r|name]; [destruct Hl|]. now apply respects_rename_downloadconfig.
Qed.

End AfterRemoval.

(** A legacy file that exists and parses is removed right after its merge
    returns. *)
Lemma absorb_legacy_removes E loc mutations label current_config text old merged w w1 :
  find_file loc (files w) = Some text ->
  raw_read E text = Ok old ->
  merge E mutations label current_config old w = (Ok merged, w1) ->
  absorb_legacy E loc (merge E mutations label) current_config w
  = (Ok merged, World (delete_file loc (files w)) (journal w1 ++ [Removed loc])).
Proof.
  intros Hf Hr Hm.
  pose proof (merge_same_files E mutations label current_config old w) as Hs.
  rewrite Hm in Hs. simpl in Hs.
  unfold absorb_legacy.
  rewrite (bind_ok _ _ w true w) by (unfold exists_file; now rewrite Hf).
  cbv beta iota.
  rewrite (bind_ok _ _ w text w) by (unfold read_file; now rewrite Hf).
  rewrite (bind_ok _ _ w old w) by (unfold lift; now rewrite Hr).
  rewrite (bind_ok _ _ _ _ _ Hm).
  unfold bind, os_remove, ret. rewrite Hs, Hf. reflexivity.
Qed.

(** With a [validate] that rejects everything, a merge that returns returns
    the settings it was given. *)
Lemma merge_all_rejected E mutations label new_config old_config w merged w' :
  (forall c, validate E c = false) ->
  merge E mutations label new_config old_config w = (Ok merged, w') ->
  merged = new_config.
Proof.
  intros Hv. unfold merge, copy. generalize new_config as config. revert w.
  assert (Hfield : forall section items config w c' w',
             foldM (merge_field E mutations label section) items config w = (Ok c', w') ->
             c' = config).
  { intros section items. induction items as [|[name sv] items IH]; intros config w c' w'' H.
    - simpl in H. unfold ret in H. now inversion H.
    - rewrite foldM_cons in H. apply bind_inv in H. destruct H as (c1 & w1 & Hs & Hrest).
      apply IH in Hrest. subst c'.
      unfold merge_field in Hs. destruct (sv =? "None").
      + unfold ret in Hs. now inversion Hs.
      + apply bind_inv in Hs. destruct Hs as (temp & w2 & _ & Ha).
        rewrite adopt_invalid in Ha by apply Hv. now inversion Ha. }
  induction old_config as [|[section items] rest IH]; intros w config H.
  - simpl in H. unfold ret in H. now inversion H.
  - rewrite foldM_cons in H. apply bind_inv in H. destruct H as (c1 & w1 & Hs & Hrest).
    apply IH in Hrest. subst merged. unfold merge_section in Hs. simpl in Hs.
    eapply Hfield. exact Hs.
Qed.

(** C6: [convert_config_to_tribler71] removes a legacy settings file right
    after its merge returns, whatever was merged.  For [libtribler.conf], and
    for [tribler.conf] once the block of [libtribler.conf] is through: when
    the file exists, parses, and its merge returns, the next entry of the
    journal after the merge's own is the removal of the file, and the file is
    absent from the state directory the function leaves behind (whether the
    rest of the function returns or raises).  Nothing is asked of [validate]:
    when it rejects every candidate the merge returns the settings it was
    given, and the file is removed all the same. *)
Theorem legacy_file_removed_after_merge :
  forall (E : Env) current_config w,
    (forall text old merged w1,
        find_file (Root "libtribler.conf") (files w) = Some text ->
        raw_read E text = Ok old ->
        add_libtribler_config E current_config old w = (Ok merged, w1) ->
        let final := snd (convert_config_to_tribler71 E current_config w) in
        (exists later,
            journal final = journal w1 ++ Removed (Root "libtribler.conf") :: later)
        /\ find_file (Root "libtribler.conf") (files final) = None
        /\ ((forall c, validate E c = false) -> merged = current_config))
    /\ (forall c1 wa text old merged wb,
          absorb_legacy E (Root "libtribler.conf") (add_libtribler_config E)
            current_config w = (Ok c1, wa) ->
          find_file (Root "tribler.conf") (files wa) = Some text ->
          raw_read E text = Ok old ->
          add_tribler_config E c1 old wa = (Ok merged, wb) ->
          let final := snd (convert_config_to_tribler71 E current_config w) in
          (exists later,
              journal final = journal wb ++ Removed (Root "tribler.conf") :: later)
          /\ find_file (Root "tribler.conf") (files final) = None
          /\ ((forall c, validate E c = false) -> merged = c1)).
Proof.
  intros E current_config w. split.
  - intros text old merged w1 Hf Hr Hm final.
    pose proof (absorb_legacy_removes E _ _ _ _ _ _ _ _ _ Hf Hr Hm) as Ha.
    set (wA := World (delete_file (Root "libtribler.conf") (files w))
                     (journal w1 ++ [Removed (Root "libtribler.conf")])) in *.
    assert (Hfinal : after_removal (Root "libtribler.conf") wA final).
    { unfold final, convert_config_to_tribler71.
      unfold add_libtribler_config in *. rewrite (bind_ok _ _ _ _ _ Ha).
      apply (respects_bind _ (after_removal_trans _)).
      - apply respects_absorb_legacy.
      - intros c2.
        apply (respects_bind _ (after_removal_trans _)
                 (state_files <- glob ".state" ;;
                  for_each (rename_downloadconfig E) state_files)
                 (fun _ => ret c2)).
        + apply respects_rename_all. intros root; discriminate.
        + intros _. apply respects_ret. apply after_removal_refl. }
    destruct Hfinal as [[later Hj] Habs]. split; [|split].
    + exists later. rewrite Hj. unfold wA. simpl. now rewrite <- app_assoc.
    + apply Habs. unfold wA. simpl. apply find_delete_same.
    + intros Hv. eapply merge_all_rejected; [exact Hv|exact Hm].
  - intros c1 wa text old merged wb Hfirst Hf Hr Hm final.
    pose proof (absorb_legacy_removes E _ _ _ _ _ _ _ _ _ Hf Hr Hm) as Ha.
    set (wB := World (delete_file (Root "tribler.conf") (files wa))
                     (journal wb ++ [Removed (Root "tribler.conf")])) in *.
    assert (Hfinal : after_removal (Root "tribler.conf") wB final).
    { unfold final, convert_config_to_tribler71.
      rewrite (bind_ok _ _ _ _ _ Hfirst).
      unfold add_tribler_config in *. rewrite (bind_ok _ _ _ _ _ Ha).
      apply (respects_bind _ (after_removal_trans _)
               (state_files <- glob ".state" ;;
                for_each (rename_downloadconfig E) state_files)
               (fun _ => ret merged)).
      - apply respects_rename_all. intros root; discriminate.
      - intros _. apply respects_ret. apply after_removal_refl. }
    destruct Hfinal as [[later Hj] Habs]. split; [|split].
    + exists later. rewrite Hj. unfold wB. simpl. now rewrite <- app_assoc.
    + apply Habs. unfold wB. simpl. apply find_delete_same.
    + intros Hv. eapply merge_all_rejected; [exact Hv|exact Hm].
Qed.

(** ** Strings and names *)

Lemma length_append (s1 s2 : string) :
  String.length (s1 ++ s2) = String.length s1 + String.length s2.
Proof. induction s1 as [|c s1 IH]; simpl; [reflexivity|now rewrite IH]. Qed.

Lemma length_substring (n m : nat) (s : string) :
  String.length (substring n m s) <= String.length s.
Proof.
  revert n m. induction s as [|c s IH]; intros n m.
  - destruct n, m; simpl; lia.
  - destruct n as [|n].
    + destruct m as [|m]; simpl; [lia|]. specialize (IH 0 m). lia.
    + simpl. specialize (IH n m). lia.
Qed.

Lemma length_substring_0 (m : nat) (s : string) :
  String.length (substring 0 m s) = Nat.min m (String.length s).
Proof.
  revert m. induction s as [|c s IH]; intros m.
  - destruct m; reflexivity.
  - destruct m as [|m]; simpl; [reflexivity|]. now rewrite IH.
Qed.

(** The [.conf] file of a [.state] file is another file. *)
Lemma conf_name_differs name :
  ends_with ".state" name = true -> (conf_name name =? name) = false.
Proof.
  unfold ends_with. intros Hs. apply String.eqb_eq in Hs.
  apply String.eqb_neq. intros Heq.
  assert (Hlen : String.length (conf_name name) = String.length name) by now rewrite Heq.
  unfold conf_name in Hlen. rewrite length_append, length_substring_0 in Hlen.
  pose proof (length_substring (String.length name - String.length ".state")
                (String.length ".state") name) as Hle.
  rewrite Hs in Hle. simpl in Hle, Hlen. lia.
Qed.

Lemma substring_conf_suffix (s : string) :
  substring (String.length s) 5 (s ++ ".conf") = ".conf".
Proof. induction s as [|c s IH]; [reflexivity|exact IH]. Qed.

Lemma ends_with_conf_append (s : string) : ends_with ".conf" (s ++ ".conf") = true.
Proof.
  unfold ends_with. rewrite length_append.
  replace (String.length s + String.length ".conf" - String.length ".conf")
    with (String.length s) by (simpl; lia).
  change (String.length ".conf") with 5. rewrite substring_conf_suffix.
  reflexivity.
Qed.

Lemma substring_state_suffix (s : string) :
  substring (String.length s - 1) 6 (s ++ ".conf") <> ".state".
Proof.
  induction s as [|c s IH].
  - simpl. discriminate.
  - destruct s as [|c' s].
    + simpl. intros H. inversion H.
    + change (substring (String.length (String c (String c' s)) - 1) 6
                (String c (String c' s) ++ ".conf"))
        with (substring (S (String.length s)) 6
                (String c (String c' s ++ ".conf"))).
      change (substring (S (String.length s)) 6 (String c (String c' s ++ ".conf")))
        with (substring (String.length s) 6 (String c' s ++ ".conf")).
      replace (String.length s) with (String.length (String c' s) - 1) by (simpl; lia).
      exact IH.
Qed.

Lemma ends_with_state_conf (s : string) : ends_with ".state" (s ++ ".conf") = false.
Proof.
  unfold ends_with. apply String.eqb_neq. rewrite length_append.
  replace (String.length s + String.length ".conf" - String.length ".state")
    with (String.length s - 1) by (simpl; lia).
  change (String.length ".state") with 6. apply substring_state_suffix.
Qed.

Lemma conf_path_is_conf name : is_conf_file (Checkpoint (conf_name name)) = true.
Proof. apply ends_with_conf_append. Qed.

Lemma conf_path_not_state name : is_state_file (Checkpoint (conf_name name)) = false.
Proof. apply ends_with_state_conf. Qed.

Lemma find_delete_other p q fs :
  path_eqb q p = false -> find_file p (delete_file q fs) = find_file p fs.
Proof.
  intros Hne. induction fs as [|[r text] fs IH]; simpl; [reflexivity|].
  destruct (path_eqb r q) eqn:Hr; simpl.
  - apply path_eqb_eq in Hr. subst r. now rewrite Hne.
  - now rewrite IH.
Qed.

(** ** [convert_config_to_tribler74] *)

Lemma only_evaluates_refl w : only_evaluates w w.
Proof. split; [reflexivity|]. exists []. split; [now rewrite app_nil_r|constructor]. Qed.

Lemma only_evaluates_trans w1 w2 w3 :
  only_evaluates w1 w2 -> only_evaluates w2 w3 -> only_evaluates w1 w3.
Proof.
  intros [F1 (l1 & J1 & E1)] [F2 (l2 & J2 & E2)]. split; [now rewrite F2|].
  exists (l1 ++ l2). split; [rewrite J2, J1; now rewrite app_assoc|].
  apply Forall_app. now split.
Qed.

Lemma eval_literal_only_evaluates E text : respects only_evaluates (eval_literal E text).
Proof.
  intros w. unfold eval_literal, bind, emit, lift. simpl. split; [reflexivity|].
  exists [Evaluated text]. split; [reflexivity|]. repeat constructor.
Qed.

Lemma reencode_only_evaluates E ungarbled_dict text :
  respects only_evaluates (reencode E ungarbled_dict text).
Proof.
  unfold reencode. apply (respects_bind _ only_evaluates_trans).
  - destruct (truthy ungarbled_dict).
    + apply respects_ret, only_evaluates_refl.
    + apply eval_literal_only_evaluates.
  - intros value. apply (respects_bind _ only_evaluates_trans).
    + apply respects_lift, only_evaluates_refl.
    + intros encoded. apply respects_ret, only_evaluates_refl.
Qed.

Section StateFile.
Variable E : Env.
Variable filename : path.

(** A turn of the loop over the payload fields that returns has either only
    called [ast.literal_eval], or has removed the [.state] file. *)
Lemma upgrade_option_inv old_config field w new_config w' :
  upgrade_option E filename old_config field w = (Ok new_config, w') ->
  only_evaluates w w' \/ find_file filename (files w') = None.
Proof.
  destruct field as [section option]. unfold upgrade_option. intros H.
  apply bind_inv in H. destruct H as (value & w1 & H1 & H).
  unfold lift in H1. inversion H1; subst w1; clear H1.
  apply bind_inv in H. destruct H as (source & w1 & H1 & H).
  unfold lift in H1. inversion H1; subst w1; clear H1.
  apply bind_inv in H. destruct H as (text & w1 & H1 & H).
  unfold lift in H1. inversion H1; subst w1; clear H1.
  apply bind_inv in H. destruct H as (literal & w1 & H1 & H).
  pose proof (eval_literal_only_evaluates E text w) as Hev. rewrite H1 in Hev.
  simpl in Hev.
  unfold try_except in H.
  match type of H with
  | context [bind ?m ?k w1] =>
      pose proof (respects_bind _ only_evaluates_trans m k
                    (reencode_only_evaluates E _ text)
                    (fun stored => respects_lift _ only_evaluates_refl _) w1) as Hre;
      destruct (bind m k w1) as [[stored|e] w2]
  end; simpl in Hre.
  - inversion H; subst. left. eapply only_evaluates_trans; eassumption.
  - right.
    assert (Hh : (emit (Log_error unconvertible_msg filename) ;;;
                  os_remove filename ;;; ret old_config) w2 = (Ok new_config, w')).
    { destruct e; try discriminate; exact H. }
    clear H. unfold bind, emit, os_remove, ret in Hh. simpl in Hh.
    destruct (find_file filename (files w2)); [|discriminate].
    inversion Hh; subst. simpl. apply find_delete_same.
Qed.

(** Once the [.state] file is gone, a turn that returns leaves it gone. *)
Lemma upgrade_option_absent old_config field w new_config w' :
  find_file filename (files w) = None ->
  upgrade_option E filename old_config field w = (Ok new_config, w') ->
  find_file filename (files w') = None.
Proof.
  intros Habs H. destruct (upgrade_option_inv _ _ _ _ _ H) as [[Hf _] | Hn].
  - now rewrite Hf.
  - exact Hn.
Qed.

(** On an empty parser the first payload field raises. *)
Lemma upgrade_option_empty field w :
  exists e, upgrade_option E filename empty_parser field w = (Raise e, w).
Proof.
  destruct field as [section option]. unfold upgrade_option, get_raw. simpl.
  destruct (get_missing E) as [e|].
  - exists e. reflexivity.
  - exists TypeError. reflexivity.
Qed.

(** What a turn that returns has done to the parser: nothing (the handler
    ran), or it has set the field, which the parser had. *)
Lemma upgrade_option_parser old_config section option w new_config w' :
  upgrade_option E filename old_config (section, option) w = (Ok new_config, w') ->
  exists raw,
    get_raw E section option old_config = Ok (PStr raw)
    /\ (new_config = old_config
        \/ exists stored, rc_set section option stored old_config = Ok new_config).
Proof.
  unfold upgrade_option. intros H.
  apply bind_inv in H. destruct H as (value & w1 & Hget & H).
  unfold lift in Hget. inversion Hget as [[Hg Hw]]; subst w1; clear Hget.
  apply bind_inv in H. destruct H as (source & w2 & Hsrc & H).
  destruct value as [| | |raw| | | |]; try discriminate.
  exists raw. split; [exact Hg|].
  apply bind_inv in H. destruct H as (text & w3 & _ & H).
  apply bind_inv in H. destruct H as (literal & w4 & _ & H).
  unfold try_except in H.
  match type of H with
  | context [bind ?m ?k w4] => destruct (bind m k w4) as [[stored|e] w5] eqn:Hb
  end.
  - inversion H; subst. apply bind_inv in Hb. destruct Hb as (text' & w6 & _ & Hset).
    unfold lift in Hset. inversion Hset as [[Hs Hw']]. right. now exists text'.
  - assert (Hh : (emit (Log_error unconvertible_msg filename) ;;;
                  os_remove filename ;;; ret old_config) w5 = (Ok new_config, w')).
    { destruct e; try discriminate; exact H. }
    unfold bind, emit, os_remove, ret in Hh. simpl in Hh.
    destruct (find_file filename (files w5)); [|discriminate].
    left. now inversion Hh.
Qed.

End StateFile.

(** ** Options of a parser *)

Lemma contains_in_keys {V} (k : string) (d : list (string * V)) :
  contains k d = true <-> In k (map fst d).
Proof.
  unfold contains. split.
  - destruct (lookup k d) as [v|] eqn:Hl; [|discriminate].
    intros _. eapply lookup_some_in_keys. exact Hl.
  - intros H. destruct (in_keys_lookup _ _ H) as [v Hv]. now rewrite Hv.
Qed.

(** [has_option] tells the names that [items] lists. *)
Lemma has_option_items section key cfg :
  rc_has_option section key cfg = true
  <-> exists items, rc_items section cfg = Ok items /\ In key (map fst items).
Proof.
  unfold rc_has_option, rc_items.
  destruct (lookup section (sections cfg)) as [own|].
  - rewrite orb_true_iff, !contains_in_keys. split.
    + intros H. eexists. split; [reflexivity|]. apply in_keys_update. tauto.
    + intros (items & Heq & Hin). inversion Heq; subst.
      apply in_keys_update in Hin. tauto.
  - split; [discriminate|]. intros (items & Heq & _). discriminate.
Qed.

(** A field that [get] finds is an option of its section. *)
Lemma get_raw_has_option E section option cfg raw :
  get_raw E section option cfg = Ok (PStr raw) ->
  rc_has_option section option cfg = true
  /\ exists own, lookup section (sections cfg) = Some own.
Proof.
  unfold get_raw, rc_has_option, contains.
  destruct (lookup section (sections cfg)) as [own|].
  - intros H. split; [|now exists own].
    destruct (lookup option own); [reflexivity|].
    destruct (lookup option (defaults cfg)); [reflexivity|].
    destruct (get_missing E); discriminate.
  - destruct (get_missing E); discriminate.
Qed.

(** Setting an option that the section has changes the names of no section
    and leaves [[DEFAULT]] alone. *)
Lemma rc_set_keeps section option stored cfg cfg' :
  rc_set section option stored cfg = Ok cfg' ->
  rc_has_option section option cfg = true ->
  defaults cfg' = defaults cfg
  /\ forall s k, rc_has_option s k cfg' = rc_has_option s k cfg.
Proof.
  unfold rc_set. destruct (lookup section (sections cfg)) as [own|] eqn:Hown; [|discriminate].
  intros H Hhas. inversion H; subst cfg'; clear H. split; [reflexivity|].
  intros s k. unfold rc_has_option in *. cbn [sections defaults]. rewrite Hown in Hhas.
  destruct (section =? s) eqn:Hs.
  - apply String.eqb_eq in Hs. subst s. rewrite lookup_assign_same, Hown.
    unfold contains in *. destruct (option =? k) eqn:Hk.
    + apply String.eqb_eq in Hk. subst k. rewrite lookup_assign_same. simpl.
      symmetry. exact Hhas.
    + now rewrite lookup_assign_other.
  - now rewrite lookup_assign_other.
Qed.

Lemma upgrade_option_keeps E filename old_config section option w new_config w' :
  upgrade_option E filename old_config (section, option) w = (Ok new_config, w') ->
  defaults new_config = defaults old_config
  /\ (forall s k, rc_has_option s k new_config = rc_has_option s k old_config)
  /\ exists own, lookup section (sections old_config) = Some own.
Proof.
  intros H. destruct (upgrade_option_parser _ _ _ _ _ _ _ _ H) as (raw & Hg & Hc).
  destruct (get_raw_has_option _ _ _ _ _ Hg) as [Hhas Hown].
  destruct Hc as [-> | (stored & Hset)].
  - repeat split; [exact Hown].
  - destruct (rc_set_keeps _ _ _ _ _ Hset Hhas) as [Hd Hk].
    split; [exact Hd|]. split; [exact Hk|exact Hown].
Qed.

(** The [dlstate] step returns, leaves [[DEFAULT]] alone and changes no
    other name; the name it drops is still listed when [[DEFAULT]] has it. *)
Lemma rc_drop_option_returns section option cfg :
  exists cfg',
    rc_drop_option section option cfg = Ok cfg'
    /\ defaults cfg' = defaults cfg
    /\ (forall s k, (s =? section) && (k =? option) = false ->
          rc_has_option s k cfg' = rc_has_option s k cfg)
    /\ (forall own, lookup section (sections cfg) = Some own ->
          exists own', lookup section (sections cfg') = Some own'
                       /\ ~ In option (map fst own')).
Proof.
  unfold rc_drop_option. destruct (rc_has_option section option cfg) eqn:Hhas.
  - unfold rc_has_option in Hhas. unfold rc_remove_option.
    destruct (lookup section (sections cfg)) as [own|] eqn:Hown; [|discriminate].
    eexists. split; [reflexivity|]. split; [reflexivity|]. split.
    + intros s k Hne. unfold rc_has_option. cbn [sections defaults].
      destruct (section =? s) eqn:Hs.
      * apply String.eqb_eq in Hs. subst s. rewrite lookup_assign_same, Hown.
        rewrite String.eqb_refl in Hne. simpl in Hne.
        unfold contains. rewrite lookup_discard_other; [reflexivity|].
        now rewrite String.eqb_sym.
      * now rewrite lookup_assign_other.
    + intros own0 Hown0. inversion Hown0; subst own0. cbn [sections].
      rewrite lookup_assign_same. eexists. split; [reflexivity|].
      rewrite in_keys_discard. tauto.
  - exists cfg. split; [reflexivity|]. split; [reflexivity|]. split; [reflexivity|].
    intros own Hown. exists own. split; [exact Hown|].
    unfold rc_has_option in Hhas. rewrite Hown in Hhas.
    apply orb_false_iff in Hhas. destruct Hhas as [Hhas _].
    intros Hin. apply contains_in_keys in Hin. congruence.
Qed.

(** ** The copy into the [ConfigObj] *)

Lemma put2_has_same section key v c : has_key section key (put2 section key v c).
Proof.
  unfold has_key, put2. eexists. exists v. split; apply lookup_assign_same.
Qed.

Lemma put2_has_other section key section' key' v c :
  has_key section key c -> has_key section key (put2 section' key' v c).
Proof.
  intros (items & x & Hs & Hk). unfold has_key, put2.
  destruct (section' =? section) eqn:Hsec.
  - apply String.eqb_eq in Hsec. subst section'. rewrite Hs.
    eexists. rewrite lookup_assign_same.
    destruct (key' =? key) eqn:Hkey.
    + apply String.eqb_eq in Hkey. subst key'. exists v.
      split; [reflexivity|apply lookup_assign_same].
    + exists x. split; [reflexivity|]. now rewrite lookup_assign_other.
  - exists items, x. split; [|exact Hk]. now rewrite lookup_assign_other.
Qed.

Lemma copy_section_keeps E section key sec c :
  has_key section key c -> has_key section key (copy_section E c sec).
Proof.
  unfold copy_section. destruct sec as [name items]. simpl.
  revert c. induction items as [|kv items IH]; intros c H; simpl; [exact H|].
  apply IH. now apply put2_has_other.
Qed.

(** With option names that are distinct, the copy of a section leaves each
    key with the value that [get] returns for it. *)
Lemma copy_section_value E section items key text c :
  NoDup (map fst items) ->
  lookup key items = Some text ->
  lookup2 section key (copy_section E c (section, items)) = Some (get_decoded E text).
Proof.
  unfold copy_section. cbn [fst snd]. revert c.
  induction items as [|[k v] items IH]; intros c Hnd Hl; simpl in *; [discriminate|].
  inversion Hnd as [|? ? Hnotin Hnd']; subst.
  destruct (k =? key) eqn:Hk.
  - apply String.eqb_eq in Hk. subst k. inversion Hl; subst v.
    pose proof (copy_section_other E section key (section, items)
                  (put2 section key (get_decoded E text) c)) as Ho.
    unfold copy_section in Ho. cbn [fst snd] in Ho. rewrite Ho by (right; exact Hnotin).
    apply put2_lookup2_same.
  - now apply IH.
Qed.

Lemma copy_section_has E section items key text c :
  In (key, text) items -> has_key section key (copy_section E c (section, items)).
Proof.
  unfold copy_section. simpl. revert c.
  induction items as [|kv items IH]; intros c Hin; simpl; [destruct Hin|].
  destruct Hin as [-> | Hin].
  - simpl. apply (copy_section_keeps E section key (section, items)).
    apply put2_has_same.
  - now apply IH.
Qed.

Lemma copy_listing_keeps E section key (listing : ini) c :
  has_key section key c -> has_key section key (fold_left (copy_section E) listing c).
Proof.
  revert c. induction listing as [|sec rest IH]; intros c H; simpl; [exact H|].
  apply IH. now apply copy_section_keeps.
Qed.

Lemma copy_listing_has E (listing : ini) section items key text c :
  In (section, items) listing ->
  In (key, text) items ->
  has_key section key (fold_left (copy_section E) listing c).
Proof.
  revert c.
  induction listing as [|sec rest IH]; intros c Hsec Hkey; simpl; [destruct Hsec|].
  destruct Hsec as [-> | Hsec].
  - apply (copy_listing_keeps E section key rest).
    eapply copy_section_has. exact Hkey.
  - now apply IH.
Qed.

Lemma copy_listing_other E section key (listing : ini) c :
  (forall items, In (section, items) listing -> ~ In key (map fst items)) ->
  lookup2 section key (fold_left (copy_section E) listing c) = lookup2 section key c.
Proof.
  revert c.
  induction listing as [|[name items] rest IH]; intros c Hfree; simpl; [reflexivity|].
  rewrite IH by (intros its Hin; apply Hfree; now right).
  apply copy_section_other. cbn [fst snd].
  destruct (name =? section) eqn:Hn; [|now left].
  apply String.eqb_eq in Hn. subst name. right. apply Hfree. now left.
Qed.

Lemma copy_listing_has_inv E section key (listing : ini) c :
  has_key section key (fold_left (copy_section E) listing c) ->
  has_key section key c
  \/ exists items, In (section, items) listing /\ In key (map fst items).
Proof.
  revert c.
  induction listing as [|[name items] rest IH]; intros c H; simpl in *; [now left|].
  destruct (IH _ H) as [Hc | (its & Hin & Hk)].
  - destruct (copy_section_has_inv _ _ _ _ _ Hc) as [Hc' | [Hs Hk]]; [now left|].
    cbn [fst snd] in *. subst section. right. exists items. split; [now left|exact Hk].
  - right. exists its. split; [now right|exact Hk].
Qed.

(** When every entry of a section in the listing is the same, the copy
    leaves each of its keys with the value that [get] returns for it. *)
Lemma copy_listing_value E section items key text (listing : ini) c :
  NoDup (map fst items) ->
  lookup key items = Some text ->
  (forall items', In (section, items') listing -> items' = items) ->
  In section (map fst listing) \/ lookup2 section key c = Some (get_decoded E text) ->
  lookup2 section key (fold_left (copy_section E) listing c) = Some (get_decoded E text).
Proof.
  intros Hnd Hl. revert c.
  induction listing as [|[name its] rest IH]; intros c Hsame Hstart; simpl.
  - destruct Hstart as [[] | H]. exact H.
  - apply IH; [intros items' Hin; apply Hsame; now right|].
    destruct (name =? section) eqn:Hn.
    + apply String.eqb_eq in Hn. subst name. right.
      rewrite (Hsame its) by now left. now apply copy_section_value.
    + destruct Hstart as [[Heq | Hin] | H].
      * simpl in Heq. subst name. now rewrite String.eqb_refl in Hn.
      * now left.
      * right. rewrite copy_section_other by (left; exact Hn). exact H.
Qed.

Section Copy.
Variable E : Env.
Variable old_config : parser.
Variable c : configobj.

(** The record keeps the keys it had, and has every option of every section
    of the parser. *)
Lemma copy_sections_keeps section key :
  has_key section key c -> has_key section key (copy_sections E old_config c).
Proof. apply copy_listing_keeps. Qed.

Lemma copy_sections_value section items key text :
  NoDup (map fst (defaults old_config)) ->
  rc_items section old_config = Ok items ->
  lookup key items = Some text ->
  lookup2 section key (copy_sections E old_config c) = Some (get_decoded E text).
Proof.
  intros Hnd Hitems Hl. unfold copy_sections.
  apply (copy_listing_value E section items).
  - unfold rc_items in Hitems.
    destruct (lookup section (sections old_config)); [|discriminate].
    inversion Hitems. now apply nodup_update.
  - exact Hl.
  - intros items' Hin. apply in_listing in Hin. congruence.
  - left. apply in_listing in Hitems. apply in_map_iff. now exists (section, items).
Qed.

Lemma copy_sections_has section key :
  rc_has_option section key old_config = true ->
  has_key section key (copy_sections E old_config c).
Proof.
  intros H. apply has_option_items in H. destruct H as (items & Hitems & Hin).
  apply in_listing in Hitems.
  apply in_map_iff in Hin. destruct Hin as ([k text] & Hk & Hin). simpl in Hk. subst k.
  unfold copy_sections. eapply copy_listing_has; eassumption.
Qed.

(** A key that is no option of the section in the parser keeps the value
    it had in the record, and the record gains no other key. *)
Lemma copy_sections_other section key :
  rc_has_option section key old_config = false ->
  lookup2 section key (copy_sections E old_config c) = lookup2 section key c.
Proof.
  intros H. apply copy_listing_other. intros items Hin Hk.
  apply in_listing in Hin.
  assert (Hhas : rc_has_option section key old_config = true)
    by (apply has_option_items; now exists items).
  congruence.
Qed.

Lemma copy_sections_has_inv section key :
  has_key section key (copy_sections E old_config c) ->
  has_key section key c \/ rc_has_option section key old_config = true.
Proof.
  intros H. destruct (copy_listing_has_inv _ _ _ _ _ H) as [Hc | (items & Hin & Hk)].
  - now left.
  - right. apply in_listing in Hin. apply has_option_items. now exists items.
Qed.

End Copy.
(** C8: for a payload field ([metainfo] or [engineresumedata], or any other
    field handed to the loop body) that is present, whose text the source
    modernizer and then [ast.literal_eval] accept, the value that
    [convert_config_to_tribler74] re-encodes is the un-garbled value when
    that is truthy and the literal of the modernized text otherwise, and
    what it stores back in the field is the base64 text of the bencoding of
    that value.  The second evaluation of the text happens only in the
    falsy case, and no file is touched. *)
Theorem reencoded_value_is_ungarbled_or_raw :
  forall (E : Env) filename old_config section option raw text literal encoded w,
    get_raw E section option old_config = Ok (PStr raw) ->
    refactor_string E (raw ++ newline)%string (option ++ "_2to3")%string = Ok text ->
    literal_eval E text = Ok literal ->
    bencode E (if truthy (recursive_ungarble_metainfo E literal)
               then recursive_ungarble_metainfo E literal
               else literal) = Ok encoded ->
    exists new_config,
      upgrade_option E filename old_config (section, option) w
      = (Ok new_config,
         World (files w)
           (journal w ++ Evaluated text ::
              (if truthy (recursive_ungarble_metainfo E literal)
               then [] else [Evaluated text])))
      /\ rc_set section option (b64encode E encoded) old_config = Ok new_config
      /\ get_raw E section option new_config = Ok (PStr (b64encode E encoded)).
Proof.
  intros E filename old_config section option raw text literal encoded w Hg Hr Hl Hb.
  destruct (get_raw_has_option _ _ _ _ _ Hg) as [_ [own Hs]].
  exists (Parser (defaults old_config)
            (assign section (assign option (b64encode E encoded) own)
               (sections old_config))).
  split; [|split].
  - unfold upgrade_option.
    rewrite (bind_ok _ _ w (PStr raw) w) by (unfold lift; now rewrite Hg).
    rewrite (bind_ok _ _ w (raw ++ newline)%string w) by reflexivity.
    rewrite (bind_ok _ _ w text w) by (unfold lift; now rewrite Hr).
    rewrite (bind_ok _ _ w literal (World (files w) (journal w ++ [Evaluated text])))
      by (unfold eval_literal, bind, emit, lift; now rewrite Hl).
    unfold try_except, reencode, rc_set, bind, lift, ret, eval_literal, emit.
    destruct (truthy (recursive_ungarble_metainfo E literal)); simpl.
    + rewrite Hb, Hs. reflexivity.
    + rewrite Hl, Hb, Hs. now rewrite <- app_assoc.
  - unfold rc_set. now rewrite Hs.
  - unfold get_raw. cbn [sections defaults]. now rewrite !lookup_assign_same.
Qed.

Lemma reencoded_value_is_ungarbled_or_raw_witness :
  exists new_config,
    upgrade_option Demo.default (Checkpoint "x.state") (Parser [] Demo.good_state_ini)
      ("state", "engineresumedata") (Demo.dir [])
    = (Ok new_config,
       World [] [Evaluated ("{}" ++ newline)%string; Evaluated ("{}" ++ newline)%string])
    /\ rc_set "state" "engineresumedata" "base64:de" (Parser [] Demo.good_state_ini)
       = Ok new_config
    /\ get_raw Demo.default "state" "engineresumedata" new_config = Ok (PStr "base64:de").
Proof.
  apply (reencoded_value_is_ungarbled_or_raw Demo.default (Checkpoint "x.state")
           (Parser [] Demo.good_state_ini) "state" "engineresumedata" "{}"
           ("{}" ++ newline)%string
           (PDict []) "de" (Demo.dir []) eq_refl eq_refl eq_refl eq_refl).
Defined.

(** A name that ends in [.state] is some [base] followed by [.state], and
    the [.conf] file of [base.state] is [base.conf]. *)
Lemma substring_all (s : string) : substring 0 (String.length s) s = s.
Proof. induction s as [|c s IH]; simpl; [reflexivity|now rewrite IH]. Qed.

Lemma substring_split (n : nat) (s : string) :
  n <= String.length s ->
  (substring 0 n s ++ substring n (String.length s - n) s)%string = s.
Proof.
  revert n. induction s as [|c s IH]; intros n Hn.
  - simpl in Hn. assert (n = 0) by lia. subst n. reflexivity.
  - destruct n as [|n].
    + change (String.length (String c s) - 0) with (S (String.length s)).
      simpl. now rewrite substring_all.
    + simpl in Hn. simpl. rewrite IH by lia. reflexivity.
Qed.

Lemma state_name_split (name : string) :
  ends_with ".state" name = true ->
  exists base, name = (base ++ ".state")%string.
Proof.
  unfold ends_with. intros H. apply String.eqb_eq in H.
  pose proof (length_substring (String.length name - String.length ".state")
                (String.length ".state") name) as Hle.
  rewrite H in Hle. simpl in Hle.
  exists (substring 0 (String.length name - 6) name).
  pose proof (substring_split (String.length name - 6) name ltac:(lia)) as Hs.
  replace (String.length name - (String.length name - 6)) with 6 in Hs by lia.
  change (String.length ".state") with 6 in H. rewrite H in Hs. now symmetry.
Qed.

Lemma substring_prefix (s t : string) : substring 0 (String.length s) (s ++ t) = s.
Proof.
  induction s as [|c s IH]; simpl.
  - destruct t; reflexivity.
  - now rewrite IH.
Qed.

Lemma conf_name_of_state (base : string) : conf_name (base ++ ".state") = (base ++ ".conf")%string.
Proof.
  unfold conf_name. rewrite length_append.
  replace (String.length base + String.length ".state" - 6) with (String.length base)
    by (simpl; lia).
  now rewrite substring_prefix.
Qed.

Lemma substring_suffix (s t : string) :
  substring (String.length s) (String.length t) (s ++ t) = t.
Proof.
  induction s as [|c s IH]; simpl; [|exact IH].
  induction t as [|c t IHt]; simpl; [reflexivity|now rewrite IHt].
Qed.

Lemma ends_with_append (s suffix : string) : ends_with suffix (s ++ suffix) = true.
Proof.
  unfold ends_with. rewrite length_append.
  replace (String.length s + String.length suffix - String.length suffix)
    with (String.length s) by lia.
  rewrite substring_suffix. apply String.eqb_refl.
Qed.

(** What a loop body that returns has done: the file was read and parsed,
    both payload fields went through without an exception handler running,
    the [.conf] file was written and then the [.state] file removed. *)
Lemma convert_state_file_returns E name w w' :
  ends_with ".state" name = true ->
  convert_state_file E (Checkpoint name) w = (Ok tt, w') ->
  exists old_text old_config evaluations upgraded trimmed new_config,
    find_file (Checkpoint name) (files w) = Some old_text
    /\ callback_read E old_text = Ok old_config
    /\ foldM (upgrade_option E (Checkpoint name))
         [("state", "metainfo"); ("state", "engineresumedata")] old_config w
       = (Ok upgraded, World (files w) (journal w ++ evaluations))
    /\ Forall is_evaluated evaluations
    /\ rc_drop_option "state" "dlstate" upgraded = Ok trimmed
    /\ configobj_read E (find_file (Checkpoint (conf_name name)) (files w)) = Ok new_config
    /\ w' = World (delete_file (Checkpoint name)
                     (store_file (Checkpoint (conf_name name))
                        (configobj_write E (copy_sections E trimmed new_config))
                        (files w)))
                  (journal w ++ evaluations ++
                   [Written (Checkpoint (conf_name name))
                      (configobj_write E (copy_sections E trimmed new_config));
                    Removed (Checkpoint name)]).
Proof.
  intros Hext H.
  pose proof (conf_name_differs name Hext) as Hdiff.
  unfold convert_state_file in H.
  apply bind_inv in H. destruct H as (old_config & w1 & Hread & H).
  apply bind_inv in H. destruct H as (upgraded & w2 & Hfold & H).
  (* the file was read and parsed *)
  assert (Hparsed : exists old_text,
             find_file (Checkpoint name) (files w) = Some old_text
             /\ callback_read E old_text = Ok old_config /\ w1 = w).
  { unfold try_except, bind, read_file, lift in Hread.
    destruct (find_file (Checkpoint name) (files w)) as [old_text|]; [|discriminate].
    destruct (callback_read E old_text) as [cfg|e] eqn:Hcb.
    - inversion Hread; subst. now exists old_text.
    - exfalso. destruct e; try discriminate.
      unfold emit, os_remove, ret in Hread. simpl in Hread.
      destruct (find_file (Checkpoint name) (files w)); [|discriminate].
      inversion Hread; subst old_config.
      rewrite foldM_cons in Hfold.
      destruct (upgrade_option_empty E (Checkpoint name) ("state", "metainfo") w1)
        as [e He].
      rewrite (bind_raise _ _ _ _ _ He) in Hfold. discriminate. }
  destruct Hparsed as (old_text & Hfind & Hcb & ->).
  (* both payload fields went the normal way *)
  pose proof Hfold as Hfold0.
  rewrite foldM_cons in Hfold. apply bind_inv in Hfold.
  destruct Hfold as (c1 & wa & Hu1 & Hfold).
  rewrite foldM_cons in Hfold. apply bind_inv in Hfold.
  destruct Hfold as (c2 & wb & Hu2 & Hret).
  simpl in Hret. unfold ret in Hret. inversion Hret; subst c2 wb; clear Hret.
  assert (Hstate : only_evaluates w w2 \/ find_file (Checkpoint name) (files w2) = None).
  { destruct (upgrade_option_inv _ _ _ _ _ _ _ Hu1) as [Ha | Ha].
    - destruct (upgrade_option_inv _ _ _ _ _ _ _ Hu2) as [Hb | Hb].
      + left. eapply only_evaluates_trans; eassumption.
      + now right.
    - right. eapply upgrade_option_absent; eassumption. }
  (* the write, then the removal *)
  apply bind_inv in H. destruct H as (trimmed & w3 & Hdrop & H).
  unfold lift in Hdrop. inversion Hdrop as [[Htrim Hw]]; subst w3; clear Hdrop.
  apply bind_inv in H. destruct H as (existing & w3 & Hpeek & H).
  inversion Hpeek; subst existing w3; clear Hpeek.
  apply bind_inv in H. destruct H as (new_config & w3 & Hnew & H).
  unfold lift in Hnew. inversion Hnew as [[Hobj Hw]]; subst w3; clear Hnew.
  apply bind_inv in H. destruct H as ([] & w3 & Hwrite & H).
  unfold write_file in Hwrite. inversion Hwrite; subst w3; clear Hwrite.
  unfold os_remove in H. simpl in H.
  rewrite find_store_other in H by (simpl; exact Hdiff).
  destruct (find_file (Checkpoint name) (files w2)) as [still|] eqn:Hstill;
    [|discriminate].
  inversion H; subst w'; clear H.
  destruct Hstate as [[Hfiles (evaluations & Hj & Hev)] | Habs]; [|discriminate].
  destruct w2 as [fs2 j2]. simpl in *. subst fs2 j2.
  exists old_text, old_config, evaluations, upgraded, trimmed, new_config.
  repeat split; try assumption.
  now rewrite <- !app_assoc.
Qed.

(** The payload upgrade and the [dlstate] step leave [[DEFAULT]] alone and,
    but for [dlstate] in [state], keep the options of every section; [state]
    is there and has no [dlstate] of its own any more. *)
Lemma payload_upgrade_keeps E filename old_config w upgraded w2 trimmed :
  foldM (upgrade_option E filename)
    [("state", "metainfo"); ("state", "engineresumedata")] old_config w
  = (Ok upgraded, w2) ->
  rc_drop_option "state" "dlstate" upgraded = Ok trimmed ->
  defaults trimmed = defaults old_config
  /\ (forall s k, (s =? "state") && (k =? "dlstate") = false ->
        rc_has_option s k trimmed = rc_has_option s k old_config)
  /\ (exists own, lookup "state" (sections trimmed) = Some own
                  /\ ~ In "dlstate" (map fst own))
  /\ exists own, lookup "state" (sections old_config) = Some own.
Proof.
  intros Hfold Hdrop.
  rewrite foldM_cons in Hfold. apply bind_inv in Hfold.
  destruct Hfold as (c1 & wa & Hu1 & Hfold).
  rewrite foldM_cons in Hfold. apply bind_inv in Hfold.
  destruct Hfold as (c2 & wb & Hu2 & Hret).
  simpl in Hret. unfold ret in Hret. inversion Hret; subst c2 wb; clear Hret.
  destruct (upgrade_option_keeps _ _ _ _ _ _ _ _ Hu1) as (Hd1 & Hk1 & Hown1).
  destruct (upgrade_option_keeps _ _ _ _ _ _ _ _ Hu2) as (Hd2 & Hk2 & [own2 Hown2]).
  assert (Hstate : exists own, lookup "state" (sections upgraded) = Some own).
  { specialize (Hk2 "state" "engineresumedata").
    destruct (upgrade_option_parser _ _ _ _ _ _ _ _ Hu2) as (raw & Hg & _).
    destruct (get_raw_has_option _ _ _ _ _ Hg) as [Hhas _]. rewrite <- Hk2 in Hhas.
    unfold rc_has_option in Hhas.
    destruct (lookup "state" (sections upgraded)) as [own|]; [now exists own|discriminate]. }
  destruct Hstate as [own Hown].
  destruct (rc_drop_option_returns "state" "dlstate" upgraded)
    as (trimmed' & Heq & Hd & Hk & Hs).
  rewrite Hdrop in Heq. inversion Heq; subst trimmed'. split; [|split; [|split]].
  - now rewrite Hd, Hd2, Hd1.
  - intros s k Hne. now rewrite (Hk s k Hne), Hk2, Hk1.
  - exact (Hs own Hown).
  - exact Hown1.
Qed.

(** After the two steps [dlstate] is an option of [state] exactly when
    [[DEFAULT]] has it, and no section has an option it did not have. *)
Lemma trimmed_options E filename old_config w upgraded w2 trimmed :
  foldM (upgrade_option E filename)
    [("state", "metainfo"); ("state", "engineresumedata")] old_config w
  = (Ok upgraded, w2) ->
  rc_drop_option "state" "dlstate" upgraded = Ok trimmed ->
  rc_has_option "state" "dlstate" trimmed = contains "dlstate" (defaults old_config)
  /\ (forall s k, rc_has_option s k old_config = false -> rc_has_option s k trimmed = false).
Proof.
  intros Hfold Hdrop.
  destruct (payload_upgrade_keeps _ _ _ _ _ _ _ Hfold Hdrop)
    as (Hd & Hk & (own & Hown & Hnone) & (own0 & Hown0)).
  assert (Hdl : rc_has_option "state" "dlstate" trimmed
                = contains "dlstate" (defaults old_config)).
  { unfold rc_has_option. rewrite Hown, Hd.
    destruct (contains "dlstate" own) eqn:Hc; [|reflexivity].
    apply contains_in_keys in Hc. contradiction. }
  split; [exact Hdl|]. intros s k Hold.
  destruct ((s =? "state") && (k =? "dlstate")) eqn:Hsk.
  - apply andb_true_iff in Hsk. destruct Hsk as [Hs Hk']. apply String.eqb_eq in Hs, Hk'.
    subst s k. rewrite Hdl. unfold rc_has_option in Hold. rewrite Hown0 in Hold.
    apply orb_false_iff in Hold. tauto.
  - now rewrite (Hk s k Hsk).
Qed.

(** C9: a [.state] file that [convert_config_to_tribler74] upgrades (the loop
    body returns) is removed only after its [.conf] file has been written.
    For a file [base.state]: the file was read and parsed, both payload
    fields went through without an exception handler running, and from the
    start of the body the journal gains calls of [ast.literal_eval] only,
    then the write of [base.conf], then the removal of [base.state], in that
    order and nothing else: no removal comes before the write.  The record
    written to [base.conf] is the record read from [base.conf] (empty when
    there was no such file) with the sections of the upgraded parser copied
    in: it has every option of every section of the [.state] file, [dlstate]
    of [state] apart, and, when the option names of [[DEFAULT]] are
    distinct, each option that [items] lists for a section of the upgraded
    parser has the value that [get] returns for it.  The [.state] file is
    gone. *)
Theorem conf_written_before_state_removed :
  forall (E : Env) base w w',
    convert_state_file E (Checkpoint (base ++ ".state")) w = (Ok tt, w') ->
    exists old_text old_config evaluations upgraded trimmed new_config,
      find_file (Checkpoint (base ++ ".state")) (files w) = Some old_text
      /\ callback_read E old_text = Ok old_config
      /\ foldM (upgrade_option E (Checkpoint (base ++ ".state")))
           [("state", "metainfo"); ("state", "engineresumedata")] old_config w
         = (Ok upgraded, World (files w) (journal w ++ evaluations))
      /\ Forall is_evaluated evaluations
      /\ rc_drop_option "state" "dlstate" upgraded = Ok trimmed
      /\ configobj_read E (find_file (Checkpoint (base ++ ".conf")) (files w))
         = Ok new_config
      /\ exists written,
           written = copy_sections E trimmed new_config
           /\ journal w'
              = journal w ++ evaluations ++
                [Written (Checkpoint (base ++ ".conf")) (configobj_write E written);
                 Removed (Checkpoint (base ++ ".state"))]
           /\ files w'
              = delete_file (Checkpoint (base ++ ".state"))
                  (store_file (Checkpoint (base ++ ".conf")) (configobj_write E written)
                     (files w))
           /\ find_file (Checkpoint (base ++ ".conf")) (files w')
              = Some (configobj_write E written)
           /\ find_file (Checkpoint (base ++ ".state")) (files w') = None
           /\ (forall section key,
                 rc_has_option section key old_config = true ->
                 (section =? "state") && (key =? "dlstate") = false ->
                 has_key section key written)
           /\ (NoDup (map fst (defaults old_config)) ->
               forall section items key text,
                 rc_items section trimmed = Ok items ->
                 lookup key items = Some text ->
                 lookup2 section key written = Some (get_decoded E text)).
Proof.
  intros E base w w' H.
  pose proof (ends_with_append base ".state") as Hext.
  destruct (convert_state_file_returns E _ w w' Hext H)
    as (old_text & old_config & evaluations & upgraded & trimmed & new_config
        & Hfind & Hcb & Hfold & Hev & Hdrop & Hobj & Hw').
  rewrite conf_name_of_state in Hobj, Hw'.
  destruct (payload_upgrade_keeps _ _ _ _ _ _ _ Hfold Hdrop) as (Hd & Hk & _).
  exists old_text, old_config, evaluations, upgraded, trimmed, new_config.
  repeat (split; [assumption|]).
  eexists. split; [reflexivity|]. subst w'. cbn [files journal].
  split; [reflexivity|]. split; [reflexivity|]. split; [|split; [|split]].
  - rewrite find_delete_other.
    + apply find_store_same.
    + simpl. rewrite <- conf_name_of_state, String.eqb_sym.
      now apply conf_name_differs.
  - apply find_delete_same.
  - intros section key Hhas Hne. apply copy_sections_has. now rewrite Hk.
  - intros Hnd section items key text Hitems Hl.
    apply (copy_sections_value E trimmed new_config section items); try assumption.
    now rewrite Hd.
Qed.

Lemma legacy_file_removed_after_merge_witness :
  (exists later,
      journal (snd (convert_config_to_tribler71 Demo.default Demo.baseline
                      (Demo.dir [(Root "libtribler.conf", Demo.rejected_text);
                                 (Root "tribler.conf", Demo.tribler_text);
                                 (Checkpoint "x.state", Demo.good_state_text)])))
      = [Evaluated "9";
         Validated [("libtorrent", [("proxy_type", PInt 9); ("proxy_server", PStr "")]);
                    ("download_defaults", [("saveas", PStr "/tmp")])];
         Log_debug libtribler_label]
        ++ Removed (Root "libtribler.conf") :: later)
  /\ find_file (Root "libtribler.conf")
       (files (snd (convert_config_to_tribler71 Demo.default Demo.baseline
                      (Demo.dir [(Root "libtribler.conf", Demo.rejected_text);
                                 (Root "tribler.conf", Demo.tribler_text);
                                 (Checkpoint "x.state", Demo.good_state_text)]))))
     = None
  /\ (exists later,
         journal (snd (convert_config_to_tribler71 Demo.default Demo.baseline
                         (Demo.dir [(Root "libtribler.conf", Demo.rejected_text);
                                    (Root "tribler.conf", Demo.tribler_text);
                                    (Checkpoint "x.state", Demo.good_state_text)])))
         = [Evaluated "9";
            Validated [("libtorrent", [("proxy_type", PInt 9); ("proxy_server", PStr "")]);
                       ("download_defaults", [("saveas", PStr "/tmp")])];
            Log_debug libtribler_label;
            Removed (Root "libtribler.conf");
            Evaluated "3";
            Validated (Demo.baseline ++ [("typed", [("set_default_number_hops", PInt 3)])])]
           ++ Removed (Root "tribler.conf") :: later)
  /\ find_file (Root "tribler.conf")
       (files (snd (convert_config_to_tribler71 Demo.default Demo.baseline
                      (Demo.dir [(Root "libtribler.conf", Demo.rejected_text);
                                 (Root "tribler.conf", Demo.tribler_text);
                                 (Checkpoint "x.state", Demo.good_state_text)]))))
     = None.
Proof.
  destruct (legacy_file_removed_after_merge Demo.default Demo.baseline
              (Demo.dir [(Root "libtribler.conf", Demo.rejected_text);
                         (Root "tribler.conf", Demo.tribler_text);
                         (Checkpoint "x.state", Demo.good_state_text)]))
    as [Hlib Htrib].
  pose proof (Hlib Demo.rejected_text Demo.rejected_ini Demo.baseline
                (World [(Root "libtribler.conf", Demo.rejected_text);
                        (Root "tribler.conf", Demo.tribler_text);
                        (Checkpoint "x.state", Demo.good_state_text)]
                   [Evaluated "9";
                    Validated [("libtorrent",
                                [("proxy_type", PInt 9); ("proxy_server", PStr "")]);
                               ("download_defaults", [("saveas", PStr "/tmp")])];
                    Log_debug libtribler_label])
                eq_refl eq_refl eq_refl) as H.
  cbv zeta in H. destruct H as (H1 & H2 & _).
  pose proof (Htrib Demo.baseline
                (World [(Root "tribler.conf", Demo.tribler_text);
                        (Checkpoint "x.state", Demo.good_state_text)]
                   [Evaluated "9";
                    Validated [("libtorrent",
                                [("proxy_type", PInt 9); ("proxy_server", PStr "")]);
                               ("download_defaults", [("saveas", PStr "/tmp")])];
                    Log_debug libtribler_label;
                    Removed (Root "libtribler.conf")])
                Demo.tribler_text Demo.tribler_ini
                (Demo.baseline ++ [("typed", [("set_default_number_hops", PInt 3)])])
                (World [(Root "tribler.conf", Demo.tribler_text);
                        (Checkpoint "x.state", Demo.good_state_text)]
                   [Evaluated "9";
                    Validated [("libtorrent",
                                [("proxy_type", PInt 9); ("proxy_server", PStr "")]);
                               ("download_defaults", [("saveas", PStr "/tmp")])];
                    Log_debug libtribler_label;
                    Removed (Root "libtribler.conf");
                    Evaluated "3";
                    Validated (Demo.baseline
                               ++ [("typed", [("set_default_number_hops", PInt 3)])])])
                eq_refl eq_refl eq_refl eq_refl) as H.
  cbv zeta in H. destruct H as (H3 & H4 & _).
  repeat split; assumption.
Defined.

Lemma conf_written_before_state_removed_witness :
  exists old_text old_config evaluations upgraded trimmed new_config,
    find_file (Checkpoint "x.state") [(Checkpoint "x.state", Demo.good_state_text)]
    = Some old_text
    /\ callback_read Demo.default old_text = Ok old_config
    /\ foldM (upgrade_option Demo.default (Checkpoint "x.state"))
         [("state", "metainfo"); ("state", "engineresumedata")] old_config
         (Demo.dir [(Checkpoint "x.state", Demo.good_state_text)])
       = (Ok upgraded,
          World [(Checkpoint "x.state", Demo.good_state_text)] ([] ++ evaluations))
    /\ Forall is_evaluated evaluations
    /\ rc_drop_option "state" "dlstate" upgraded = Ok trimmed
    /\ configobj_read Demo.default
         (find_file (Checkpoint "x.conf")
            [(Checkpoint "x.state", Demo.good_state_text)]) = Ok new_config
    /\ exists written,
         written = copy_sections Demo.default trimmed new_config
         /\ journal (snd (convert_state_file Demo.default (Checkpoint "x.state")
                            (Demo.dir [(Checkpoint "x.state", Demo.good_state_text)])))
            = [] ++ evaluations ++
              [Written (Checkpoint "x.conf") (configobj_write Demo.default written);
               Removed (Checkpoint "x.state")]
         /\ files (snd (convert_state_file Demo.default (Checkpoint "x.state")
                          (Demo.dir [(Checkpoint "x.state", Demo.good_state_text)])))
            = delete_file (Checkpoint "x.state")
                (store_file (Checkpoint "x.conf")
                   (configobj_write Demo.default written)
                   [(Checkpoint "x.state", Demo.good_state_text)])
         /\ find_file (Checkpoint "x.conf")
              (files (snd (convert_state_file Demo.default (Checkpoint "x.state")
                             (Demo.dir [(Checkpoint "x.state", Demo.good_state_text)]))))
            = Some (configobj_write Demo.default written)
         /\ find_file (Checkpoint "x.state")
              (files (snd (convert_state_file Demo.default (Checkpoint "x.state")
                             (Demo.dir [(Checkpoint "x.state", Demo.good_state_text)]))))
            = None
         /\ (forall section key,
               rc_has_option section key old_config = true ->
               (section =? "state") && (key =? "dlstate") = false ->
               has_key section key written)
         /\ (NoDup (map fst (defaults old_config)) ->
             forall section items key text,
               rc_items section trimmed = Ok items ->
               lookup key items = Some text ->
               lookup2 section key written = Some (get_decoded Demo.default text)).
Proof.
  apply (conf_written_before_state_removed Demo.default "x"
           (Demo.dir [(Checkpoint "x.state", Demo.good_state_text)])
           (snd (convert_state_file Demo.default (Checkpoint "x.state")
                   (Demo.dir [(Checkpoint "x.state", Demo.good_state_text)])))
           eq_refl).
Defined.

(** A structural corruption: the file is removed, and an exception leaves
    the loop body all the same. *)
Lemma structural_corruption_escapes E name text w :
  find_file (Checkpoint name) (files w) = Some text ->
  callback_read E text = Raise MissingSectionHeaderError ->
  exists e,
    convert_state_file E (Checkpoint name) w
    = (Raise e,
       World (delete_file (Checkpoint name) (files w))
         (journal w ++ [Log_error corrupt_msg (Checkpoint name);
                        Removed (Checkpoint name)])).
Proof.
  intros Hf Hcb. unfold convert_state_file.
  set (w1 := World (delete_file (Checkpoint name) (files w))
               (journal w ++ [Log_error corrupt_msg (Checkpoint name);
                              Removed (Checkpoint name)])).
  destruct (upgrade_option_empty E (Checkpoint name) ("state", "metainfo") w1) as [e He].
  exists e.
  rewrite (bind_ok _ _ w empty_parser w1).
  - apply bind_raise. rewrite foldM_cons. now apply bind_raise.
  - unfold try_except, bind, read_file, lift, emit, os_remove, ret. rewrite Hf, Hcb.
    simpl. rewrite Hf. unfold w1. now rewrite <- app_assoc.
Qed.

(** A payload field that is not a literal: the exception of
    [ast.literal_eval] leaves the loop body, and the file stays. *)
Lemma undecodable_metainfo_escapes E name text old_config raw source e w :
  find_file (Checkpoint name) (files w) = Some text ->
  callback_read E text = Ok old_config ->
  get_raw E "state" "metainfo" old_config = Ok (PStr raw) ->
  refactor_string E (raw ++ newline)%string "metainfo_2to3" = Ok source ->
  literal_eval E source = Raise e ->
  convert_state_file E (Checkpoint name) w
  = (Raise e, World (files w) (journal w ++ [Evaluated source])).
Proof.
  intros Hf Hcb Hg Hr Hl. unfold convert_state_file.
  rewrite (bind_ok _ _ w old_config w)
    by (unfold try_except, bind, read_file, lift; now rewrite Hf, Hcb).
  apply bind_raise. rewrite foldM_cons. apply bind_raise.
  unfold upgrade_option.
  rewrite (bind_ok _ _ w (PStr raw) w) by (unfold lift; now rewrite Hg).
  rewrite (bind_ok _ _ w (raw ++ newline)%string w) by reflexivity.
  change ("metainfo" ++ "_2to3")%string with "metainfo_2to3".
  rewrite (bind_ok _ _ w source w) by (unfold lift; now rewrite Hr).
  apply bind_raise. unfold eval_literal, bind, emit, lift. now rewrite Hl.
Qed.

(** A payload field that cannot be re-encoded: the handler removes the file
    and goes on with the next field, and what follows cannot return, the
    last step being the removal of the same file. *)
Lemma failed_reencode_escapes E name text old_config raw source literal w :
  ends_with ".state" name = true ->
  find_file (Checkpoint name) (files w) = Some text ->
  callback_read E text = Ok old_config ->
  get_raw E "state" "metainfo" old_config = Ok (PStr raw) ->
  refactor_string E (raw ++ newline)%string "metainfo_2to3" = Ok source ->
  literal_eval E source = Ok literal ->
  bencode E (if truthy (recursive_ungarble_metainfo E literal)
             then recursive_ungarble_metainfo E literal
             else literal) = Raise ValueError ->
  exists e w', convert_state_file E (Checkpoint name) w = (Raise e, w').
Proof.
  intros Hext Hf Hcb Hg Hr Hl Hb.
  pose proof (conf_name_differs name Hext) as Hdiff.
  unfold convert_state_file.
  rewrite (bind_ok _ _ w old_config w)
    by (unfold try_except, bind, read_file, lift; now rewrite Hf, Hcb).
  assert (Hfirst : exists wa,
             upgrade_option E (Checkpoint name) old_config ("state", "metainfo") w
             = (Ok old_config, wa)
             /\ find_file (Checkpoint name) (files wa) = None).
  { unfold upgrade_option.
    rewrite (bind_ok _ _ w (PStr raw) w) by (unfold lift; now rewrite Hg).
    rewrite (bind_ok _ _ w (raw ++ newline)%string w) by reflexivity.
    change ("metainfo" ++ "_2to3")%string with "metainfo_2to3".
    rewrite (bind_ok _ _ w source w) by (unfold lift; now rewrite Hr).
    rewrite (bind_ok _ _ w literal (World (files w) (journal w ++ [Evaluated source])))
      by (unfold eval_literal, bind, emit, lift; now rewrite Hl).
    unfold try_except, reencode, bind, lift, ret, eval_literal, emit, os_remove.
    destruct (truthy (recursive_ungarble_metainfo E literal)); simpl.
    - rewrite Hb. simpl. rewrite Hf. eexists. split; [reflexivity|].
      simpl. apply find_delete_same.
    - rewrite Hl, Hb. simpl. rewrite Hf. eexists. split; [reflexivity|].
      simpl. apply find_delete_same. }
  destruct Hfirst as (wa & Hu1 & Habs).
  destruct (upgrade_option E (Checkpoint name) old_config
              ("state", "engineresumedata") wa) as [[c2|e] wb] eqn:Hu2.
  - pose proof (upgrade_option_absent _ _ _ _ _ _ _ Habs Hu2) as Habs2.
    assert (Hfold : foldM (upgrade_option E (Checkpoint name))
                      [("state", "metainfo"); ("state", "engineresumedata")] old_config w
                    = (Ok c2, wb)).
    { rewrite foldM_cons, (bind_ok _ _ _ _ _ Hu1).
      rewrite foldM_cons, (bind_ok _ _ _ _ _ Hu2). reflexivity. }
    rewrite (bind_ok _ _ _ _ _ Hfold).
    destruct (rc_drop_option_returns "state" "dlstate" c2) as (trimmed & Hdrop & _).
    rewrite (bind_ok _ _ wb trimmed wb) by (unfold lift; now rewrite Hdrop).
    unfold ret, bind, lift, write_file, os_remove. simpl.
    destruct (configobj_read E (find_file (Checkpoint (conf_name name)) (files wb)))
      as [new_config|e]; [|eauto].
    simpl. rewrite find_store_other by (simpl; exact Hdiff). rewrite Habs2. eauto.
  - assert (Hfold : foldM (upgrade_option E (Checkpoint name))
                      [("state", "metainfo"); ("state", "engineresumedata")] old_config w
                    = (Raise e, wb)).
    { rewrite foldM_cons, (bind_ok _ _ _ _ _ Hu1).
      rewrite foldM_cons. now apply bind_raise. }
    rewrite (bind_raise _ _ _ _ _ Hfold). eauto.
Qed.

(** An exception ends the whole scan: the files after the failing one are
    not visited. *)
Lemma scan_stops_at_first_exception E first others e w w' :
  glob ".state" w = (Ok (first :: others), w) ->
  convert_state_file E first w = (Raise e, w') ->
  convert_config_to_tribler74 E w = (Raise e, w').
Proof.
  intros Hg Hc. unfold convert_config_to_tribler74.
  rewrite (bind_ok _ _ _ _ _ Hg). now apply for_each_raise.
Qed.

(** C1: a checkpoint file that fails to migrate is not isolated.  In a
    directory [a.state], [x.state] where [x.state] is sound:
    with [a.state] lacking a section header, the file is logged and removed
    and then [TypeError] leaves [convert_config_to_tribler74];
    with a [metainfo] that is not a literal, [ValueError] leaves it and
    [a.state] is neither removed nor logged.
    In both runs [x.state] is left as it was, not migrated. *)
Theorem failed_file_aborts_the_scan :
  convert_config_to_tribler74 Demo.default
    (Demo.dir [(Checkpoint "a.state", Demo.headerless_text);
               (Checkpoint "x.state", Demo.good_state_text)])
  = (Raise TypeError,
     World [(Checkpoint "x.state", Demo.good_state_text)]
           [Log_error corrupt_msg (Checkpoint "a.state"); Removed (Checkpoint "a.state")])
  /\ convert_config_to_tribler74 Demo.default
       (Demo.dir [(Checkpoint "a.state", Demo.bad_metainfo_text);
                  (Checkpoint "x.state", Demo.good_state_text)])
     = (Raise ValueError,
        World [(Checkpoint "a.state", Demo.bad_metainfo_text);
               (Checkpoint "x.state", Demo.good_state_text)]
              [Evaluated ("{'info': broken}" ++ newline)%string]).
Proof. split; vm_compute; reflexivity. Qed.

(** ** [convert_config_to_tribler75] *)


(** A checkpoint with no selection, or with no metainfo, is left alone. *)
Lemma migrate_skips E filename text config download_defaults w :
  find_file filename (files w) = Some text ->
  download_load E text = Ok config ->
  getitem "download_defaults" config = Ok download_defaults ->
  truthy (selected_files_of download_defaults) = false
  \/ truthy (get_metainfo E config) = false ->
  migrate_selected_files E filename w = (Ok tt, w).
Proof.
  intros Hf Hl Hg Hskip. unfold migrate_selected_files.
  rewrite (bind_ok _ _ w text w) by (unfold read_file; now rewrite Hf).
  rewrite (bind_ok _ _ w config w) by (unfold lift; now rewrite Hl).
  rewrite (bind_ok _ _ w download_defaults w) by (unfold lift; now rewrite Hg).
  destruct Hskip as [H | H]; rewrite H; simpl.
  - reflexivity.
  - now rewrite orb_true_r.
Qed.

(** A checkpoint with a selection and metainfo: the selection is popped, its
    entries are resolved in order, and the record is written back. *)
Lemma migrate_converts E filename text config download_defaults table names indexes w :
  find_file filename (files w) = Some text ->
  download_load E text = Ok config ->
  getitem "download_defaults" config = Ok download_defaults ->
  truthy (selected_files_of download_defaults) = true ->
  truthy (get_metainfo E config) = true ->
  file_table E (get_metainfo E config) = Ok table ->
  py_iter (selected_files_of download_defaults) = Ok names ->
  map_result (get_index_of_file_in_files E table) names = Ok indexes ->
  let converted :=
    set_selected_files E indexes
      (assign "download_defaults" (discard "selected_files" download_defaults) config) in
  migrate_selected_files E filename w
  = (Ok tt,
     World (store_file filename (download_write E converted) (files w))
           (journal w ++ [Written filename (download_write E converted)])).
Proof.
  intros Hf Hl Hg Hs Hm Ht Hi Hx converted. unfold migrate_selected_files.
  rewrite (bind_ok _ _ w text w) by (unfold read_file; now rewrite Hf).
  rewrite (bind_ok _ _ w config w) by (unfold lift; now rewrite Hl).
  rewrite (bind_ok _ _ w download_defaults w) by (unfold lift; now rewrite Hg).
  rewrite Hs, Hm. cbn [negb orb].
  rewrite (bind_ok _ _ w table w) by (unfold lift; now rewrite Ht).
  rewrite (bind_ok _ _ w names w) by (unfold lift; now rewrite Hi).
  rewrite (bind_ok _ _ w indexes w) by (unfold lift; now rewrite Hx).
  reflexivity.
Qed.

(** A checkpoint with a selection and metainfo is never skipped, whatever
    the selection holds: the turn raises, or it writes the file. *)
Lemma unsettled_conf_is_processed E filename text config download_defaults w :
  find_file filename (files w) = Some text ->
  download_load E text = Ok config ->
  getitem "download_defaults" config = Ok download_defaults ->
  truthy (selected_files_of download_defaults) = true ->
  truthy (get_metainfo E config) = true ->
  (exists e, migrate_selected_files E filename w = (Raise e, w))
  \/ (exists written,
        migrate_selected_files E filename w
        = (Ok tt, World (store_file filename written (files w))
                    (journal w ++ [Written filename written]))).
Proof.
  intros Hf Hl Hg Hs Hm. unfold migrate_selected_files.
  rewrite (bind_ok _ _ w text w) by (unfold read_file; now rewrite Hf).
  rewrite (bind_ok _ _ w config w) by (unfold lift; now rewrite Hl).
  rewrite (bind_ok _ _ w download_defaults w) by (unfold lift; now rewrite Hg).
  rewrite Hs, Hm. cbn [negb orb]. unfold bind, lift, write_file.
  destruct (file_table E (get_metainfo E config)) as [table|e]; [|left; eauto].
  destruct (py_iter (selected_files_of download_defaults)) as [names|e];
    [|left; eauto].
  destruct (map_result (get_index_of_file_in_files E table) names) as [indexes|e];
    [|left; eauto].
  right. eauto.
Qed.

(** After the conversion the index list is under the key that
    [set_selected_files] assigns, and the path list is gone. *)
Lemma converted_holds_indexes E indexes download_defaults config :
  exists items,
    lookup "download_defaults"
      (set_selected_files E indexes
         (assign "download_defaults" (discard "selected_files" download_defaults) config))
    = Some items
    /\ lookup (selected_key E) items = Some (PList indexes)
    /\ ((selected_key E =? "selected_files") = false ->
        lookup "selected_files" items = None).
Proof.
  unfold set_selected_files, put2. rewrite !lookup_assign_same.
  eexists. split; [reflexivity|]. split.
  - apply lookup_assign_same.
  - intros Hne. rewrite lookup_assign_other by exact Hne.
    apply lookup_discard_same.
Qed.



(** *** Running the pipeline again *)

Lemma filter_none {A} (f : A -> bool) (l : list A) :
  (forall x, In x l -> f x = false) -> filter f l = [].
Proof.
  induction l as [|x l IH]; intros H; simpl; [reflexivity|].
  rewrite (H x) by now left. apply IH. intros y Hy. apply H. now right.
Qed.

Section Migrated.
Variable E : Env.
Variable settled : string -> bool.
Variable w : world.
Hypothesis Hmigrated : migrated_with settled w = true.

Lemma migrated_no_libtribler : find_file (Root "libtribler.conf") (files w) = None.
Proof.
  unfold migrated_with in Hmigrated.
  destruct (find_file (Root "libtribler.conf") (files w)); [discriminate|reflexivity].
Qed.

Lemma migrated_no_tribler : find_file (Root "tribler.conf") (files w) = None.
Proof.
  unfold migrated_with in Hmigrated.
  destruct (find_file (Root "libtribler.conf") (files w)); [discriminate|].
  destruct (find_file (Root "tribler.conf") (files w)); [discriminate|reflexivity].
Qed.

Lemma migrated_checkpoints p :
  In p (map fst (files w)) ->
  match p with
  | Checkpoint name =>
      ends_with ".state" name = false
      /\ (ends_with ".conf" name = true ->
          exists text, find_file p (files w) = Some text /\ settled text = true)
  | Root _ => True
  end.
Proof.
  intros Hin. unfold migrated_with in Hmigrated.
  destruct (find_file (Root "libtribler.conf") (files w)); [discriminate|].
  destruct (find_file (Root "tribler.conf") (files w)); [discriminate|].
  rewrite forallb_forall in Hmigrated. specialize (Hmigrated p Hin).
  destruct p as [r|name]; [exact I|].
  apply andb_true_iff in Hmigrated. destruct Hmigrated as [Hs Hc].
  split; [now apply negb_true_iff in Hs|].
  intros Hext. rewrite Hext in Hc.
  destruct (find_file (Checkpoint name) (files w)) as [text|]; [|discriminate].
  now exists text.
Qed.

Lemma migrated_no_state_file : glob ".state" w = (Ok [], w).
Proof.
  unfold glob. rewrite filter_none; [reflexivity|].
  intros p Hin. pose proof (migrated_checkpoints p Hin) as H.
  destruct p as [r|name]; [reflexivity|]. now destruct H.
Qed.

End Migrated.

(** [convert_config_to_tribler75] on a fully migrated directory. *)
Lemma settled_confs_are_skipped E w :
  fully_migrated E w = true -> convert_config_to_tribler75 E w = (Ok tt, w).
Proof.
  intros Hm. unfold convert_config_to_tribler75.
  destruct (glob_lists_checkpoints ".conf" w) as (l & Hg & _).
  rewrite (bind_ok _ _ _ _ _ Hg). apply for_each_idle.
  intros p Hin. unfold glob in Hg. inversion Hg as [Hl]. rewrite <- Hl in Hin.
  apply filter_In in Hin. destruct Hin as [Hin Hext].
  pose proof (migrated_checkpoints _ w Hm p Hin) as H.
  destruct p as [r|name]; [discriminate|]. destruct H as [_ H].
  destruct (H Hext) as (text & Hf & Hs). unfold conf_is_settled in Hs.
  destruct (download_load E text) as [config|] eqn:Hload; [|discriminate].
  destruct (getitem "download_defaults" config) as [dd|] eqn:Hdd; [|discriminate].
  apply (migrate_skips E _ text config dd); try assumption.
  apply orb_true_iff in Hs. destruct Hs as [Hs | Hs]; apply negb_true_iff in Hs; tauto.
Qed.

(** A legacy settings file that does not exist is not looked into. *)
Lemma absorb_legacy_absent E loc add current_config w :
  find_file loc (files w) = None ->
  absorb_legacy E loc add current_config w = (Ok current_config, w).
Proof. intros H. unfold absorb_legacy, bind, exists_file. now rewrite H. Qed.

(** C2, as amended: on a state directory with no [libtribler.conf], no
    [tribler.conf], no [.state] checkpoint, and whose [.conf] checkpoints all
    load with a [download_defaults] section and have an empty or missing
    [selected_files] or no metainfo, the three stages in a row return the
    settings object they were given and leave the world as it was: no file is
    written or removed and nothing is journalled. *)
Theorem rerun_is_a_noop :
  forall (E : Env) current_config w,
    fully_migrated E w = true ->
    full_pipeline E current_config w = (Ok current_config, w).
Proof.
  intros E current_config w Hm. unfold full_pipeline.
  assert (H71 : convert_config_to_tribler71 E current_config w = (Ok current_config, w)).
  { unfold convert_config_to_tribler71.
    rewrite (bind_ok _ _ w current_config w)
      by (apply absorb_legacy_absent, (migrated_no_libtribler _ w Hm)).
    rewrite (bind_ok _ _ w current_config w)
      by (apply absorb_legacy_absent, (migrated_no_tribler _ w Hm)).
    rewrite (bind_ok _ _ _ _ _ (migrated_no_state_file _ w Hm)).
    reflexivity. }
  rewrite (bind_ok _ _ _ _ _ H71).
  assert (H74 : convert_config_to_tribler74 E w = (Ok tt, w)).
  { unfold convert_config_to_tribler74.
    rewrite (bind_ok _ _ _ _ _ (migrated_no_state_file _ w Hm)). reflexivity. }
  rewrite (bind_ok _ _ _ _ _ H74).
  rewrite (bind_ok _ _ _ _ _ (settled_confs_are_skipped E w Hm)).
  reflexivity.
Qed.

Lemma rerun_is_a_noop_witness :
  full_pipeline Demo.default Demo.baseline
    (Demo.dir [(Checkpoint "a.conf", Demo.render Demo.conf_plain);
               (Checkpoint "notes.txt", "kept")])
  = (Ok Demo.baseline,
     Demo.dir [(Checkpoint "a.conf", Demo.render Demo.conf_plain);
               (Checkpoint "notes.txt", "kept")]).
Proof.
  apply (rerun_is_a_noop Demo.default Demo.baseline
           (Demo.dir [(Checkpoint "a.conf", Demo.render Demo.conf_plain);
                      (Checkpoint "notes.txt", "kept")])).
  vm_compute. reflexivity.
Defined.

(** A directory that is migrated when index lists count as migrated, on
    which the pipeline is not a no-op: [selected_files] holds [0, 2] and the
    torrent has metainfo, so the entries are looked up as paths again.  With a
    lookup that raises on an unknown name the pipeline raises; with one that
    returns [None] the file is rewritten with [None, None]. *)
Lemma rerun_on_index_list_is_not_a_noop :
  migrated_or_indexed Demo.default
    (Demo.dir [(Checkpoint "a.conf", Demo.render Demo.conf_indices)]) = true
  /\ full_pipeline Demo.default Demo.baseline
       (Demo.dir [(Checkpoint "a.conf", Demo.render Demo.conf_indices)])
     = (Raise ValueError, Demo.dir [(Checkpoint "a.conf", Demo.render Demo.conf_indices)])
  /\ full_pipeline (Demo.env "selected_files" (Ok PNone)) Demo.baseline
       (Demo.dir [(Checkpoint "a.conf", Demo.render Demo.conf_indices)])
     = (Ok Demo.baseline,
        World [(Checkpoint "a.conf",
                Demo.render [("download_defaults",
                              [("hops", PInt 0); ("selected_files", PList [PNone; PNone])]);
                             ("state", [("metainfo", PStr Demo.blob_abc)])])]
              [Written (Checkpoint "a.conf")
                 (Demo.render [("download_defaults",
                                [("hops", PInt 0);
                                 ("selected_files", PList [PNone; PNone])]);
                               ("state", [("metainfo", PStr Demo.blob_abc)])])]).
Proof. split; [|split]; vm_compute; reflexivity. Qed.

(** * Further properties *)

(** ** The loop of [convert_config_to_tribler71] over the [.state] files *)

Lemma discard_app {V} (k : string) (d1 d2 : list (string * V)) :
  discard k (d1 ++ d2) = discard k d1 ++ discard k d2.
Proof.
  induction d1 as [|[k0 v0] d1 IH]; simpl; [reflexivity|].
  destruct (k0 =? k); simpl; now rewrite IH.
Qed.

Lemma assign_app_last {V} (k : string) (v v' : V) (d : list (string * V)) :
  lookup k d = None -> assign k v (d ++ [(k, v')]) = d ++ [(k, v)].
Proof.
  induction d as [|[k0 v0] d IH]; simpl.
  - now rewrite String.eqb_refl.
  - destruct (k0 =? k); [discriminate|]. intros H. now rewrite IH.
Qed.

(** Lines 60-61: the options are set one by one in [download_defaults]. *)
Lemma fill_download_defaults (items acc : list (string * string)) (cfg : parser) w :
  lookup "download_defaults" (sections cfg) = Some acc ->
  foldM (fun c (download_item : string * string) =>
           lift (rc_set "download_defaults" (fst download_item) (snd download_item) c))
        items cfg w
  = (Ok (Parser (defaults cfg)
           (assign "download_defaults" (update acc items) (sections cfg))), w).
Proof.
  revert acc cfg. induction items as [|[k v] items IH]; intros acc cfg Hl.
  - simpl. unfold ret, update. simpl. rewrite assign_same_value by exact Hl.
    now destruct cfg.
  - rewrite foldM_cons.
    rewrite (bind_ok _ _ w
               (Parser (defaults cfg)
                  (assign "download_defaults" (assign k v acc) (sections cfg))) w)
      by (unfold lift, rc_set; simpl; now rewrite Hl).
    rewrite (IH (assign k v acc)) by apply lookup_assign_same.
    cbn [defaults sections]. now rewrite assign_assign.
Qed.

(** X1: a [.state] checkpoint that parses, has a [downloadconfig] section and
    no [download_defaults] section is rewritten by the loop of
    [convert_config_to_tribler71].  With the option names of [[DEFAULT]]
    distinct, the parser that is written back has a section
    [download_defaults], put last, whose own options are exactly the pairs
    that [items("downloadconfig")] returned: the options of [[DEFAULT]]
    first, with the value of [downloadconfig] where it has the option too,
    then the other options of [downloadconfig].  [downloadconfig] is gone,
    [[DEFAULT]] and every other section are as they were. *)
Theorem downloadconfig_is_renamed :
  forall (E : Env) name text cfg own w,
    find_file (Checkpoint name) (files w) = Some text ->
    raw_parse E text = Ok cfg ->
    lookup "downloadconfig" (sections cfg) = Some own ->
    lookup "download_defaults" (sections cfg) = None ->
    NoDup (map fst (defaults cfg)) ->
    let download_items := update (defaults cfg) own in
    let renamed :=
      Parser (defaults cfg)
        (discard "downloadconfig" (sections cfg)
         ++ [("download_defaults", download_items)]) in
    rc_items "downloadconfig" cfg = Ok download_items
    /\ rename_downloadconfig E (Checkpoint name) w
       = (Ok tt,
          World (store_file (Checkpoint name) (raw_write E renamed) (files w))
                (journal w ++ [Written (Checkpoint name) (raw_write E renamed)]))
    /\ lookup "download_defaults" (sections renamed) = Some download_items
    /\ lookup "downloadconfig" (sections renamed) = None
    /\ (forall section,
          (section =? "downloadconfig") = false ->
          (section =? "download_defaults") = false ->
          lookup section (sections renamed) = lookup section (sections cfg)).
Proof.
  intros E name text cfg own w Hf Hr Hdc Hdd Hnd download_items renamed.
  assert (Hitems : rc_items "downloadconfig" cfg = Ok download_items)
    by (unfold rc_items; now rewrite Hdc).
  split; [exact Hitems|]. split; [|split; [|split]].
  - unfold rename_downloadconfig.
    rewrite (bind_ok _ _ w cfg w)
      by (unfold try_except, bind, read_file, lift; now rewrite Hf, Hr).
    unfold try_except.
    rewrite (bind_ok _ _ w download_items w) by (unfold lift; now rewrite Hitems).
    rewrite (bind_ok _ _ w
               (Parser (defaults cfg) (sections cfg ++ [("download_defaults", [])])) w)
      by (unfold lift, rc_add_section; now rewrite Hdd).
    rewrite (bind_ok _ _ _ _ _
               (fill_download_defaults download_items []
                  (Parser (defaults cfg) (sections cfg ++ [("download_defaults", [])])) w
                  ltac:(cbn [sections]; rewrite lookup_app_last, Hdd; reflexivity))).
    cbn [defaults sections]. unfold rc_remove_section. cbn [defaults sections].
    rewrite update_nil_distinct by (apply nodup_update; exact Hnd).
    rewrite assign_app_last by exact Hdd. rewrite discard_app. reflexivity.
  - unfold renamed. cbn [sections]. rewrite lookup_app_last.
    rewrite lookup_discard_other by reflexivity. now rewrite Hdd.
  - unfold renamed. cbn [sections]. rewrite lookup_app_last.
    now rewrite lookup_discard_same.
  - intros section Hs1 Hs2. unfold renamed. cbn [sections]. rewrite lookup_app_last.
    rewrite lookup_discard_other by (rewrite String.eqb_sym; exact Hs1).
    destruct (lookup section (sections cfg)); [reflexivity|].
    rewrite String.eqb_sym, Hs2. reflexivity.
Qed.

Lemma downloadconfig_is_renamed_witness :
  rename_downloadconfig Samples.env (Checkpoint "x.state")
    (Demo.dir [(Checkpoint "x.state", Samples.inherited_text)])
  = (Ok tt,
     World [(Checkpoint "x.state",
             Demo.render_parser
               (Parser [("hops", "1"); ("saveas", "/home")]
                  [("state", [("version", "1")]);
                   ("download_defaults", [("hops", "1"); ("saveas", "/tmp")])]))]
           [Written (Checkpoint "x.state")
              (Demo.render_parser
                 (Parser [("hops", "1"); ("saveas", "/home")]
                    [("state", [("version", "1")]);
                     ("download_defaults", [("hops", "1"); ("saveas", "/tmp")])]))]).
Proof.
  apply (proj1 (proj2 (downloadconfig_is_renamed Samples.env "x.state"
                  Samples.inherited_text Samples.inherited_parser
                  [("saveas", "/tmp")]
                  (Demo.dir [(Checkpoint "x.state", Samples.inherited_text)])
                  eq_refl eq_refl eq_refl eq_refl
                  ltac:(repeat constructor; simpl; intuition discriminate)))).
Defined.

(** X2: the loop of [convert_config_to_tribler71] leaves a [.state] checkpoint
    that parses exactly as it is, without writing it, when it has no
    [downloadconfig] section, and also when it has both a [downloadconfig]
    and a [download_defaults] section: in that case the options of
    [downloadconfig] are not carried over. *)
Theorem renamed_or_mixed_file_is_left_alone :
  forall (E : Env) name text cfg w,
    find_file (Checkpoint name) (files w) = Some text ->
    raw_read E text = Ok cfg ->
    lookup "downloadconfig" cfg = None
    \/ (exists items, lookup "download_defaults" cfg = Some items) ->
    rename_downloadconfig E (Checkpoint name) w = (Ok tt, w).
Proof.
  intros E name text cfg w Hf Hr Hcase.
  apply raw_read_ok in Hr. destruct Hr as (parsed & Hp & ->).
  rewrite !lookup_listing in Hcase. unfold rc_items in Hcase.
  unfold rename_downloadconfig.
  rewrite (bind_ok _ _ w parsed w)
    by (unfold try_except, bind, read_file, lift; now rewrite Hf, Hp).
  unfold try_except, bind, lift, rc_items, rc_add_section.
  destruct (lookup "downloadconfig" (sections parsed)) as [items|] eqn:Hdc.
  - destruct Hcase as [Hcase | [dd Hdd]]; [discriminate|].
    destruct (lookup "download_defaults" (sections parsed)); [reflexivity|discriminate].
  - reflexivity.
Qed.

Lemma renamed_or_mixed_file_is_left_alone_witness :
  rename_downloadconfig Samples.env (Checkpoint "y.state")
    (Demo.dir [(Checkpoint "y.state", Samples.half_renamed_text)])
  = (Ok tt, Demo.dir [(Checkpoint "y.state", Samples.half_renamed_text)])
  /\ rename_downloadconfig Samples.env (Checkpoint "x.state")
       (Demo.dir [(Checkpoint "x.state", Demo.good_state_text)])
     = (Ok tt, Demo.dir [(Checkpoint "x.state", Demo.good_state_text)]).
Proof.
  split.
  - apply (renamed_or_mixed_file_is_left_alone Samples.env "y.state"
             Samples.half_renamed_text Samples.half_renamed_ini
             (Demo.dir [(Checkpoint "y.state", Samples.half_renamed_text)])
             eq_refl eq_refl).
    right. exists [("hops", "1")]. reflexivity.
  - apply (renamed_or_mixed_file_is_left_alone Samples.env "x.state"
             Demo.good_state_text Demo.good_state_ini
             (Demo.dir [(Checkpoint "x.state", Demo.good_state_text)])
             eq_refl eq_refl).
    left. reflexivity.
Defined.

(** X3: a legacy settings file that [RawConfigParser.read] cannot parse ends
    [convert_config_to_tribler71] with the parser's exception before anything
    is done: the file stays, no other file is read or touched, nothing is
    journalled.  This holds for [libtribler.conf], and for [tribler.conf]
    when there is no [libtribler.conf]. *)
Theorem unreadable_legacy_file_aborts :
  forall (E : Env) current_config text e w,
    raw_read E text = Raise e ->
    (find_file (Root "libtribler.conf") (files w) = Some text ->
     convert_config_to_tribler71 E current_config w = (Raise e, w))
    /\ (find_file (Root "libtribler.conf") (files w) = None ->
        find_file (Root "tribler.conf") (files w) = Some text ->
        convert_config_to_tribler71 E current_config w = (Raise e, w)).
Proof.
  intros E current_config text e w Hr.
  assert (Habsorb : forall loc add c,
             find_file loc (files w) = Some text ->
             absorb_legacy E loc add c w = (Raise e, w)).
  { intros loc add c Hf. unfold absorb_legacy.
    rewrite (bind_ok _ _ w true w) by (unfold exists_file; now rewrite Hf).
    cbv beta iota.
    rewrite (bind_ok _ _ w text w) by (unfold read_file; now rewrite Hf).
    apply bind_raise. unfold lift. now rewrite Hr. }
  split.
  - intros Hf. unfold convert_config_to_tribler71. apply bind_raise. now apply Habsorb.
  - intros Hnone Hf. unfold convert_config_to_tribler71.
    rewrite (bind_ok _ _ w current_config w) by now apply absorb_legacy_absent.
    apply bind_raise. now apply Habsorb.
Qed.

Lemma unreadable_legacy_file_aborts_witness :
  convert_config_to_tribler71 Demo.default Demo.baseline
    (Demo.dir [(Root "libtribler.conf", Demo.headerless_text);
               (Root "tribler.conf", Demo.tribler_text)])
  = (Raise MissingSectionHeaderError,
     Demo.dir [(Root "libtribler.conf", Demo.headerless_text);
               (Root "tribler.conf", Demo.tribler_text)]).
Proof.
  apply (proj1 (unreadable_legacy_file_aborts Demo.default Demo.baseline
                  Demo.headerless_text MissingSectionHeaderError
                  (Demo.dir [(Root "libtribler.conf", Demo.headerless_text);
                             (Root "tribler.conf", Demo.tribler_text)])
                  eq_refl)).
  reflexivity.
Defined.

Lemma path_eqb_false p q : p <> q -> path_eqb p q = false.
Proof.
  intros Hne. destruct (path_eqb p q) eqn:H; [|reflexivity].
  apply path_eqb_eq in H. contradiction.
Qed.

Lemma find_file_in p fs :
  In p (map fst fs) -> exists text, find_file p fs = Some text.
Proof.
  induction fs as [|[q text] fs IH]; simpl; [tauto|]. intros [Heq | Hin].
  - subst q. rewrite path_eqb_refl. now exists text.
  - destruct (path_eqb q p); [now exists text|auto].
Qed.

Lemma find_file_some_in p fs text :
  find_file p fs = Some text -> In p (map fst fs).
Proof.
  induction fs as [|[q t] fs IH]; simpl; [discriminate|].
  destruct (path_eqb q p) eqn:Hq.
  - apply path_eqb_eq in Hq. now left.
  - intros H. right. auto.
Qed.

(** A turn of the loop on a file that parses, or that has no section header,
    returns; it touches no other file, and it removes the file without a
    header. *)
Lemma rename_downloadconfig_returns E x text w :
  find_file x (files w) = Some text ->
  (exists cfg, raw_read E text = Ok cfg)
  \/ raw_read E text = Raise MissingSectionHeaderError ->
  exists w',
    rename_downloadconfig E x w = (Ok tt, w')
    /\ (forall q, path_eqb x q = false -> find_file q (files w') = find_file q (files w))
    /\ (raw_read E text = Raise MissingSectionHeaderError ->
        find_file x (files w') = None).
Proof.
  intros Hf [[listed Hr] | Hr]; unfold rename_downloadconfig.
  - pose proof Hr as Hp. apply raw_read_ok in Hp. destruct Hp as (cfg & Hp & _).
    rewrite (bind_ok _ _ w cfg w)
      by (unfold try_except, bind, read_file, lift; now rewrite Hf, Hp).
    unfold try_except at 1.
    destruct (lookup "downloadconfig" (sections cfg)) as [own|] eqn:Hdc.
    + rewrite (bind_ok _ _ w (update (defaults cfg) own) w)
        by (unfold lift, rc_items; now rewrite Hdc).
      destruct (lookup "download_defaults" (sections cfg)) as [dd|] eqn:Hdd.
      * rewrite (bind_raise _ _ w DuplicateSectionError w)
          by (unfold lift, rc_add_section; now rewrite Hdd).
        eexists. split; [reflexivity|]. split; [reflexivity|]. congruence.
      * rewrite (bind_ok _ _ w
                   (Parser (defaults cfg) (sections cfg ++ [("download_defaults", [])])) w)
          by (unfold lift, rc_add_section; now rewrite Hdd).
        rewrite (bind_ok _ _ _ _ _
                   (fill_download_defaults (update (defaults cfg) own) []
                      (Parser (defaults cfg)
                         (sections cfg ++ [("download_defaults", [])])) w
                      ltac:(cbn [sections]; rewrite lookup_app_last, Hdd; reflexivity))).
        eexists. split; [reflexivity|]. split; [|congruence].
        intros q Hq. simpl. now apply find_store_other.
    + rewrite (bind_raise _ _ w NoSectionError w)
        by (unfold lift, rc_items; now rewrite Hdc).
      eexists. split; [reflexivity|]. split; [reflexivity|]. congruence.
  - pose proof Hr as Hp. apply raw_read_raise in Hp.
    rewrite (bind_ok _ _ w empty_parser
               (World (delete_file x (files w))
                  ((journal w ++ [Log_error corrupt_msg x]) ++ [Removed x]))).
    + eexists. split; [reflexivity|]. split.
      * intros q Hq. simpl. now apply find_delete_other.
      * intros _. simpl. apply find_delete_same.
    + unfold try_except, bind, read_file, lift, emit, os_remove, ret.
      rewrite Hf, Hp. simpl. now rewrite Hf.
Qed.

Lemma rename_loop_returns E l :
  forall w,
    NoDup l ->
    (forall x, In x l ->
       exists text,
         find_file x (files w) = Some text
         /\ ((exists cfg, raw_read E text = Ok cfg)
             \/ raw_read E text = Raise MissingSectionHeaderError)) ->
    exists w',
      for_each (rename_downloadconfig E) l w = (Ok tt, w')
      /\ (forall q, ~ In q l -> find_file q (files w') = find_file q (files w))
      /\ (forall x text,
            In x l ->
            find_file x (files w) = Some text ->
            raw_read E text = Raise MissingSectionHeaderError ->
            find_file x (files w') = None).
Proof.
  induction l as [|x l IH]; intros w Hnd Hall.
  - exists w. split; [reflexivity|]. split; [reflexivity|]. intros x text [].
  - inversion Hnd as [|? ? Hnotin Hnd']; subst.
    destruct (Hall x (or_introl eq_refl)) as (text & Hf & Hcond).
    destruct (rename_downloadconfig_returns E x text w Hf Hcond)
      as (w1 & Hbody & Hframe & Hgone).
    assert (Hother : forall y, In y l -> find_file y (files w1) = find_file y (files w)).
    { intros y Hy. apply Hframe. apply path_eqb_false. intros ->. contradiction. }
    destruct (IH w1 Hnd') as (w' & Hloop & Hframe' & Hgone').
    { intros y Hy. rewrite (Hother y Hy). apply Hall. now right. }
    exists w'. split; [|split].
    + simpl. now rewrite (bind_ok _ _ _ _ _ Hbody).
    + intros q Hq. rewrite Hframe' by (intros Hin; apply Hq; now right).
      apply Hframe. apply path_eqb_false. intros ->. apply Hq. now left.
    + intros y ytext [-> | Hy] Hfy Hry.
      * rewrite Hframe' by exact Hnotin. apply Hgone. congruence.
      * apply (Hgone' y ytext Hy); [|exact Hry]. now rewrite (Hother y Hy).
Qed.

(** X4: the scan of [convert_config_to_tribler71] does isolate a corrupt
    checkpoint.  On a state directory with no legacy settings file, whose
    [.state] checkpoints each parse or have no section header,
    [convert_config_to_tribler71] returns the settings it was given; every
    [.state] file without a section header is removed, and no file other
    than the [.state] checkpoints is touched. *)
Theorem state_scan_survives_corrupt_files :
  forall (E : Env) current_config w,
    NoDup (map fst (files w)) ->
    find_file (Root "libtribler.conf") (files w) = None ->
    find_file (Root "tribler.conf") (files w) = None ->
    (forall name text,
        find_file (Checkpoint name) (files w) = Some text ->
        ends_with ".state" name = true ->
        (exists cfg, raw_read E text = Ok cfg)
        \/ raw_read E text = Raise MissingSectionHeaderError) ->
    exists w',
      convert_config_to_tribler71 E current_config w = (Ok current_config, w')
      /\ (forall name text,
            find_file (Checkpoint name) (files w) = Some text ->
            ends_with ".state" name = true ->
            raw_read E text = Raise MissingSectionHeaderError ->
            find_file (Checkpoint name) (files w') = None)
      /\ (forall q, is_state_file q = false ->
            find_file q (files w') = find_file q (files w)).
Proof.
  intros E current_config w Hnd Hlib Htrib Hall.
  set (l := filter (fun p => match p with
                             | Checkpoint name => ends_with ".state" name
                             | Root _ => false
                             end) (map fst (files w))).
  assert (Hin : forall q, In q l <-> In q (map fst (files w)) /\ is_state_file q = true).
  { intros q. unfold l. rewrite filter_In. unfold is_state_file. reflexivity. }
  destruct (rename_loop_returns E l w) as (w' & Hloop & Hframe & Hgone).
  { unfold l. now apply NoDup_filter. }
  { intros x Hx. apply Hin in Hx. destruct Hx as [Hx Hs].
    destruct (find_file_in x (files w) Hx) as [text Hf]. exists text. split; [exact Hf|].
    destruct x as [r|name]; [discriminate|]. now apply (Hall name text). }
  exists w'. split; [|split].
  - unfold convert_config_to_tribler71.
    rewrite (bind_ok _ _ w current_config w) by now apply absorb_legacy_absent.
    rewrite (bind_ok _ _ w current_config w) by now apply absorb_legacy_absent.
    rewrite (bind_ok _ _ w l w) by reflexivity.
    now rewrite (bind_ok _ _ _ _ _ Hloop).
  - intros name text Hf Hs Hr. apply (Hgone (Checkpoint name) text); try assumption.
    apply Hin. split; [|exact Hs]. eapply find_file_some_in. exact Hf.
  - intros q Hq. apply Hframe. intros Hc. apply Hin in Hc. destruct Hc as [_ Hc].
    congruence.
Qed.

Lemma state_scan_survives_corrupt_files_witness :
  exists w',
    convert_config_to_tribler71 Samples.env Demo.baseline
      (Demo.dir [(Checkpoint "a.state", Demo.headerless_text);
                 (Checkpoint "x.state", Samples.legacy_state_text);
                 (Checkpoint "a.conf", "kept")])
    = (Ok Demo.baseline, w')
    /\ find_file (Checkpoint "a.state") (files w') = None
    /\ find_file (Checkpoint "a.conf") (files w') = Some "kept".
Proof.
  destruct (state_scan_survives_corrupt_files Samples.env Demo.baseline
              (Demo.dir [(Checkpoint "a.state", Demo.headerless_text);
                         (Checkpoint "x.state", Samples.legacy_state_text);
                         (Checkpoint "a.conf", "kept")]))
    as (w' & Hrun & Hgone & Hframe).
  - repeat constructor; simpl; intuition discriminate.
  - reflexivity.
  - reflexivity.
  - intros name text Hf Hs. unfold Demo.dir in Hf.
    cbn [files find_file path_eqb] in Hf.
    destruct ("a.state" =? name)%string; [inversion Hf; right; reflexivity|].
    destruct ("x.state" =? name)%string; [inversion Hf; left; eexists; reflexivity|].
    destruct ("a.conf" =? name)%string eqn:Hc; [|discriminate].
    apply String.eqb_eq in Hc. subst name. discriminate.
  - exists w'. split; [exact Hrun|]. split.
    + apply (Hgone "a.state" Demo.headerless_text); reflexivity.
    + rewrite (Hframe (Checkpoint "a.conf")) by reflexivity. reflexivity.
Defined.

(** ** More on the merges *)

Lemma at_field_true section name s n :
  at_field section name s n = true -> (section, name) = (s, n).
Proof.
  unfold at_field. intros H. apply andb_true_iff in H. destruct H as [H1 H2].
  apply String.eqb_eq in H1, H2. now subst.
Qed.

Ltac known_field Hnot :=
  exfalso;
  match goal with
  | H : at_field _ _ _ _ = true |- _ =>
      apply at_field_true in H; apply Hnot; rewrite H;
      repeat (first [left; reflexivity | right])
  end.

(** A pair that the chain does not test falls through it. *)
Lemma libtribler_unmapped E section name value c :
  ~ In (section, name) libtribler_fields ->
  libtribler_mutations E section name value c = Ok c.
Proof.
  intros Hnot. unfold libtribler_mutations. cbv zeta.
  repeat match goal with
         | |- context [at_field section name ?s ?n] =>
             destruct (at_field section name s n) eqn:?; [known_field Hnot|]
         end.
  reflexivity.
Qed.

Lemma tribler_unmapped E section name value c :
  ~ In (section, name) tribler_fields ->
  tribler_mutations E section name value c = Ok c.
Proof.
  intros Hnot. unfold tribler_mutations. cbv zeta.
  repeat match goal with
         | |- context [at_field section name ?s ?n] =>
             destruct (at_field section name s n) eqn:?; [known_field Hnot|]
         end.
  reflexivity.
Qed.

Lemma tribler_direct_sound E name value c :
  In name tribler_direct ->
  tribler_mutations E "downloadconfig" name value c
  = setitem2 "download_defaults" name value c.
Proof.
  unfold tribler_direct. intros Hin.
  repeat (destruct Hin as [Heq | Hin];
          [subst name; unfold tribler_mutations; cbn;
           destruct (setitem2 _ _ value c); reflexivity|]).
  destruct Hin.
Qed.

(** The turn of the loop once the field is decoded and the dispatch has
    answered. *)
Lemma merge_field_decoded E (mutations : dispatch) label section name string_value
    value config w w1 :
  (string_value =? "None") = false ->
  decode E string_value w = (Ok value, w1) ->
  merge_field E mutations label section config (name, string_value) w
  = match mutations section name value (copy config) with
    | Ok temp_config => adopt E label temp_config config w1
    | Raise e => (Raise e, w1)
    end.
Proof.
  intros Hn Hd. rewrite merge_field_step by assumption.
  unfold candidate, bind at 1. unfold bind at 1. rewrite Hd. unfold lift.
  destruct (mutations section name value (copy config)); reflexivity.
Qed.

Lemma adopt_unchanged E label config w :
  adopt E label config config w
  = (Ok config,
     World (files w)
       (journal w ++ Validated config ::
          (if validate E config then [] else [Log_debug label]))).
Proof.
  destruct (validate E config) eqn:Hv.
  - now rewrite adopt_valid.
  - rewrite adopt_invalid by assumption. now rewrite <- app_assoc.
Qed.

(** X5: a legacy field that neither merge knows is ignored, yet not for free.
    For a field that is not "None" and decodes, with a (section, field) pair
    outside the pairs [add_tribler_config] (resp. [add_libtribler_config])
    tests, the turn of the loop returns the baseline unchanged, whether
    [validate] accepts the baseline or not; [validate] is still called on
    the untouched copy, and a baseline that is itself invalid gets a debug
    line for every such field. *)
Theorem unmapped_field_is_ignored :
  forall (E : Env) section name string_value value config w w1,
    (string_value =? "None") = false ->
    decode E string_value w = (Ok value, w1) ->
    (~ In (section, name) tribler_fields ->
     merge_field E (tribler_mutations E) tribler_label section config
       (name, string_value) w
     = (Ok config,
        World (files w1)
          (journal w1 ++ Validated config ::
             (if validate E config then [] else [Log_debug tribler_label]))))
    /\ (~ In (section, name) libtribler_fields ->
        merge_field E (libtribler_mutations E) libtribler_label section config
          (name, string_value) w
        = (Ok config,
           World (files w1)
             (journal w1 ++ Validated config ::
                (if validate E config then [] else [Log_debug libtribler_label])))).
Proof.
  intros E section name sv value config w w1 Hn Hd. split; intros Hnot.
  - rewrite (merge_field_decoded E _ _ _ _ _ value _ _ w1 Hn Hd).
    rewrite tribler_unmapped by assumption. apply adopt_unchanged.
  - rewrite (merge_field_decoded E _ _ _ _ _ value _ _ w1 Hn Hd).
    rewrite libtribler_unmapped by assumption. apply adopt_unchanged.
Qed.

Lemma unmapped_field_is_ignored_witness :
  merge_field Demo.default (tribler_mutations Demo.default) tribler_label
    "libtorrent" Demo.unchecked ("lt_proxytype", "3") (Demo.dir [])
  = (Ok Demo.unchecked,
     World [] [Evaluated "3"; Validated Demo.unchecked; Log_debug tribler_label])
  /\ merge_field Demo.default (libtribler_mutations Demo.default) libtribler_label
       "Tribler" Demo.baseline ("default_number_hops", "3") (Demo.dir [])
     = (Ok Demo.baseline, World [] [Evaluated "3"; Validated Demo.baseline]).
Proof.
  split.
  - apply (proj1 (unmapped_field_is_ignored Demo.default "libtorrent" "lt_proxytype"
                    "3" (PInt 3) Demo.unchecked (Demo.dir []) (World [] [Evaluated "3"])
                    eq_refl eq_refl)).
    simpl. intuition discriminate.
  - apply (proj2 (unmapped_field_is_ignored Demo.default "Tribler"
                    "default_number_hops" "3" (PInt 3) Demo.baseline (Demo.dir [])
                    (World [] [Evaluated "3"]) eq_refl eq_refl)).
    simpl. intuition discriminate.
Defined.

(** X6: the direct assignments need their section.  When the settings have no
    [download_defaults] section, a field [saveas], [seeding_mode],
    [seeding_ratio], [seeding_time] or [version] of section [downloadconfig]
    makes [add_tribler_config] raise [KeyError]; when they have no
    [libtorrent] section, a directly assigned field of section [libtorrent]
    does the same to [add_libtribler_config].  The exception is raised after
    the field is decoded and before [validate] is called, it is not caught,
    and the merge returns no settings. *)
Theorem direct_assignment_needs_its_section :
  forall (E : Env) name string_value value config w w1,
    (string_value =? "None") = false ->
    decode E string_value w = (Ok value, w1) ->
    (In name tribler_direct ->
     lookup "download_defaults" config = None ->
     add_tribler_config E config [("downloadconfig", [(name, string_value)])] w
     = (Raise KeyError, w1))
    /\ (forall key,
          In (name, key) libtribler_direct ->
          lookup "libtorrent" config = None ->
          add_libtribler_config E config [("libtorrent", [(name, string_value)])] w
          = (Raise KeyError, w1)).
Proof.
  intros E name sv value config w w1 Hn Hd. split.
  - intros Hin Hl. unfold add_tribler_config, merge. rewrite foldM_cons.
    apply bind_raise. unfold merge_section. cbn [fst snd]. rewrite foldM_cons.
    apply bind_raise.
    rewrite (merge_field_decoded E _ _ _ _ _ value _ _ w1 Hn Hd).
    rewrite tribler_direct_sound by assumption.
    unfold setitem2, copy. now rewrite Hl.
  - intros key Hin Hl. unfold add_libtribler_config, merge. rewrite foldM_cons.
    apply bind_raise. unfold merge_section. cbn [fst snd]. rewrite foldM_cons.
    apply bind_raise.
    rewrite (merge_field_decoded E _ _ _ _ _ value _ _ w1 Hn Hd).
    rewrite (libtribler_direct_sound E name key) by assumption.
    unfold setitem2, copy. now rewrite Hl.
Qed.

Lemma direct_assignment_needs_its_section_witness :
  add_tribler_config Demo.default [("libtorrent", [])]
    [("downloadconfig", [("seeding_ratio", "3")])] (Demo.dir [])
  = (Raise KeyError, World [] [Evaluated "3"])
  /\ add_libtribler_config Demo.default [("download_defaults", [])]
       [("libtorrent", [("lt_proxytype", "3")])] (Demo.dir [])
     = (Raise KeyError, World [] [Evaluated "3"]).
Proof.
  split.
  - apply (proj1 (direct_assignment_needs_its_section Demo.default "seeding_ratio" "3"
                    (PInt 3) [("libtorrent", [])] (Demo.dir []) (World [] [Evaluated "3"])
                    eq_refl eq_refl)).
    + simpl. tauto.
    + reflexivity.
  - apply (proj2 (direct_assignment_needs_its_section Demo.default "lt_proxytype" "3"
                    (PInt 3) [("download_defaults", [])] (Demo.dir [])
                    (World [] [Evaluated "3"]) eq_refl eq_refl) "proxy_type").
    + simpl. tauto.
    + reflexivity.
Defined.

(** X7: a value that is not a Python literal is merged as the text it is.
    When [ast.literal_eval] raises [ValueError] or [SyntaxError] on the raw
    string of a directly assigned [downloadconfig] field (a path such as
    /home/user, say), and the settings so changed pass [validate],
    [add_tribler_config]'s turn returns the settings with the raw string under
    the field's name in [download_defaults]. *)
Theorem non_literal_is_merged_as_text :
  forall (E : Env) name string_value items config w,
    (string_value =? "None") = false ->
    literal_eval E string_value = Raise ValueError
    \/ literal_eval E string_value = Raise SyntaxError ->
    In name tribler_direct ->
    lookup "download_defaults" config = Some items ->
    validate E (assign "download_defaults" (assign name (PStr string_value) items) config)
    = true ->
    merge_field E (tribler_mutations E) tribler_label "downloadconfig" config
      (name, string_value) w
    = (Ok (assign "download_defaults" (assign name (PStr string_value) items) config),
       World (files w)
         (journal w ++
            [Evaluated string_value;
             Validated (assign "download_defaults"
                          (assign name (PStr string_value) items) config)])).
Proof.
  intros E name sv items config w Hn Hlit Hin Hl Hv.
  assert (Hd : decode E sv w = (Ok (PStr sv), World (files w) (journal w ++ [Evaluated sv]))).
  { unfold decode, try_except, bind, emit, lift, ret.
    destruct Hlit as [-> | ->]; reflexivity. }
  rewrite (merge_field_decoded E _ _ _ _ _ (PStr sv) _ _ _ Hn Hd).
  rewrite tribler_direct_sound by assumption.
  unfold setitem2, copy. rewrite Hl. rewrite adopt_valid by assumption.
  simpl. now rewrite <- app_assoc.
Qed.

Lemma non_literal_is_merged_as_text_witness :
  merge_field Demo.default (tribler_mutations Demo.default) tribler_label
    "downloadconfig" Demo.baseline ("saveas", "/home/user") (Demo.dir [])
  = (Ok [("libtorrent", [("proxy_type", PInt 0); ("proxy_server", PStr "")]);
         ("download_defaults", [("saveas", PStr "/home/user")])],
     World [] [Evaluated "/home/user";
               Validated [("libtorrent", [("proxy_type", PInt 0);
                                          ("proxy_server", PStr "")]);
                          ("download_defaults", [("saveas", PStr "/home/user")])]]).
Proof.
  apply (non_literal_is_merged_as_text Demo.default "saveas" "/home/user"
           [("saveas", PStr "/tmp")] Demo.baseline (Demo.dir []) eq_refl).
  - left. reflexivity.
  - simpl. tauto.
  - reflexivity.
  - reflexivity.
Defined.

(** What one turn of a merge does to the world. *)
Lemma only_merges_refl w : only_merges w w.
Proof. split; [reflexivity|]. exists []. split; [now rewrite app_nil_r|constructor]. Qed.

Lemma only_merges_trans w1 w2 w3 :
  only_merges w1 w2 -> only_merges w2 w3 -> only_merges w1 w3.
Proof.
  intros [F1 (l1 & J1 & E1)] [F2 (l2 & J2 & E2)]. split; [now rewrite F2|].
  exists (l1 ++ l2). split; [rewrite J2, J1; now rewrite app_assoc|].
  apply Forall_app. now split.
Qed.

Lemma only_merges_emit ev : is_merge_event ev -> respects only_merges (emit ev).
Proof.
  intros Hev w. unfold emit. simpl. split; [reflexivity|].
  exists [ev]. split; [reflexivity|]. now constructor.
Qed.

Lemma merge_field_only_merges E mutations label section config item :
  respects only_merges (merge_field E mutations label section config item).
Proof.
  destruct item as [name string_value]. unfold merge_field.
  destruct (string_value =? "None"); [apply respects_ret, only_merges_refl|].
  apply (respects_bind _ only_merges_trans).
  - unfold candidate. apply (respects_bind _ only_merges_trans).
    + unfold decode. apply (respects_try_except _ only_merges_trans).
      * apply (respects_bind _ only_merges_trans).
        -- now apply only_merges_emit.
        -- intros _. apply respects_lift, only_merges_refl.
      * intros e h He. destruct e; inversion He; apply respects_ret, only_merges_refl.
    + intros value. apply respects_lift, only_merges_refl.
  - intros temp. unfold adopt. apply (respects_try_except _ only_merges_trans).
    + apply (respects_bind _ only_merges_trans).
      * now apply only_merges_emit.
      * intros _. destruct (validate E temp).
        -- apply respects_ret, only_merges_refl.
        -- apply respects_raise, only_merges_refl.
    + intros e h He. destruct e; inversion He.
      apply (respects_bind _ only_merges_trans).
      * now apply only_merges_emit.
      * intros _. apply respects_ret, only_merges_refl.
Qed.

(** X8: the merges work on the settings only.  Whether [add_tribler_config]
    or [add_libtribler_config] returns or raises, the files of the state
    directory are as they were, and all that was done besides is calls of
    [ast.literal_eval] and of [validate] and debug lines: no file is written
    or removed and no error is logged. *)
Theorem merges_only_journal :
  forall (E : Env) new_config old_config w,
    only_merges w (snd (add_tribler_config E new_config old_config w))
    /\ only_merges w (snd (add_libtribler_config E new_config old_config w)).
Proof.
  intros E new_config old_config w.
  assert (H : forall mutations label,
             respects only_merges (merge E mutations label new_config old_config)).
  { intros mutations label. unfold merge.
    apply (respects_foldM _ only_merges_refl only_merges_trans). intros c sec _.
    unfold merge_section.
    apply (respects_foldM _ only_merges_refl only_merges_trans). intros c' item _.
    apply merge_field_only_merges. }
  split; apply H.
Qed.

(** ** More on [convert_config_to_tribler74] *)

(** X9: [convert_config_to_tribler74] merges into a [.conf] file that is
    already there, it does not replace it.  When the loop body returns for a
    [.state] file, the record written is the record that [ConfigObj] read
    from the existing [.conf] file with the sections of the upgraded parser
    copied in: every key of the existing record is still there, a key that
    is no option of its section in the [.state] file keeps the value it had,
    and the keys of the record are those of the existing record and the
    options of the [.state] file ([dlstate] of [state] apart), no other. *)
Theorem existing_conf_entries_survive :
  forall (E : Env) name text old_config new_config w w',
    ends_with ".state" name = true ->
    find_file (Checkpoint name) (files w) = Some text ->
    callback_read E text = Ok old_config ->
    configobj_read E (find_file (Checkpoint (conf_name name)) (files w)) = Ok new_config ->
    convert_state_file E (Checkpoint name) w = (Ok tt, w') ->
    exists upgraded trimmed w2,
      foldM (upgrade_option E (Checkpoint name))
        [("state", "metainfo"); ("state", "engineresumedata")] old_config w
      = (Ok upgraded, w2)
      /\ rc_drop_option "state" "dlstate" upgraded = Ok trimmed
      /\ let written := copy_sections E trimmed new_config in
         find_file (Checkpoint (conf_name name)) (files w')
         = Some (configobj_write E written)
         /\ (forall section key,
               has_key section key new_config -> has_key section key written)
         /\ (forall section key,
               rc_has_option section key old_config = false ->
               lookup2 section key written = lookup2 section key new_config)
         /\ (forall section key,
               rc_has_option section key old_config = true ->
               (section =? "state") && (key =? "dlstate") = false ->
               has_key section key written)
         /\ (forall section key,
               has_key section key written ->
               has_key section key new_config
               \/ rc_has_option section key old_config = true).
Proof.
  intros E name text old_config new_config w w' Hext Hf Hcb Hobj H.
  destruct (convert_state_file_returns E name w w' Hext H)
    as (text' & old' & evaluations & upgraded & trimmed & new'
        & Hf' & Hcb' & Hfold & _ & Hdrop & Hobj' & Hw').
  rewrite Hf in Hf'. inversion Hf'; subst text'.
  rewrite Hcb in Hcb'. inversion Hcb'; subst old'.
  rewrite Hobj in Hobj'. inversion Hobj'; subst new'.
  destruct (trimmed_options _ _ _ _ _ _ _ Hfold Hdrop) as [_ Hnone].
  destruct (payload_upgrade_keeps _ _ _ _ _ _ _ Hfold Hdrop) as (_ & Hsame & _).
  exists upgraded, trimmed. eexists. split; [exact Hfold|]. split; [exact Hdrop|].
  cbv zeta. split; [|split; [|split; [|split]]].
  - subst w'. cbn [files]. rewrite find_delete_other.
    + apply find_store_same.
    + simpl. rewrite String.eqb_sym. now apply conf_name_differs.
  - intros section key. apply copy_sections_keeps.
  - intros section key Hold. apply copy_sections_other. now apply Hnone.
  - intros section key Hhas Hne. apply copy_sections_has. now rewrite Hsame.
  - intros section key Hk.
    destruct (copy_sections_has_inv _ _ _ _ _ Hk) as [Hc | Hopt]; [now left|].
    right. destruct (rc_has_option section key old_config) eqn:Hold; [reflexivity|].
    rewrite (Hnone _ _ Hold) in Hopt. discriminate.
Qed.

Lemma existing_conf_entries_survive_witness :
  exists written,
    find_file (Checkpoint "x.conf")
      (files (snd (convert_state_file Samples.env (Checkpoint "x.state")
                     (Demo.dir [(Checkpoint "x.state", Demo.good_state_text);
                                (Checkpoint "x.conf", Demo.render Samples.conf_older)]))))
    = Some (configobj_write Samples.env written)
    /\ has_key "download_defaults" "hops" written
    /\ lookup2 "download_defaults" "hops" written = Some (PInt 2).
Proof.
  destruct (existing_conf_entries_survive Samples.env "x.state"
              Demo.good_state_text (Parser [] Demo.good_state_ini) Samples.conf_older
              (Demo.dir [(Checkpoint "x.state", Demo.good_state_text);
                         (Checkpoint "x.conf", Demo.render Samples.conf_older)])
              (snd (convert_state_file Samples.env (Checkpoint "x.state")
                      (Demo.dir [(Checkpoint "x.state", Demo.good_state_text);
                                 (Checkpoint "x.conf", Demo.render Samples.conf_older)])))
              eq_refl eq_refl eq_refl eq_refl eq_refl)
    as (upgraded & trimmed & w2 & _ & _ & Hfind & Hkeeps & Hother & _ & _).
  exists (copy_sections Samples.env trimmed Samples.conf_older).
  split; [exact Hfind|]. split.
  - apply Hkeeps. exists [("hops", PInt 2)], (PInt 2). split; reflexivity.
  - rewrite Hother by reflexivity. reflexivity.
Defined.

(** X10: [convert_config_to_tribler74] drops the [dlstate] of the [state]
    section only.  When the loop body returns for a [.state] file: if
    [[DEFAULT]] has no [dlstate], the record written to the [.conf] file has
    in [state] the [dlstate] of the record read from the existing [.conf]
    file, so none when that had none; if [[DEFAULT]] has a [dlstate] (the
    option names of [[DEFAULT]] being distinct), [has_option] is true,
    [remove_option] leaves [[DEFAULT]] alone, and the record written has in
    [state] the value that [get] returns for the [dlstate] of [[DEFAULT]]. *)
Theorem dlstate_is_dropped :
  forall (E : Env) name text old_config new_config w w',
    ends_with ".state" name = true ->
    find_file (Checkpoint name) (files w) = Some text ->
    callback_read E text = Ok old_config ->
    configobj_read E (find_file (Checkpoint (conf_name name)) (files w)) = Ok new_config ->
    convert_state_file E (Checkpoint name) w = (Ok tt, w') ->
    exists upgraded trimmed w2,
      foldM (upgrade_option E (Checkpoint name))
        [("state", "metainfo"); ("state", "engineresumedata")] old_config w
      = (Ok upgraded, w2)
      /\ rc_drop_option "state" "dlstate" upgraded = Ok trimmed
      /\ let written := copy_sections E trimmed new_config in
         find_file (Checkpoint (conf_name name)) (files w')
         = Some (configobj_write E written)
         /\ (lookup "dlstate" (defaults old_config) = None ->
             lookup2 "state" "dlstate" written = lookup2 "state" "dlstate" new_config)
         /\ (forall inherited,
               NoDup (map fst (defaults old_config)) ->
               lookup "dlstate" (defaults old_config) = Some inherited ->
               lookup2 "state" "dlstate" written = Some (get_decoded E inherited)).
Proof.
  intros E name text old_config new_config w w' Hext Hf Hcb Hobj H.
  destruct (convert_state_file_returns E name w w' Hext H)
    as (text' & old' & evaluations & upgraded & trimmed & new'
        & Hf' & Hcb' & Hfold & _ & Hdrop & Hobj' & Hw').
  rewrite Hf in Hf'. inversion Hf'; subst text'.
  rewrite Hcb in Hcb'. inversion Hcb'; subst old'.
  rewrite Hobj in Hobj'. inversion Hobj'; subst new'.
  destruct (trimmed_options _ _ _ _ _ _ _ Hfold Hdrop) as [Hdl _].
  destruct (payload_upgrade_keeps _ _ _ _ _ _ _ Hfold Hdrop)
    as (Hd & _ & (own & Hown & Hnone) & _).
  exists upgraded, trimmed. eexists. split; [exact Hfold|]. split; [exact Hdrop|].
  cbv zeta. split; [|split].
  - subst w'. cbn [files]. rewrite find_delete_other.
    + apply find_store_same.
    + simpl. rewrite String.eqb_sym. now apply conf_name_differs.
  - intros Hdef. apply copy_sections_other. rewrite Hdl. unfold contains.
    now rewrite Hdef.
  - intros inherited Hnd Hdef.
    apply (copy_sections_value E trimmed new_config "state"
             (update (defaults trimmed) own)).
    + now rewrite Hd.
    + unfold rc_items. now rewrite Hown.
    + rewrite lookup_update_absent by exact Hnone. now rewrite Hd.
Qed.

Lemma dlstate_is_dropped_witness :
  (exists written,
      find_file (Checkpoint "x.conf")
        (files (snd (convert_state_file Samples.env (Checkpoint "x.state")
                       (Demo.dir [(Checkpoint "x.state", Demo.good_state_text)]))))
      = Some (configobj_write Samples.env written)
      /\ lookup2 "state" "dlstate" written = None)
  /\ (exists written,
        find_file (Checkpoint "y.conf")
          (files (snd (convert_state_file Samples.env (Checkpoint "y.state")
                         (Demo.dir [(Checkpoint "y.state", Samples.default_dlstate_text)]))))
        = Some (configobj_write Samples.env written)
        /\ lookup2 "state" "dlstate" written = Some (PInt 3)).
Proof.
  split.
  - destruct (dlstate_is_dropped Samples.env "x.state" Demo.good_state_text
                (Parser [] Demo.good_state_ini) []
                (Demo.dir [(Checkpoint "x.state", Demo.good_state_text)])
                (snd (convert_state_file Samples.env (Checkpoint "x.state")
                        (Demo.dir [(Checkpoint "x.state", Demo.good_state_text)])))
                eq_refl eq_refl eq_refl eq_refl eq_refl)
      as (upgraded & trimmed & w2 & _ & _ & Hfind & Hnone & _).
    exists (copy_sections Samples.env trimmed []).
    split; [exact Hfind|]. rewrite Hnone by reflexivity. reflexivity.
  - destruct (dlstate_is_dropped Samples.env "y.state" Samples.default_dlstate_text
                Samples.default_dlstate_parser []
                (Demo.dir [(Checkpoint "y.state", Samples.default_dlstate_text)])
                (snd (convert_state_file Samples.env (Checkpoint "y.state")
                        (Demo.dir [(Checkpoint "y.state", Samples.default_dlstate_text)])))
                eq_refl eq_refl eq_refl eq_refl eq_refl)
      as (upgraded & trimmed & w2 & _ & _ & Hfind & _ & Hsome).
    exists (copy_sections Samples.env trimmed []).
    split; [exact Hfind|].
    apply (Hsome "3"); [|reflexivity].
    repeat constructor. simpl. tauto.
Defined.

Lemma glob_lists ext w :
  exists l,
    glob ext w = (Ok l, w)
    /\ forall q, In q l <->
                 In q (map fst (files w))
                 /\ exists name, q = Checkpoint name /\ ends_with ext name = true.
Proof.
  unfold glob. eexists. split; [reflexivity|]. intros q. rewrite filter_In.
  split; intros [Hin Hq]; (split; [exact Hin|]).
  - destruct q as [r|name]; [discriminate|]. now exists name.
  - destruct Hq as (name & -> & Hext). exact Hext.
Qed.

(** What the loop of [convert_config_to_tribler74] has done when it
    returns. *)
Lemma convert_loop_returns E l :
  forall w w',
    Forall (fun x => is_state_file x = true) l ->
    for_each (convert_state_file E) l w = (Ok tt, w') ->
    (forall q, is_state_file q = true ->
       (exists t, find_file q (files w') = Some t) ->
       (exists t, find_file q (files w) = Some t) /\ ~ In q l)
    /\ (forall q, is_state_file q = false -> stays_present q w w')
    /\ (forall x, In x l -> exists t, find_file (conf_path x) (files w') = Some t).
Proof.
  induction l as [|x l IH]; intros w w' Hl H.
  - simpl in H. unfold ret in H. inversion H; subst.
    split; [|split].
    + intros q _ Hq. split; [exact Hq|intros []].
    + intros q _ Hq. exact Hq.
    + intros x [].
  - inversion Hl as [|? ? Hx Hl']; subst.
    simpl in H. apply bind_inv in H. destruct H as ([] & w1 & Hbody & Hrest).
    destruct x as [r|name]; [discriminate|]. simpl in Hx.
    destruct (convert_state_file_returns E name w w1 Hx Hbody)
      as (t0 & c0 & ev & u0 & tr & n0 & _ & _ & _ & _ & _ & _ & Hw1).
    assert (Hfiles : files w1
                     = delete_file (Checkpoint name)
                         (store_file (Checkpoint (conf_name name))
                            (configobj_write E (copy_sections E tr n0)) (files w)))
      by now subst w1.
    clear Hw1.
    destruct (IH w1 w' Hl' Hrest) as (IH1 & IH2 & IH3).
    assert (Hconf : exists t, find_file (Checkpoint (conf_name name)) (files w1) = Some t).
    { rewrite Hfiles. rewrite find_delete_other.
      - eexists. apply find_store_same.
      - simpl. rewrite String.eqb_sym. now apply conf_name_differs. }
    assert (Hkeep : forall q, is_state_file q = false -> stays_present q w w1).
    { intros q Hq Hpresent. rewrite Hfiles.
      rewrite find_delete_other
        by (apply path_eqb_false; intros <-; simpl in Hq; congruence).
      destruct (path_eqb (Checkpoint (conf_name name)) q) eqn:Hc.
      - apply path_eqb_eq in Hc. subst q. eexists. apply find_store_same.
      - rewrite find_store_other by exact Hc. exact Hpresent. }
    split; [|split].
    + intros q Hq Hpresent. destruct (IH1 q Hq Hpresent) as [Hw1 Hnotin].
      rewrite Hfiles in Hw1.
      destruct (path_eqb (Checkpoint name) q) eqn:Hqx.
      * apply path_eqb_eq in Hqx. subst q. rewrite find_delete_same in Hw1.
        destruct Hw1 as [t Ht]. discriminate.
      * rewrite find_delete_other in Hw1 by exact Hqx.
        rewrite find_store_other in Hw1.
        -- split; [exact Hw1|]. intros [Heq | Hin]; [|contradiction].
           subst q. now rewrite path_eqb_refl in Hqx.
        -- apply path_eqb_false. intros <-.
           rewrite conf_path_not_state in Hq. discriminate.
    + intros q Hq Hpresent. apply (IH2 q Hq). now apply Hkeep.
    + intros y [<- | Hy].
      * simpl. apply (IH2 _ (conf_path_not_state name)). exact Hconf.
      * now apply IH3.
Qed.

(** X11: when [convert_config_to_tribler74] returns, the checkpoint directory
    has no [.state] file left, and every [.state] file it had has its [.conf]
    file. *)
Theorem no_state_file_is_left :
  forall (E : Env) w w',
    convert_config_to_tribler74 E w = (Ok tt, w') ->
    glob ".state" w' = (Ok [], w')
    /\ (forall name,
          In (Checkpoint name) (map fst (files w)) ->
          ends_with ".state" name = true ->
          exists text, find_file (Checkpoint (conf_name name)) (files w') = Some text).
Proof.
  intros E w w' H. unfold convert_config_to_tribler74 in H.
  destruct (glob_lists ".state" w) as (l & Hg & Hl).
  rewrite (bind_ok _ _ _ _ _ Hg) in H.
  assert (Hstate : Forall (fun x => is_state_file x = true) l).
  { apply Forall_forall. intros x Hx. apply Hl in Hx.
    destruct Hx as [_ (name & -> & Hext)]. exact Hext. }
  destruct (convert_loop_returns E l w w' Hstate H) as (H1 & _ & H3).
  split.
  - unfold glob. rewrite filter_none; [reflexivity|].
    intros q Hq.
    destruct (match q with
              | Checkpoint name => ends_with ".state" name
              | Root _ => false
              end) eqn:Hs; [|reflexivity].
    exfalso. destruct (H1 q Hs (find_file_in q (files w') Hq)) as [[t Ht] Hnotin].
    apply Hnotin. apply Hl. split; [eapply find_file_some_in; exact Ht|].
    destruct q as [r|name]; [discriminate|]. now exists name.
  - intros name Hin Hext. apply (H3 (Checkpoint name)). apply Hl.
    split; [exact Hin|]. now exists name.
Qed.

Lemma no_state_file_is_left_witness :
  glob ".state"
    (snd (convert_config_to_tribler74 Demo.default
            (Demo.dir [(Checkpoint "x.state", Demo.good_state_text);
                       (Checkpoint "y.state", Demo.good_state_text)])))
  = (Ok [],
     snd (convert_config_to_tribler74 Demo.default
            (Demo.dir [(Checkpoint "x.state", Demo.good_state_text);
                       (Checkpoint "y.state", Demo.good_state_text)])))
  /\ exists text,
       find_file (Checkpoint (conf_name "y.state"))
         (files (snd (convert_config_to_tribler74 Demo.default
                        (Demo.dir [(Checkpoint "x.state", Demo.good_state_text);
                                   (Checkpoint "y.state", Demo.good_state_text)]))))
       = Some text.
Proof.
  destruct (no_state_file_is_left Demo.default
              (Demo.dir [(Checkpoint "x.state", Demo.good_state_text);
                         (Checkpoint "y.state", Demo.good_state_text)])
              (snd (convert_config_to_tribler74 Demo.default
                      (Demo.dir [(Checkpoint "x.state", Demo.good_state_text);
                                 (Checkpoint "y.state", Demo.good_state_text)])))
              eq_refl) as [Hnone Hconf].
  split; [exact Hnone|]. apply Hconf; [|reflexivity]. simpl. tauto.
Defined.

(** ** Which files a stage touches *)

Section KeepsFile.
Variable p : path.

Lemma keeps_file_refl w : keeps_file p w w.
Proof. reflexivity. Qed.

Lemma keeps_file_trans w1 w2 w3 :
  keeps_file p w1 w2 -> keeps_file p w2 w3 -> keeps_file p w1 w3.
Proof. unfold keeps_file. intros H1 H2. now rewrite H2. Qed.

Lemma keeps_file_journal fs j ev : keeps_file p (World fs j) (World fs (j ++ [ev])).
Proof. reflexivity. Qed.

Ltac kf_bind := apply (respects_bind _ keeps_file_trans).
Ltac kf_ret := apply (respects_ret _ keeps_file_refl).
Ltac kf_lift := apply (respects_lift _ keeps_file_refl).
Ltac kf_try := apply (respects_try_except _ keeps_file_trans).
Ltac kf_emit := apply (respects_emit _ keeps_file_journal).

Lemma keeps_os_remove q : path_eqb q p = false -> respects (keeps_file p) (os_remove q).
Proof.
  intros Hne w. unfold os_remove. destruct (find_file q (files w)); simpl.
  - unfold keeps_file. simpl. now apply find_delete_other.
  - reflexivity.
Qed.

Lemma keeps_write_file q text :
  path_eqb q p = false -> respects (keeps_file p) (write_file q text).
Proof. intros Hne w. unfold write_file, keeps_file. simpl. now apply find_store_other. Qed.

Lemma keeps_read_file q : respects (keeps_file p) (read_file q).
Proof. intros w. unfold read_file. destruct (find_file q (files w)); reflexivity. Qed.

Lemma keeps_glob {A} ext (k : list path -> M A) :
  (forall l,
      (forall q, In q l -> exists name, q = Checkpoint name /\ ends_with ext name = true) ->
      respects (keeps_file p) (k l)) ->
  respects (keeps_file p) (bind (glob ext) k).
Proof.
  intros Hk w. destruct (glob_lists ext w) as (l & Hg & Hl).
  rewrite (bind_ok _ _ _ _ _ Hg). apply Hk. intros q Hq. now apply Hl.
Qed.

Lemma keeps_absorb_legacy E loc mutations label current_config :
  path_eqb loc p = false ->
  respects (keeps_file p) (absorb_legacy E loc (merge E mutations label) current_config).
Proof.
  intros Hne. unfold absorb_legacy. kf_bind.
  - intros w. reflexivity.
  - intros [|]; [|kf_ret].
    kf_bind; [apply keeps_read_file|]. intros text.
    kf_bind; [kf_lift|]. intros cfg.
    kf_bind.
    + apply respects_merge.
      * apply keeps_file_refl.
      * apply keeps_file_trans.
      * apply keeps_file_journal.
    + intros merged. kf_bind; [now apply keeps_os_remove|]. intros _. kf_ret.
Qed.

Lemma keeps_rename_downloadconfig E x :
  path_eqb x p = false -> respects (keeps_file p) (rename_downloadconfig E x).
Proof.
  intros Hne. unfold rename_downloadconfig. kf_bind.
  - kf_try.
    + kf_bind; [apply keeps_read_file|]. intros; kf_lift.
    + intros e h He. destruct e; inversion He.
      kf_bind; [kf_emit|]. intros _.
      kf_bind; [now apply keeps_os_remove|]. intros _. kf_ret.
  - intros cfg. kf_try.
    + kf_bind; [kf_lift|]. intros items.
      kf_bind; [kf_lift|]. intros added.
      kf_bind.
      * apply (respects_foldM _ keeps_file_refl keeps_file_trans). intros; kf_lift.
      * intros filled. now apply keeps_write_file.
    + intros e h He. destruct e; inversion He; kf_ret.
Qed.

Lemma keeps_upgrade_option E x old_config field :
  path_eqb x p = false -> respects (keeps_file p) (upgrade_option E x old_config field).
Proof.
  intros Hne. destruct field as [section option]. unfold upgrade_option.
  kf_bind; [kf_lift|]. intros value.
  kf_bind; [kf_lift|]. intros source.
  kf_bind; [kf_lift|]. intros text.
  kf_bind; [apply (respects_eval_literal _ keeps_file_refl keeps_file_trans keeps_file_journal)|].
  intros literal. kf_try.
  - kf_bind.
    + unfold reencode. kf_bind.
      * destruct (truthy (recursive_ungarble_metainfo E literal)); [kf_ret|].
        apply (respects_eval_literal _ keeps_file_refl keeps_file_trans keeps_file_journal).
      * intros value'. kf_bind; [kf_lift|]. intros; kf_ret.
    + intros stored. kf_lift.
  - intros e h He. destruct e; inversion He;
      (kf_bind; [kf_emit|]; intros _;
       kf_bind; [now apply keeps_os_remove|]; intros _; kf_ret).
Qed.

Lemma keeps_convert_state_file E x :
  path_eqb x p = false ->
  path_eqb (conf_path x) p = false ->
  respects (keeps_file p) (convert_state_file E x).
Proof.
  intros Hx Hc. unfold convert_state_file. kf_bind.
  - kf_try.
    + kf_bind; [apply keeps_read_file|]. intros; kf_lift.
    + intros e h He. destruct e; inversion He.
      kf_bind; [kf_emit|]. intros _.
      kf_bind; [now apply keeps_os_remove|]. intros _. kf_ret.
  - intros old_config. kf_bind.
    + apply (respects_foldM _ keeps_file_refl keeps_file_trans).
      intros c field _. now apply keeps_upgrade_option.
    + intros upgraded. kf_bind; [kf_lift|]. intros trimmed.
      kf_bind; [intros w; reflexivity|]. intros existing.
      kf_bind; [kf_lift|]. intros new_config.
      kf_bind; [now apply keeps_write_file|]. intros _.
      now apply keeps_os_remove.
Qed.

Lemma keeps_migrate_selected_files E x :
  path_eqb x p = false -> respects (keeps_file p) (migrate_selected_files E x).
Proof.
  intros Hne. unfold migrate_selected_files.
  kf_bind; [apply keeps_read_file|]. intros text.
  kf_bind; [kf_lift|]. intros config.
  kf_bind; [kf_lift|]. intros download_defaults.
  destruct (negb (truthy (selected_files_of download_defaults))
            || negb (truthy (get_metainfo E config))); [kf_ret|].
  kf_bind; [kf_lift|]. intros table.
  kf_bind; [kf_lift|]. intros names.
  kf_bind; [kf_lift|]. intros indexes.
  now apply keeps_write_file.
Qed.

End KeepsFile.

(** X12: [convert_config_to_tribler71] touches nothing but the two legacy
    settings files and the [.state] checkpoints.  Whether it returns or
    raises, any other file of the state directory is afterwards as it was
    (and a file that was not there is not there). *)
Theorem stage71_touches_only_its_files :
  forall (E : Env) current_config p w,
    path_eqb (Root "libtribler.conf") p = false ->
    path_eqb (Root "tribler.conf") p = false ->
    is_state_file p = false ->
    keeps_file p w (snd (convert_config_to_tribler71 E current_config w)).
Proof.
  intros E current_config p w Hlib Htrib Hp.
  unfold convert_config_to_tribler71.
  apply (respects_bind _ (keeps_file_trans p)).
  - now apply keeps_absorb_legacy.
  - intros c1. apply (respects_bind _ (keeps_file_trans p)).
    + now apply keeps_absorb_legacy.
    + intros c2. apply keeps_glob. intros l Hl.
      apply (respects_bind _ (keeps_file_trans p)).
      * apply (respects_for_each _ (keeps_file_refl p) (keeps_file_trans p)).
        intros x Hx. apply keeps_rename_downloadconfig.
        destruct (Hl x Hx) as (name & -> & Hext).
        apply path_eqb_false. intros <-. simpl in Hp. congruence.
      * intros _. apply respects_ret, keeps_file_refl.
Qed.

Lemma stage71_touches_only_its_files_witness :
  keeps_file (Checkpoint "a.conf")
    (Demo.dir [(Root "libtribler.conf", Demo.libtribler_text);
               (Checkpoint "x.state", Samples.legacy_state_text);
               (Checkpoint "a.conf", "kept")])
    (snd (convert_config_to_tribler71 Samples.env Demo.baseline
            (Demo.dir [(Root "libtribler.conf", Demo.libtribler_text);
                       (Checkpoint "x.state", Samples.legacy_state_text);
                       (Checkpoint "a.conf", "kept")]))).
Proof.
  apply (stage71_touches_only_its_files Samples.env Demo.baseline (Checkpoint "a.conf")
           (Demo.dir [(Root "libtribler.conf", Demo.libtribler_text);
                      (Checkpoint "x.state", Samples.legacy_state_text);
                      (Checkpoint "a.conf", "kept")])
           eq_refl eq_refl eq_refl).
Defined.

(** X13: [convert_config_to_tribler74] touches nothing but [.state] and
    [.conf] checkpoints.  Whether it returns or raises, a file that is
    neither is afterwards as it was. *)
Theorem stage74_touches_only_its_files :
  forall (E : Env) p w,
    is_state_file p = false ->
    is_conf_file p = false ->
    keeps_file p w (snd (convert_config_to_tribler74 E w)).
Proof.
  intros E p w Hs Hc. unfold convert_config_to_tribler74.
  apply keeps_glob. intros l Hl.
  apply (respects_for_each _ (keeps_file_refl p) (keeps_file_trans p)).
  intros x Hx. destruct (Hl x Hx) as (name & -> & Hext).
  apply keeps_convert_state_file.
  - apply path_eqb_false. intros <-. simpl in Hs. congruence.
  - apply path_eqb_false. intros <-. simpl conf_path in Hc.
    rewrite conf_path_is_conf in Hc. discriminate.
Qed.

Lemma stage74_touches_only_its_files_witness :
  keeps_file (Checkpoint "notes.txt")
    (Demo.dir [(Checkpoint "a.state", Demo.bad_metainfo_text);
               (Checkpoint "notes.txt", "kept")])
    (snd (convert_config_to_tribler74 Demo.default
            (Demo.dir [(Checkpoint "a.state", Demo.bad_metainfo_text);
                       (Checkpoint "notes.txt", "kept")]))).
Proof.
  apply (stage74_touches_only_its_files Demo.default (Checkpoint "notes.txt")
           (Demo.dir [(Checkpoint "a.state", Demo.bad_metainfo_text);
                      (Checkpoint "notes.txt", "kept")])
           eq_refl eq_refl).
Defined.

Lemma stays_present_refl p w : stays_present p w w.
Proof. intros H. exact H. Qed.

Lemma stays_present_trans p w1 w2 w3 :
  stays_present p w1 w2 -> stays_present p w2 w3 -> stays_present p w1 w3.
Proof. intros H1 H2 H. apply H2, H1, H. Qed.

Lemma migrate_keeps_present E p x :
  respects (stays_present p) (migrate_selected_files E x).
Proof.
  unfold migrate_selected_files.
  apply (respects_bind _ (stays_present_trans p)).
  { intros w. unfold read_file. destruct (find_file x (files w)); apply stays_present_refl. }
  intros text. apply (respects_bind _ (stays_present_trans p)).
  { apply respects_lift, stays_present_refl. }
  intros config. apply (respects_bind _ (stays_present_trans p)).
  { apply respects_lift, stays_present_refl. }
  intros download_defaults.
  destruct (negb (truthy (selected_files_of download_defaults))
            || negb (truthy (get_metainfo E config)));
    [apply respects_ret, stays_present_refl|].
  apply (respects_bind _ (stays_present_trans p)).
  { apply respects_lift, stays_present_refl. }
  intros table. apply (respects_bind _ (stays_present_trans p)).
  { apply respects_lift, stays_present_refl. }
  intros names. apply (respects_bind _ (stays_present_trans p)).
  { apply respects_lift, stays_present_refl. }
  intros indexes w Hpresent. unfold write_file. simpl.
  destruct (path_eqb x p) eqn:Hx.
  - apply path_eqb_eq in Hx. subst x. eexists. apply find_store_same.
  - rewrite find_store_other by exact Hx. exact Hpresent.
Qed.

(** X14: [convert_config_to_tribler75] only rewrites [.conf] checkpoints.
    Whether it returns or raises, a file that is not a [.conf] checkpoint is
    afterwards as it was, and no file at all is removed: every file that was
    there is still there. *)
Theorem stage75_only_rewrites_conf_files :
  forall (E : Env) p w,
    (is_conf_file p = false ->
     keeps_file p w (snd (convert_config_to_tribler75 E w)))
    /\ stays_present p w (snd (convert_config_to_tribler75 E w)).
Proof.
  intros E p w. split.
  - intros Hc. unfold convert_config_to_tribler75.
    apply keeps_glob. intros l Hl.
    apply (respects_for_each _ (keeps_file_refl p) (keeps_file_trans p)).
    intros x Hx. destruct (Hl x Hx) as (name & -> & Hext).
    apply keeps_migrate_selected_files.
    apply path_eqb_false. intros <-. simpl in Hc. congruence.
  - unfold convert_config_to_tribler75.
    destruct (glob_lists ".conf" w) as (l & Hg & _).
    rewrite (bind_ok _ _ _ _ _ Hg).
    apply (respects_for_each _ (stays_present_refl p) (stays_present_trans p)).
    intros x _. apply migrate_keeps_present.
Qed.

Lemma stage75_only_rewrites_conf_files_witness :
  keeps_file (Checkpoint "x.state")
    (Demo.dir [(Checkpoint "a.conf", Demo.render Demo.conf_paths);
               (Checkpoint "x.state", "kept")])
    (snd (convert_config_to_tribler75 Demo.default
            (Demo.dir [(Checkpoint "a.conf", Demo.render Demo.conf_paths);
                       (Checkpoint "x.state", "kept")]))).
Proof.
  apply (proj1 (stage75_only_rewrites_conf_files Demo.default (Checkpoint "x.state")
                  (Demo.dir [(Checkpoint "a.conf", Demo.render Demo.conf_paths);
                             (Checkpoint "x.state", "kept")]))).
  reflexivity.
Defined.

(** ** One turn of the [.conf] loop *)

(** X15: a turn of the loop of [convert_config_to_tribler75] writes at most
    once, as its last action, and only the file it was given.  Whatever
    fails in it (the file cannot be loaded, it has no [download_defaults],
    the metainfo is no torrent, a selected name cannot be resolved) fails
    before anything is written: the checkpoint directory and the journal
    are then exactly as they were. *)
Theorem conf_turn_writes_last_or_never :
  forall (E : Env) filename w,
    match migrate_selected_files E filename w with
    | (Raise _, w') => w' = w
    | (Ok _, w') =>
        w' = w
        \/ exists text,
             w' = World (store_file filename text (files w))
                        (journal w ++ [Written filename text])
    end.
Proof.
  intros E filename w. unfold migrate_selected_files, bind, read_file, lift.
  destruct (find_file filename (files w)) as [text|]; [|reflexivity].
  destruct (download_load E text) as [config|e]; [|reflexivity].
  destruct (getitem "download_defaults" config) as [download_defaults|e]; [|reflexivity].
  destruct (negb (truthy (selected_files_of download_defaults))
            || negb (truthy (get_metainfo E config))).
  - left. reflexivity.
  - destruct (file_table E (get_metainfo E config)) as [table|e]; [|reflexivity].
    destruct (py_iter (selected_files_of download_defaults)) as [names|e]; [|reflexivity].
    destruct (map_result (get_index_of_file_in_files E table) names) as [indexes|e];
      [|reflexivity].
    right. eexists. reflexivity.
Qed.

(** X16: when [set_selected_files] stores the indices under a key other than
    [selected_files], and the written checkpoint loads back as it was
    written, a checkpoint that a turn of the loop of
    [convert_config_to_tribler75] has converted is skipped by the next turn
    on it: the second turn returns with the directory and the journal as the
    first one left them. *)
Theorem converted_conf_is_skipped_next_time :
  forall (E : Env) filename text config download_defaults table names indexes w,
    find_file filename (files w) = Some text ->
    download_load E text = Ok config ->
    getitem "download_defaults" config = Ok download_defaults ->
    truthy (selected_files_of download_defaults) = true ->
    truthy (get_metainfo E config) = true ->
    file_table E (get_metainfo E config) = Ok table ->
    py_iter (selected_files_of download_defaults) = Ok names ->
    map_result (get_index_of_file_in_files E table) names = Ok indexes ->
    (selected_key E =? "selected_files") = false ->
    (let converted :=
       set_selected_files E indexes
         (assign "download_defaults" (discard "selected_files" download_defaults) config) in
     download_load E (download_write E converted) = Ok converted) ->
    exists w1,
      migrate_selected_files E filename w = (Ok tt, w1)
      /\ w1 <> w
      /\ migrate_selected_files E filename w1 = (Ok tt, w1).
Proof.
  intros E filename text config download_defaults table names indexes w
         Hf Hl Hg Hs Hm Ht Hi Hx Hkey Hround.
  eexists. split; [|split].
  - apply (migrate_converts E filename text config download_defaults table names indexes w);
      assumption.
  - intros Heq. apply (f_equal (fun w => length (journal w))) in Heq.
    simpl in Heq. rewrite length_app in Heq. simpl in Heq. lia.
  - destruct (converted_holds_indexes E indexes download_defaults config)
      as (items & Hitems & _ & Hgone).
    apply (migrate_skips E filename
             (download_write E
                (set_selected_files E indexes
                   (assign "download_defaults"
                      (discard "selected_files" download_defaults) config)))
             (set_selected_files E indexes
                (assign "download_defaults"
                   (discard "selected_files" download_defaults) config))
             items).
    + simpl. apply find_store_same.
    + exact Hround.
    + unfold getitem. now rewrite Hitems.
    + left. unfold selected_files_of. now rewrite (Hgone Hkey).
Qed.

Lemma converted_conf_is_skipped_next_time_witness :
  exists w1,
    migrate_selected_files Samples.env (Checkpoint "a.conf")
      (Demo.dir [(Checkpoint "a.conf", Demo.render Demo.conf_paths)]) = (Ok tt, w1)
    /\ w1 <> Demo.dir [(Checkpoint "a.conf", Demo.render Demo.conf_paths)]
    /\ migrate_selected_files Samples.env (Checkpoint "a.conf") w1 = (Ok tt, w1).
Proof.
  apply (converted_conf_is_skipped_next_time Samples.env (Checkpoint "a.conf")
           (Demo.render Demo.conf_paths) Demo.conf_paths
           [("hops", PInt 0); ("selected_files", PList [PStr "a.txt"; PStr "c.txt"])]
           ["a.txt"; "b.txt"; "c.txt"]
           [PStr "a.txt"; PStr "c.txt"] [PInt 0; PInt 2]
           (Demo.dir [(Checkpoint "a.conf", Demo.render Demo.conf_paths)]));
    vm_compute; reflexivity.
Defined.
